(** * Crawl-and-capture pipeline of the screenshot tool

    A shallow embedding of [utils/imageGenerator.ts] (URL normaliser, link
    crawler, provider fallback capturer, filename synthesiser, capture
    orchestrator) together with the data types of [types.ts].

    JavaScript strings are modelled by [string]: one [ascii] per code unit,
    which covers the code units below 256.  Numbers that the code only uses
    as pixel sizes, counters, levels and HTTP statuses are modelled by [nat].
    Everything the browser provides (the URL parser, [fetch], the DOM parser,
    the canvas, the clock, the random sources) is a field of [Platform]. *)

From Stdlib Require Import String Ascii List Arith Lia DecimalString.
From stdpp Require Import gmap strings list.

Open Scope string_scope.

(* ===================================================================== *)
(** * JavaScript string primitives *)
(* ===================================================================== *)

Module Js.

Definition code (c : ascii) : nat := nat_of_ascii c.

Definition between (lo hi : nat) (c : ascii) : bool :=
  Nat.leb lo (code c) && Nat.leb (code c) hi.

(** [WhiteSpace] and [LineTerminator] code units below 256:
    TAB, LF, VT, FF, CR, SPACE and NO-BREAK SPACE. *)
Definition isWhiteSpace (c : ascii) : bool :=
  between 9 13 c || Nat.eqb (code c) 32 || Nat.eqb (code c) 160.

Definition chars (s : string) : list ascii := list_ascii_of_string s.
Definition str (l : list ascii) : string := string_of_list_ascii l.

Fixpoint dropWhile (p : ascii -> bool) (l : list ascii) : list ascii :=
  match l with
  | [] => []
  | c :: l' => if p c then dropWhile p l' else l
  end.

Definition trimStart (s : string) : string := str (dropWhile isWhiteSpace (chars s)).
Definition trimEnd (s : string) : string :=
  str (rev (dropWhile isWhiteSpace (rev (chars s)))).

(** [String.prototype.trim] *)
Definition trim (s : string) : string := trimEnd (trimStart s).

Definition lowerChar (c : ascii) : ascii :=
  if between 65 90 c || (between 192 222 c && negb (Nat.eqb (code c) 215))
  then ascii_of_nat (code c + 32) else c.

(** [String.prototype.toLowerCase] *)
Definition toLowerCase (s : string) : string := str (map lowerChar (chars s)).

(** Case folding of a case-insensitive regular expression without the
    unicode flag: only the ASCII letters fold onto ASCII letters. *)
Definition foldChar (c : ascii) : ascii :=
  if between 97 122 c then ascii_of_nat (code c - 32) else c.

Fixpoint startsWithCI (pat s : list ascii) : bool :=
  match pat, s with
  | [], _ => true
  | _ :: _, [] => false
  | p :: pat', c :: s' => Ascii.eqb (foldChar p) (foldChar c) && startsWithCI pat' s'
  end.

(** [String.prototype.startsWith] *)
Definition startsWith (s pat : string) : bool := String.prefix pat s.

Fixpoint isPrefix (pat s : list ascii) : bool :=
  match pat, s with
  | [], _ => true
  | _ :: _, [] => false
  | p :: pat', c :: s' => Ascii.eqb p c && isPrefix pat' s'
  end.

(** [String.prototype.endsWith] *)
Definition endsWith (s pat : string) : bool :=
  isPrefix (rev (chars pat)) (rev (chars s)).

(** [s.indexOf(pat) !== -1] *)
Fixpoint includesL (pat s : list ascii) : bool :=
  isPrefix pat s ||
  match s with
  | [] => false
  | _ :: s' => includesL pat s'
  end.

Definition includes (s pat : string) : bool := includesL (chars pat) (chars s).

(** [String(n)] for a non-negative integer. *)
Definition ofNat (n : nat) : string := NilEmpty.string_of_uint (Nat.to_uint n).

Fixpoint repeatChar (c : ascii) (n : nat) : list ascii :=
  match n with
  | 0 => []
  | S n' => c :: repeatChar c n'
  end.

(** [s.padStart(n, c)] with a one-character filler. *)
Definition padStart (n : nat) (c : ascii) (s : string) : string :=
  str (repeatChar c (n - String.length s)) ++ s.

(** ** Replacement

    [GetSubstitution] of ECMAScript for a pattern without capture groups:
    [$$] is a dollar sign, [$&] the matched text, [$`] the text before the
    match, [$'] the text after it; every other character, and a dollar sign
    followed by anything else, stands for itself. *)
Fixpoint getSubstitution (matched before after : list ascii) (repl : list ascii)
  : list ascii :=
  match repl with
  | [] => []
  | c :: repl' =>
      if Ascii.eqb c "$" then
        match repl' with
        | d :: repl'' =>
            if Ascii.eqb d "$" then "$"%char :: getSubstitution matched before after repl''
            else if Ascii.eqb d "&" then matched ++ getSubstitution matched before after repl''
            else if Ascii.eqb d "`" then before ++ getSubstitution matched before after repl''
            else if Ascii.eqb d "'" then after ++ getSubstitution matched before after repl''
            else c :: getSubstitution matched before after repl'
        | [] => [c]
        end
      else c :: getSubstitution matched before after repl'
  end.

(** One left-to-right pass over the subject.  [seen] is the part of the
    subject already passed (reversed), [skip] the number of characters of
    the current match still to be passed over, [once] tells whether the
    pass stops after its first match. *)
Fixpoint replaceGo (once : bool) (pat repl : list ascii) (skip : nat)
         (seen rest : list ascii) : list ascii :=
  match rest with
  | [] => []
  | c :: rest' =>
      match skip with
      | S k => replaceGo once pat repl k (c :: seen) rest'
      | 0 =>
          if isPrefix pat rest then
            getSubstitution pat (rev seen) (skipn (length pat) rest) repl ++
            (if once then skipn (length pat) rest
             else replaceGo once pat repl (length pat - 1) (c :: seen) rest')
          else c :: replaceGo once pat repl 0 (c :: seen) rest'
      end
  end.

(** [s.replace(/pat/g, repl)] for a pattern that is a non-empty literal. *)
Definition replaceAll (pat repl s : string) : string :=
  str (replaceGo false (chars pat) (chars repl) 0 [] (chars s)).

(** [s.replace(pat, repl)] for a non-empty string pattern (or a literal
    regular expression without the global flag): the first occurrence. *)
Definition replaceFirst (pat repl s : string) : string :=
  str (replaceGo true (chars pat) (chars repl) 0 [] (chars s)).

(** [s.replace(/\/$/, '')] *)
Definition stripTrailingSlash (s : string) : string :=
  match rev (chars s) with
  | c :: r => if Ascii.eqb c "/" then str (rev r) else s
  | [] => s
  end.

End Js.

(* ===================================================================== *)
(** * Regular expressions (for the filename format) *)
(* ===================================================================== *)

Module Re.

Inductive t : Type :=
| Void : t
| Eps : t
| Class : (ascii -> bool) -> t
| Cat : t -> t -> t
| Alt : t -> t -> t
| Star : t -> t.

Definition Plus (r : t) : t := Cat r (Star r).
Definition Chr (c : ascii) : t := Class (Ascii.eqb c).

Fixpoint Lit (l : list ascii) : t :=
  match l with
  | [] => Eps
  | c :: l' => Cat (Chr c) (Lit l')
  end.

Fixpoint nullable (r : t) : bool :=
  match r with
  | Void => false
  | Eps => true
  | Class _ => false
  | Cat a b => nullable a && nullable b
  | Alt a b => nullable a || nullable b
  | Star _ => true
  end.

Fixpoint deriv (c : ascii) (r : t) : t :=
  match r with
  | Void => Void
  | Eps => Void
  | Class p => if p c then Eps else Void
  | Cat a b =>
      if nullable a then Alt (Cat (deriv c a) b) (deriv c b)
      else Cat (deriv c a) b
  | Alt a b => Alt (deriv c a) (deriv c b)
  | Star a => Cat (deriv c a) (Star a)
  end.

(** The whole of [s] matches [r]. *)
Fixpoint matchesL (r : t) (s : list ascii) : bool :=
  match s with
  | [] => nullable r
  | c :: s' => matchesL (deriv c r) s'
  end.

Definition matches (r : t) (s : string) : bool := matchesL r (Js.chars s).

(** Some substring of [s] matches [r] (an unanchored search). *)
Definition found (r : t) (s : string) : bool :=
  matches (Cat (Star (Class (fun _ => true))) (Cat r (Star (Class (fun _ => true))))) s.

End Re.

(* ===================================================================== *)
(** * Data model ([types.ts]) *)
(* ===================================================================== *)

Inductive ViewportType : Type := desktop | mobile.

Definition viewportTag (v : ViewportType) : string :=
  match v with
  | desktop => "desktop"
  | mobile => "mobile"
  end.

Module Resolution.
Record t : Type := { width : nat; height : nat; label : string }.
End Resolution.

Module CaptureConfig.
(** [desktopRes] and [mobileRes] are read with optional chaining, so an
    absent resolution is part of the model. *)
Record t : Type := {
  desktop : bool;
  mobile : bool;
  desktopRes : option Resolution.t;
  mobileRes : option Resolution.t;
  fullPage : bool;
  autoDownload : bool;
  depth : nat;
  filenameTemplate : string
}.
End CaptureConfig.

Module GeneratedImage.
Record t : Type := {
  id : string;
  url : string;
  dataUrl : string;
  viewport : ViewportType;
  width : nat;
  height : nat;
  filename : string
}.
End GeneratedImage.

(** The entries of the local [viewports] array of [generateScreenshots]. *)
Module Viewport.
Record t : Type := { type : ViewportType; width : nat; height : nat }.
End Viewport.

(** The entries of the crawler's queue. *)
Module Node.
Record t : Type := { url : string; level : nat }.
End Node.

(* ===================================================================== *)
(** * The browser *)
(* ===================================================================== *)

Inductive Exn : Type :=
| Error (message : string)
| TypeError (message : string).

(** What a parsed [URL] object exposes to this code. *)
Module URL.
Record t : Type := { href : string; hostname : string; pathname : string }.
End URL.

(** The body of an HTTP response, seen as text ([response.text()]) and as
    a blob ([response.blob()]: its size, its MIME type, and its bytes in
    base64, which is what [FileReader.readAsDataURL] delivers). *)
Module Body.
Record t : Type := { size : nat; type : string; text : string; base64 : string }.
End Body.

Module Response.
(** [body = None]: the body cannot be read, [text()] and [blob()] reject. *)
Record t : Type := { status : nat; body : option Body.t }.

(** [response.ok] *)
Definition ok (r : t) : bool := Nat.leb 200 (status r) && Nat.leb (status r) 299.
End Response.

Inductive FetchOutcome : Type :=
| Rejected (e : Exn)
| Responded (r : Response.t).

Module DateTime.
(** [month] is [getMonth()], which starts at zero. *)
Record t : Type := { fullYear : nat; month : nat; date : nat; hours : nat; minutes : nat }.
End DateTime.

Record Platform : Type := {
  World : Type;
  (** [new URL(input, base)]; [None] when the constructor throws. *)
  URL_new : string -> option string -> option URL.t;
  encodeURIComponent : string -> string;
  (** [new URLSearchParams(params).toString()] *)
  urlSearchParams : list (string * string) -> string;
  fetch : string -> World -> FetchOutcome * World;
  (** [Math.random().toString(36).substring(7)] *)
  randomToken : World -> string * World;
  randomUUID : World -> string * World;
  (** [new Date()] *)
  dateNow : World -> DateTime.t * World;
  (** The [href] attributes of the [a] elements of a parsed document, in
      document order; [None] for an anchor without the attribute. *)
  anchorHrefs : string -> list (option string);
  (** Natural size of the image of a data URL; [(0, 0)] if it does not load. *)
  naturalSize : string -> nat * nat;
  (** The JPEG data URL of the canvas that [createErrorPlaceholder] draws. *)
  placeholderJpeg : nat -> nat -> string -> string
}.

(** What a run leaves behind, in order. *)
Inductive Event : Type :=
| EvFetch (url : string) (o : FetchOutcome)
| EvDelay (ms : nat)
| EvProgress (msg : string)
| EvWarn (msg : string)
| EvError (msg : string).

Inductive Outcome (A : Type) : Type :=
| Return (a : A)
| Throw (e : Exn)
| OutOfFuel.

Arguments Return {A} a.
Arguments Throw {A} e.
Arguments OutOfFuel {A}.

Definition PROXY_BASE : string := "https://corsproxy.io/?".

(** [/^https?:\/\//i.test(s)] *)
Definition hasHttpScheme (s : string) : bool :=
  Js.startsWithCI (Js.chars "http://") (Js.chars s) ||
  Js.startsWithCI (Js.chars "https://") (Js.chars s).

(** [if (!/^https?:\/\//i.test(normalized)) normalized = 'https://' + normalized] *)
Definition withScheme (normalized : string) : string :=
  if negb (hasHttpScheme normalized) then "https://" ++ normalized else normalized.

(** [/[^a-zA-Z0-9-_. \[\]()]/] matches exactly the characters that are not
    allowed. *)
Definition allowedChar (c : ascii) : bool :=
  Js.between 97 122 c || Js.between 65 90 c || Js.between 48 57 c ||
  existsb (Ascii.eqb c) (Js.chars "-_. []()").

Definition sanitizeChar (c : ascii) : ascii := if allowedChar c then c else "_"%char.

(** [filename.replace(/[^a-zA-Z0-9-_. \[\]()]/g, '_')] *)
Definition sanitize (s : string) : string := Js.str (map sanitizeChar (Js.chars s)).

(** [a || b] on numbers. *)
Definition orElse (a b : nat) : nat := if Nat.eqb a 0 then b else a.

(** [urlObj.hostname.replace('www.', '')] *)
Definition cleanHostname (hostname : string) : string :=
  Js.replaceFirst "www." EmptyString hostname.

(** [urlObj.pathname === '/' ? '' : urlObj.pathname.replace(/\//g, '-')] *)
Definition cleanPath (pathname : string) : string :=
  if String.eqb pathname "/" then EmptyString else Js.replaceAll "/" "-" pathname.

(** ** Filename synthesis (the block between the FILENAME GENERATION marks) *)

Module Fields.
Record t : Type := {
  domain : string;
  path : string;
  date : string;
  time : string;
  viewport : string;
  width : string;
  height : string;
  index : string
}.
End Fields.

Definition defaultTemplate : string := "{domain}_{date}_{viewport}".

(** [config.filenameTemplate && config.filenameTemplate.trim() !== ''
      ? config.filenameTemplate : '{domain}_{date}_{viewport}'] *)
Definition chooseTemplate (filenameTemplate : string) : string :=
  if negb (String.eqb filenameTemplate EmptyString) &&
     negb (String.eqb (Js.trim filenameTemplate) EmptyString)
  then filenameTemplate else defaultTemplate.

Definition substitute (template : string) (f : Fields.t) : string :=
  Js.replaceAll "{index}" (Fields.index f)
   (Js.replaceAll "{height}" (Fields.height f)
    (Js.replaceAll "{width}" (Fields.width f)
     (Js.replaceAll "{viewport}" (Fields.viewport f)
      (Js.replaceAll "{time}" (Fields.time f)
       (Js.replaceAll "{date}" (Fields.date f)
        (Js.replaceAll "{path}" (Fields.path f)
         (Js.replaceAll "{domain}" (Fields.domain f) template))))))).

Definition hasImageExtension (filename : string) : bool :=
  Js.endsWith (Js.toLowerCase filename) ".jpg" || Js.endsWith (Js.toLowerCase filename) ".png".

Definition ensureExtension (filename : string) : string :=
  if negb (Js.endsWith (Js.toLowerCase filename) ".jpg") &&
     negb (Js.endsWith (Js.toLowerCase filename) ".png")
  then filename ++ ".jpg" else filename.

Definition synthesizeFilename (filenameTemplate : string) (f : Fields.t) : string :=
  ensureExtension (sanitize (substitute (chooseTemplate filenameTemplate) f)).

(** The format the specification gives for filenames,
    [[A-Za-z0-9\-_. \[\]()]+\.(jpg|png)]. *)
Definition filenameFormat : Re.t :=
  Re.Cat (Re.Plus (Re.Class allowedChar))
         (Re.Cat (Re.Chr ".") (Re.Alt (Re.Lit (Js.chars "jpg")) (Re.Lit (Js.chars "png")))).

(** The same with an empty stem allowed and the letters of the extension in
    either case. *)
Definition letterCI (c : ascii) : Re.t := Re.Class (fun d => Ascii.eqb (Js.lowerChar d) c).

Definition filenameFormatCI : Re.t :=
  Re.Cat (Re.Star (Re.Class allowedChar))
         (Re.Cat (Re.Chr ".")
                 (Re.Alt (Re.Cat (letterCI "j") (Re.Cat (letterCI "p") (letterCI "g")))
                         (Re.Cat (letterCI "p") (Re.Cat (letterCI "n") (letterCI "g"))))).

(* ===================================================================== *)
(** * The program ([utils/imageGenerator.ts]) *)
(* ===================================================================== *)

Section Program.

Variable P : Platform.

(** The state a run threads: the browser's world and the events so far. *)
Record St : Type := { world : World P; trace : list Event }.

Definition M (A : Type) : Type := St -> Outcome A * St.

Definition ret {A} (a : A) : M A := fun s => (Return a, s).

Definition bind {A B} (m : M A) (k : A -> M B) : M B :=
  fun s =>
    match m s with
    | (Return a, s') => k a s'
    | (Throw e, s') => (Throw e, s')
    | (OutOfFuel, s') => (OutOfFuel, s')
    end.

Definition throw {A} (e : Exn) : M A := fun s => (Throw e, s).

Definition outOfFuel {A} : M A := fun s => (OutOfFuel, s).

(** [try { m } catch (e) { h e }] *)
Definition tryCatch {A} (m : M A) (h : Exn -> M A) : M A :=
  fun s =>
    match m s with
    | (Throw e, s') => h e s'
    | r => r
    end.

Notation "x <- m ;; k" := (bind m (fun x => k))
  (at level 90, m at level 89, right associativity).
Notation "m ;;; k" := (bind m (fun _ => k))
  (at level 90, right associativity).

Definition emit (ev : Event) : M unit :=
  fun s => (Return tt, {| world := world s; trace := (trace s ++ [ev])%list |}).

(** [delay(ms)] *)
Definition delay (ms : nat) : M unit := emit (EvDelay ms).
Definition onProgress (msg : string) : M unit := emit (EvProgress msg).
Definition consoleWarn (msg : string) : M unit := emit (EvWarn msg).
Definition consoleError (msg : string) : M unit := emit (EvError msg).

Definition liftWorld {A} (f : World P -> A * World P) : M A :=
  fun s => let '(a, w) := f (world s) in (Return a, {| world := w; trace := trace s |}).

(** [await fetch(url)]: the outcome is what the world answers; a rejected
    fetch throws. *)
Definition doFetch (url : string) : M Response.t :=
  fun s =>
    let '(o, w) := fetch P url (world s) in
    let s' := {| world := w; trace := (trace s ++ [EvFetch url o])%list |} in
    match o with
    | Rejected e => (Throw e, s')
    | Responded r => (Return r, s')
    end.

(** [new URL(input)] and [new URL(input, base)] *)
Definition newURL (input : string) (base : option string) : M URL.t :=
  match URL_new P input base with
  | Some u => ret u
  | None => throw (TypeError "Invalid URL")
  end.

(** [await response.text()] and [await response.blob()] *)
Definition readBody (r : Response.t) : M Body.t :=
  match Response.body r with
  | Some b => ret b
  | None => throw (TypeError "Failed to fetch")
  end.

(** ** normalizeUrl *)

Definition normalizeUrl (url : string) : string :=
  let normalized := Js.trim url in
  let normalized := withScheme normalized in
  match URL_new P normalized None with
  | Some u => URL.href u
  | None => url
  end.

(** ** crawlForLinks *)

Definition maxLinksPerLevel : nat := 4.

Definition isPseudoLink (href : string) : bool :=
  Js.startsWith href "#" || Js.startsWith href "mailto:" ||
  Js.startsWith href "tel:" || Js.startsWith href "javascript:".

(** The body of [for (const a of anchors)], folded over the anchors; the
    queue and [foundCount] are the variables it updates. *)
Fixpoint scanAnchors (baseDomain : string) (visited : gset string) (current : Node.t)
         (anchors : list (option string)) (queue : list Node.t) (foundCount : nat)
  : list Node.t :=
  match anchors with
  | [] => queue
  | a :: anchors' =>
      let skip := scanAnchors baseDomain visited current anchors' queue foundCount in
      match a with
      | None => skip
      | Some href =>
          if String.eqb href EmptyString || isPseudoLink href then skip
          else
            match URL_new P href (Some (Node.url current)) with
            | None => skip
            | Some resolvedUrl =>
                if String.eqb (URL.hostname resolvedUrl) baseDomain then
                  let nextUrl := URL.href resolvedUrl in
                  let cleanNext := Js.stripTrailingSlash nextUrl in
                  if negb (bool_decide (cleanNext ∈ visited)) &&
                     Nat.ltb foundCount maxLinksPerLevel
                  then
                    scanAnchors baseDomain visited current anchors'
                      (queue ++ [{| Node.url := nextUrl; Node.level := Node.level current + 1 |}])%list
                      (foundCount + 1)
                  else skip
                else skip
            end
      end
  end.

(** The [try] block of the crawler: fetch the page through the proxy and
    enqueue its internal links. *)
Definition discoverLinks (baseDomain : string) (visited : gset string) (current : Node.t)
           (queue : list Node.t) : M (list Node.t) :=
  let proxyUrl := PROXY_BASE ++ encodeURIComponent P (Node.url current) in
  response <- doFetch proxyUrl ;;
  if negb (Response.ok response)
  then throw (Error ("HTTP " ++ Js.ofNat (Response.status response)))
  else
    body <- readBody response ;;
    let anchors := anchorHrefs P (Body.text body) in
    ret (scanAnchors baseDomain visited current anchors queue 0).

(** The [while (queue.length > 0)] loop; one unit of fuel per iteration.
    [queue.shift()] yields an entry whenever the queue is not empty, so the
    [if (!current) break] that follows it never fires. *)
Fixpoint crawlLoop (fuel : nat) (depth : nat) (baseDomain : string)
         (visited : gset string) (queue : list Node.t) (result : list string)
  : M (list string) :=
  match queue with
  | [] => ret result
  | current :: queue =>
      match fuel with
      | 0 => outOfFuel
      | S fuel =>
          let cleanUrl := Js.stripTrailingSlash (Node.url current) in
          if bool_decide (cleanUrl ∈ visited)
          then crawlLoop fuel depth baseDomain visited queue result
          else
            let visited := {[cleanUrl]} ∪ visited in
            let result := (result ++ [Node.url current])%list in
            if Nat.ltb (Node.level current) depth then
              onProgress ("Crawling Level " ++ Js.ofNat (Node.level current) ++
                          ": Analyzing " ++ Node.url current ++ "...") ;;;
              queue <- tryCatch (discoverLinks baseDomain visited current queue)
                         (fun error =>
                            consoleWarn ("Failed to crawl " ++ Node.url current ++ ":") ;;;
                            ret queue) ;;
              crawlLoop fuel depth baseDomain visited queue result
            else crawlLoop fuel depth baseDomain visited queue result
      end
  end.

(** Number of nodes of the full tree with [maxLinksPerLevel] children per
    node and [k] levels below its root: a bound on the number of
    iterations a queue entry can cause. *)
Fixpoint treeSize (k : nat) : nat :=
  match k with
  | 0 => 1
  | S k' => 1 + maxLinksPerLevel * treeSize k'
  end.

Definition crawlForLinks (baseUrl : string) (depth : nat) : M (list string) :=
  let visited : gset string := ∅ in
  let queue := [{| Node.url := baseUrl; Node.level := 1 |}] in
  let result : list string := [] in
  base <- newURL baseUrl None ;;
  let baseDomain := URL.hostname base in
  crawlLoop (treeSize (depth - 1)) depth baseDomain visited queue result.

(** ** captureRealScreenshotWithFallback and fetchImageAsBase64 *)

Record Provider : Type := {
  name : string;
  getUrl : M string;
  useProxy : bool
}.

Definition microlink (url : string) (width height : nat) (type : ViewportType)
           (fullPage : bool) : Provider :=
  {| name := "microlink";
     getUrl :=
       let isMobile := match type with mobile => true | desktop => false end in
       let params :=
         [("url", url);
          ("screenshot", "true");
          ("meta", "false");
          ("embed", "screenshot.url");
          ("viewport.width", Js.ofNat width);
          ("viewport.height", Js.ofNat height);
          ("viewport.isMobile", if isMobile then "true" else "false");
          ("viewport.deviceScaleFactor", if isMobile then "2" else "1");
          ("waitFor", "3s")] in
       let params :=
         if fullPage then (params ++ [("screenshot.fullPage", "true")])%list else params in
       let query := urlSearchParams P params in
       ret ("https://api.microlink.io/?" ++ query);
     useProxy := false |}.

Definition thum_io (url : string) (width height : nat) (type : ViewportType)
           (fullPage : bool) : Provider :=
  {| name := "thum.io";
     getUrl :=
       let baseUrl := "https://image.thum.io/get/width/" ++ Js.ofNat width in
       let baseUrl :=
         if fullPage then baseUrl ++ "/fullpage"
         else baseUrl ++ "/crop/" ++ Js.ofNat height in
       ret (baseUrl ++ "/noanimate/" ++ url);
     useProxy := true |}.

Definition mshots (url : string) (width height : nat) (type : ViewportType)
           (fullPage : bool) : Provider :=
  {| name := "mshots";
     getUrl :=
       cacheBuster <- liftWorld (randomToken P) ;;
       let h := if fullPage then 4000 else height in
       ret ("https://s0.wp.com/mshots/v1/" ++ encodeURIComponent P url ++
            "?w=" ++ Js.ofNat width ++ "&h=" ++ Js.ofNat h ++ "&v=" ++ cacheBuster);
     useProxy := true |}.

Definition providers (url : string) (width height : nat) (type : ViewportType)
           (fullPage : bool) : list Provider :=
  [microlink url width height type fullPage;
   thum_io url width height type fullPage;
   mshots url width height type fullPage].

(** [[providers[i], ...]] *)
Definition select (ps : list Provider) (indices : list nat) : list Provider :=
  omap (fun i => ps !! i) indices.

Definition strategy (url : string) (width height : nat) (type : ViewportType)
           (fullPage : bool) : list Provider :=
  let providers := providers url width height type fullPage in
  match type with
  | mobile => select providers [0; 1]
  | desktop =>
      if fullPage then select providers [0; 1]
      else select providers [2; 0; 1]
  end.

(** [FileReader.readAsDataURL] on the blob of a response.  The blob is in
    memory once [response.blob()] has resolved, and reading it completes
    with the data URL: the reader's [onerror] is not reached. *)
Definition readAsDataURL (blob : Body.t) : string :=
  "data:" ++ Body.type blob ++ ";base64," ++ Body.base64 blob.

Definition fetchImageAsBase64 (url : string) : M string :=
  response <- doFetch url ;;
  if negb (Response.ok response)
  then throw (Error ("Status " ++ Js.ofNat (Response.status response)))
  else
    blob <- readBody response ;;
    if Nat.ltb (Body.size blob) 100 || negb (Js.includes (Body.type blob) "image")
    then throw (Error "Invalid image data received")
    else ret (readAsDataURL blob).

(** One turn of [for (const provider of strategy)] up to its [catch]. *)
Definition attempt (provider : Provider) : M string :=
  providerUrl <- getUrl provider ;;
  let urlToFetch :=
    if useProxy provider then PROXY_BASE ++ encodeURIComponent P providerUrl
    else providerUrl in
  fetchImageAsBase64 urlToFetch.

(** The loop over the strategy and the final [throw]. *)
Fixpoint tryProviders (strategy : list Provider) (lastError : option Exn) : M string :=
  match strategy with
  | [] =>
      throw (match lastError with
             | Some e => e
             | None => Error "All screenshot providers failed"
             end)
  | provider :: strategy =>
      tryCatch (attempt provider)
        (fun error =>
           consoleWarn (name provider ++ " capture failed, trying next...") ;;;
           let lastError := Some error in
           delay 500 ;;;
           tryProviders strategy lastError)
  end.

Definition captureRealScreenshotWithFallback (url : string) (width height : nat)
           (type : ViewportType) (fullPage : bool) : M string :=
  tryProviders (strategy url width height type fullPage) None.

(** ** generateScreenshots *)

Definition viewports (config : CaptureConfig.t) : list Viewport.t :=
  let width (r : option Resolution.t) := from_option Resolution.width 0 r in
  let height (r : option Resolution.t) := from_option Resolution.height 0 r in
  ((if CaptureConfig.desktop config
    then [{| Viewport.type := desktop;
             Viewport.width := orElse (width (CaptureConfig.desktopRes config)) 1440;
             Viewport.height := orElse (height (CaptureConfig.desktopRes config)) 900 |}]
    else []) ++
   (if CaptureConfig.mobile config
    then [{| Viewport.type := mobile;
             Viewport.width := orElse (width (CaptureConfig.mobileRes config)) 393;
             Viewport.height := orElse (height (CaptureConfig.mobileRes config)) 852 |}]
    else []))%list.

(** The date and time strings of the filename, from [now]. *)
Definition dateString (now : DateTime.t) : string :=
  Js.ofNat (DateTime.fullYear now) ++ "-" ++
  Js.padStart 2 "0" (Js.ofNat (DateTime.month now + 1)) ++ "-" ++
  Js.padStart 2 "0" (Js.ofNat (DateTime.date now)).

Definition timeString (now : DateTime.t) : string :=
  Js.padStart 2 "0" (Js.ofNat (DateTime.hours now)) ++ "-" ++
  Js.padStart 2 "0" (Js.ofNat (DateTime.minutes now)).

(** The body of [for (const viewport of viewports)]: it returns the
    [images] array after the turn. *)
Definition captureOne (config : CaptureConfig.t) (now : DateTime.t)
           (totalOperations : nat) (url cleanHostname cleanPath : string)
           (viewport : Viewport.t) (images : list GeneratedImage.t) (currentOp : nat)
  : M (list GeneratedImage.t) :=
  let captureType := if CaptureConfig.fullPage config then "Full Page" else "Viewport" in
  onProgress ("Capturing (" ++ Js.ofNat currentOp ++ "/" ++ Js.ofNat totalOperations ++
              "): " ++ url ++ " [" ++ viewportTag (Viewport.type viewport) ++ " - " ++
              captureType ++ "]") ;;;
  images <-
    tryCatch
      (dataUrl <- captureRealScreenshotWithFallback url (Viewport.width viewport)
                    (Viewport.height viewport) (Viewport.type viewport)
                    (CaptureConfig.fullPage config) ;;
       if negb (String.eqb dataUrl EmptyString) then
         let actualDims := naturalSize P dataUrl in
         let width := orElse (fst actualDims) (Viewport.width viewport) in
         let height := orElse (snd actualDims) (Viewport.height viewport) in
         let filename :=
           synthesizeFilename (CaptureConfig.filenameTemplate config)
             {| Fields.domain := cleanHostname;
                Fields.path := cleanPath;
                Fields.date := dateString now;
                Fields.time := timeString now;
                Fields.viewport := viewportTag (Viewport.type viewport);
                Fields.width := Js.ofNat width;
                Fields.height := Js.ofNat height;
                Fields.index := Js.ofNat currentOp |} in
         id <- liftWorld (randomUUID P) ;;
         ret (images ++
              [{| GeneratedImage.id := id;
                  GeneratedImage.url := url;
                  GeneratedImage.dataUrl := dataUrl;
                  GeneratedImage.viewport := Viewport.type viewport;
                  GeneratedImage.width := width;
                  GeneratedImage.height := height;
                  GeneratedImage.filename := filename |}])%list
       else ret images)
      (fun e =>
         consoleError ("Failed to capture " ++ url) ;;;
         let placeholder :=
           placeholderJpeg P (Viewport.width viewport) (Viewport.height viewport) url in
         id <- liftWorld (randomUUID P) ;;
         ret (images ++
              [{| GeneratedImage.id := id;
                  GeneratedImage.url := url;
                  GeneratedImage.dataUrl := placeholder;
                  GeneratedImage.viewport := Viewport.type viewport;
                  GeneratedImage.width := Viewport.width viewport;
                  GeneratedImage.height := Viewport.height viewport;
                  GeneratedImage.filename :=
                    "error_" ++ cleanHostname ++ "_" ++
                    viewportTag (Viewport.type viewport) ++ ".jpg" |}])%list) ;;
  delay 1500 ;;;
  ret images.

(** [for (const viewport of viewports)]; the result carries [images] and
    [currentOp]. *)
Fixpoint captureViewports (config : CaptureConfig.t) (now : DateTime.t)
         (totalOperations : nat) (url cleanHostname cleanPath : string)
         (viewports : list Viewport.t) (images : list GeneratedImage.t) (currentOp : nat)
  : M (list GeneratedImage.t * nat) :=
  match viewports with
  | [] => ret (images, currentOp)
  | viewport :: viewports =>
      let currentOp := currentOp + 1 in
      images <- captureOne config now totalOperations url cleanHostname cleanPath
                  viewport images currentOp ;;
      captureViewports config now totalOperations url cleanHostname cleanPath
        viewports images currentOp
  end.

(** [for (const url of urlsToCapture)] *)
Fixpoint capturePages (config : CaptureConfig.t) (now : DateTime.t)
         (totalOperations : nat) (viewports : list Viewport.t)
         (urlsToCapture : list string) (images : list GeneratedImage.t) (currentOp : nat)
  : M (list GeneratedImage.t) :=
  match urlsToCapture with
  | [] => ret images
  | url :: urlsToCapture =>
      urlObj <- newURL url None ;;
      let cleanHostname := cleanHostname (URL.hostname urlObj) in
      let cleanPath := cleanPath (URL.pathname urlObj) in
      r <- captureViewports config now totalOperations url cleanHostname cleanPath
             viewports images currentOp ;;
      capturePages config now totalOperations viewports urlsToCapture (fst r) (snd r)
  end.

(** The crawl phase: the pages that will be captured. *)
Definition crawlPhase (rootUrl : string) (config : CaptureConfig.t) : M (list string) :=
  let normalizedRoot := normalizeUrl rootUrl in
  onProgress "Starting Crawler Engine..." ;;;
  let urlsToCapture := [normalizedRoot] in
  tryCatch
    (crawled <- crawlForLinks normalizedRoot (CaptureConfig.depth config) ;;
     ret (if Nat.ltb 0 (length crawled) then crawled else urlsToCapture))
    (fun e =>
       consoleError "Crawl failed, defaulting to root URL only" ;;;
       ret urlsToCapture).

(** The capture phase, from [const images = []] to [return images]. *)
Definition capturePhase (config : CaptureConfig.t) (urlsToCapture : list string)
  : M (list GeneratedImage.t) :=
  let images : list GeneratedImage.t := [] in
  now <- liftWorld (dateNow P) ;;
  let viewports := viewports config in
  let totalOperations := length urlsToCapture * length viewports in
  let currentOp := 0 in
  capturePages config now totalOperations viewports urlsToCapture images currentOp.

Definition generateScreenshots (rootUrl : string) (config : CaptureConfig.t)
  : M (list GeneratedImage.t) :=
  urlsToCapture <- crawlPhase rootUrl config ;;
  capturePhase config urlsToCapture.

End Program.

Arguments Return {A} a.
Arguments world {P} s.
Arguments trace {P} s.
Arguments name {P} p.
Arguments getUrl {P} p.
Arguments useProxy {P} p.

(* ===================================================================== *)
(** * What the proofs ask of the browser's URL parser *)
(* ===================================================================== *)

(** Parsing the serialisation of a URL gives that URL back. *)
Definition HrefReparses (P : Platform) : Prop :=
  forall input base u,
    URL_new P input base = Some u -> URL_new P (URL.href u) None = Some u.

(** The serialisation of a URL parsed from an http(s) string starts with
    its (lower-case) scheme and two slashes. *)
Definition HrefKeepsScheme (P : Platform) : Prop :=
  forall input u,
    URL_new P input None = Some u -> hasHttpScheme input = true ->
    hasHttpScheme (URL.href u) = true.

(** A serialised URL has no white space at either end. *)
Definition HrefIsTrimmed (P : Platform) : Prop :=
  forall input base u,
    URL_new P input base = Some u -> Js.trim (URL.href u) = URL.href u.

(* ===================================================================== *)
(** * Reading the trace *)
(* ===================================================================== *)

(** The requests of a trace with what came back, in order. *)
Fixpoint fetches (tr : list Event) : list (string * FetchOutcome) :=
  match tr with
  | [] => []
  | EvFetch url o :: tr' => (url, o) :: fetches tr'
  | _ :: tr' => fetches tr'
  end.

(** The test of [fetchImageAsBase64], as the code makes it: the status is
    successful ([response.ok]), the body has at least 100 bytes, and the
    text [image] occurs somewhere in the content type
    ([blob.type.indexOf('image') !== -1]).  This is a substring test, not a
    test of the kind of the content: see [indicatesImage]. *)
Definition validImage (o : FetchOutcome) : bool :=
  match o with
  | Rejected _ => false
  | Responded r =>
      Response.ok r &&
      match Response.body r with
      | None => false
      | Some b => Nat.leb 100 (Body.size b) && Js.includes (Body.type b) "image"
      end
  end.

(** The data URL of an accepted response. *)
Definition imageOf (o : FetchOutcome) : string :=
  match o with
  | Responded {| Response.body := Some b |} =>
      "data:" ++ Body.type b ++ ";base64," ++ Body.base64 b
  | _ => EmptyString
  end.

(** The error a fetch that is not accepted ends in. *)
Definition errorOf (o : FetchOutcome) : Exn :=
  match o with
  | Rejected e => e
  | Responded r =>
      if negb (Response.ok r) then Error ("Status " ++ Js.ofNat (Response.status r))
      else match Response.body r with
           | None => TypeError "Failed to fetch"
           | Some _ => Error "Invalid image data received"
           end
  end.

(** [u] is a request that provider [p] builds (in some state of the world). *)
Definition requestOf {P : Platform} (p : Provider P) (u : string) : Prop :=
  exists s s' providerUrl,
    getUrl p s = (Return providerUrl, s') /\
    u = if useProxy p then PROXY_BASE ++ encodeURIComponent P providerUrl else providerUrl.

(** The weight of a queue: a bound on the iterations it can still cause. *)
Definition queueWeight (depth : nat) (queue : list Node.t) : nat :=
  list_sum (map (fun n => treeSize (depth - Node.level n)) queue).

(** A provider whose [getUrl] returns a URL and performs no request. *)
Definition quiet {P : Platform} (p : Provider P) : Prop :=
  forall s, exists providerUrl s',
    getUrl p s = (Return providerUrl, s') /\ trace s' = trace s.

(** [lastError || new Error('All screenshot providers failed')] *)
Definition lastOr (lastError : option Exn) : Exn :=
  match lastError with
  | Some e => e
  | None => Error "All screenshot providers failed"
  end.

(** A queue entry one level below [current] whose URL has property [good]. *)
Definition child (good : string -> Prop) (current n : Node.t) : Prop :=
  Node.level n = Node.level current + 1 /\ good (Node.url n).

(** The form under which the crawler remembers a URL. *)
Definition clean : string -> string := Js.stripTrailingSlash.

(** The page and viewport a record stands for. *)
Definition pairOf (img : GeneratedImage.t) : string * ViewportType :=
  (GeneratedImage.url img, GeneratedImage.viewport img).

(** The record the [catch] of a failed pair appends, up to its identifier. *)
Definition isPlaceholder (P : Platform) (url cleanHostname : string) (viewport : Viewport.t)
           (img : GeneratedImage.t) : Prop :=
  GeneratedImage.url img = url /\
  GeneratedImage.viewport img = Viewport.type viewport /\
  GeneratedImage.filename img =
    "error_" ++ cleanHostname ++ "_" ++ viewportTag (Viewport.type viewport) ++ ".jpg" /\
  GeneratedImage.width img = Viewport.width viewport /\
  GeneratedImage.height img = Viewport.height viewport /\
  GeneratedImage.dataUrl img =
    placeholderJpeg P (Viewport.width viewport) (Viewport.height viewport) url.

(** The pairs of a batch, page by page and, for each page, viewport by
    viewport. *)
Definition pairsOf (pages : list string) (viewports : list Viewport.t)
  : list (string * ViewportType) :=
  flat_map (fun url => map (fun v => (url, Viewport.type v)) viewports) pages.

(* ===================================================================== *)
(** * A small browser for concrete runs *)
(* ===================================================================== *)

(** One site, [example.com], with a handful of pages, and three capture
    services of varying reliability.  The URL parser knows the URLs of the
    site (and one foreign URL) and rejects every other input; on the inputs
    it accepts, and on ["https://"], it answers as a browser does. *)
Module Demo.

Definition hexDigit (n : nat) : ascii :=
  nth n (Js.chars "0123456789ABCDEF") "0"%char.

Definition percent (byte : nat) : list ascii :=
  ["%"%char; hexDigit (byte / 16); hexDigit (byte mod 16)].

Definition unreserved (c : ascii) : bool :=
  Js.between 97 122 c || Js.between 65 90 c || Js.between 48 57 c ||
  existsb (Ascii.eqb c) (Js.chars "-_.!~*'()").

Definition encodeChar (c : ascii) : list ascii :=
  if unreserved c then [c]
  else if Nat.ltb (Js.code c) 128 then percent (Js.code c)
  else (percent (192 + Js.code c / 64) ++ percent (128 + Js.code c mod 64))%list.

Definition encodeURIComponent (s : string) : string :=
  Js.str (concat (map encodeChar (Js.chars s))).

Fixpoint urlSearchParams (params : list (string * string)) : string :=
  match params with
  | [] => EmptyString
  | [(k, v)] => encodeURIComponent k ++ "=" ++ encodeURIComponent v
  | (k, v) :: rest =>
      encodeURIComponent k ++ "=" ++ encodeURIComponent v ++ "&" ++ urlSearchParams rest
  end.

Definition page (path : string) : URL.t :=
  {| URL.href := "https://example.com" ++ path;
     URL.hostname := "example.com";
     URL.pathname := path |}.

Definition foreign : URL.t :=
  {| URL.href := "https://other.org/"; URL.hostname := "other.org"; URL.pathname := "/" |}.

Definition known : list (string * URL.t) :=
  [("https://example.com", page "/");
   ("https://example.com/", page "/");
   ("https://example.com/about", page "/about");
   ("https://example.com/about/", page "/about/");
   ("https://example.com/blog", page "/blog");
   ("https://example.com/pricing", page "/pricing");
   ("https://example.com/docs", page "/docs");
   ("https://other.org/", foreign)].

Fixpoint assoc (k : string) (l : list (string * URL.t)) : option URL.t :=
  match l with
  | [] => None
  | (k', v) :: l' => if String.eqb k k' then Some v else assoc k l'
  end.

Definition parse (input : string) : option URL.t := assoc input known.

Definition URL_new (input : string) (base : option string) : option URL.t :=
  match base with
  | None => parse input
  | Some b =>
      match parse b with
      | None => None
      | Some bu =>
          match parse input with
          | Some u => Some u
          | None =>
              if Js.startsWith input "/"
              then parse ("https://" ++ URL.hostname bu ++ input)
              else None
          end
      end
  end.

Definition rootDocument : string := "<html>example.com</html>".

Definition anchorHrefs (document : string) : list (option string) :=
  if String.eqb document rootDocument then
    [Some "#top"; Some "/about"; None; Some "mailto:team@example.com";
     Some "https://other.org/"; Some "/about/"; Some "/blog"; Some "/";
     Some "/pricing"; Some "/docs"]
  else [].

Definition png : Body.t :=
  {| Body.size := 2048; Body.type := "image/png"; Body.text := EmptyString; Body.base64 := "iVBORw0KGgo=" |}.

Definition pixel : Body.t :=
  {| Body.size := 43; Body.type := "image/gif"; Body.text := EmptyString; Body.base64 := "R0lGODlhAQABAAAAACw=" |}.

Definition html (text : string) : Body.t :=
  {| Body.size := String.length text; Body.type := "text/html"; Body.text := text;
     Body.base64 := EmptyString |}.

Definition respond (status : nat) (b : Body.t) : FetchOutcome :=
  Responded {| Response.status := status; Response.body := Some b |}.

(** The world only counts the random values it has handed out. *)
Definition fetch (url : string) (w : nat) : FetchOutcome * nat :=
  let o :=
    if Js.includes url "microlink" then respond 429 (html "Too Many Requests")
    else if Js.includes url "blog" then Rejected (TypeError "Failed to fetch")
    else if Js.includes url "thum.io" then
      if Js.includes url "pricing" then respond 200 (html "<html>error</html>")
      else respond 200 png
    else if Js.includes url "mshots" then
      if Js.includes url "pricing" then respond 200 pixel else respond 200 png
    else if String.eqb url (PROXY_BASE ++ encodeURIComponent "https://example.com/")
    then respond 200 (html rootDocument)
    else respond 404 (html "Not Found") in
  (o, w).

Definition now : DateTime.t :=
  {| DateTime.fullYear := 2025; DateTime.month := 2; DateTime.date := 9;
     DateTime.hours := 8; DateTime.minutes := 5 |}.

Definition platform : Platform :=
  Build_Platform nat URL_new encodeURIComponent urlSearchParams fetch
    (* randomToken *) (fun w => ("t" ++ Js.ofNat w, S w))
    (* randomUUID *) (fun w => ("uuid-" ++ Js.ofNat w, S w))
    (* dateNow *) (fun w => (now, w))
    anchorHrefs
    (* naturalSize *)
    (fun dataUrl => if Js.includes dataUrl "image/png" then (1440, 3200) else (0, 0))
    (* placeholderJpeg *)
    (fun w h url => "data:image/jpeg;base64,/9j/4AAQ").

Definition start : St platform := Build_St platform 0 [].

Definition config : CaptureConfig.t :=
  {| CaptureConfig.desktop := true;
     CaptureConfig.mobile := true;
     CaptureConfig.desktopRes := Some {| Resolution.width := 1920; Resolution.height := 1080;
                                         Resolution.label := "Full HD" |};
     CaptureConfig.mobileRes := None;
     CaptureConfig.fullPage := false;
     CaptureConfig.autoDownload := false;
     CaptureConfig.depth := 2;
     CaptureConfig.filenameTemplate := "{domain}{path}_{viewport}_{index}" |}.

Definition desktopViewport : Viewport.t :=
  {| Viewport.type := desktop; Viewport.width := 1920; Viewport.height := 1080 |}.

(** The fifth turn of the batch: the blog page at the desktop viewport. *)
Definition blogTurn : Outcome (list GeneratedImage.t) * St platform :=
  captureOne platform config now 8 "https://example.com/blog"
    (cleanHostname (URL.hostname (page "/blog"))) (cleanPath (URL.pathname (page "/blog")))
    desktopViewport [] 5 start.

Definition fields : Fields.t :=
  {| Fields.domain := "example.com";
     Fields.path := EmptyString;
     Fields.date := "2025-03-09";
     Fields.time := "08-05";
     Fields.viewport := "mobile";
     Fields.width := "393";
     Fields.height := "852";
     Fields.index := "3" |}.

End Demo.

(* ===================================================================== *)
(** * Measures on traces *)
(* ===================================================================== *)

(** The number of [delay(ms)] calls of a trace. *)
Fixpoint delays (ms : nat) (tr : list Event) : nat :=
  match tr with
  | [] => 0
  | EvDelay n :: tr' => (if Nat.eqb n ms then 1 else 0) + delays ms tr'
  | _ :: tr' => delays ms tr'
  end.

(** The requests of a log that were not accepted as images. *)
Fixpoint failures (log : list (string * FetchOutcome)) : nat :=
  match log with
  | [] => 0
  | uo :: log' => (if validImage (snd uo) then 0 else 1) + failures log'
  end.

(** The document a crawl request yields: the text of a response with a
    successful status whose body can be read. *)
Definition pageOf (o : FetchOutcome) : option string :=
  match o with
  | Rejected _ => None
  | Responded r =>
      if Response.ok r then option_map Body.text (Response.body r) else None
  end.

(** The URL under which [target] is fetched through the proxy. *)
Definition viaProxy (P : Platform) (target : string) : string :=
  PROXY_BASE ++ encodeURIComponent P target.

(** A request that goes to the microlink API or to the proxy. *)
Definition isRouted (u : string) : bool :=
  Js.startsWith u "https://api.microlink.io/?" || Js.startsWith u PROXY_BASE.

(** What every record of a batch has: a non-zero size and a filename that
    ends in [.jpg] or [.png], in any case. *)
Definition wellFormed (img : GeneratedImage.t) : Prop :=
  0 < GeneratedImage.width img /\ 0 < GeneratedImage.height img /\
  hasImageExtension (GeneratedImage.filename img) = true.

(** The waits a run adds to a trace: [short] of half a second, [long] of
    one and a half seconds, and no other. *)
Definition waits {P : Platform} (s s' : St P) (short long : nat) : Prop :=
  forall ms,
    delays ms (trace s') =
    delays ms (trace s) + (if Nat.eqb 500 ms then short else 0) +
    (if Nat.eqb 1500 ms then long else 0).

(** The first character, if there is one, is not white space. *)
Definition firstSolid (l : list ascii) : Prop :=
  match l with
  | [] => True
  | c :: _ => Js.isWhiteSpace c = false
  end.

(** [trim] on the characters of a string. *)
Definition trimL (l : list ascii) : list ascii :=
  rev (Js.dropWhile Js.isWhiteSpace (rev (Js.dropWhile Js.isWhiteSpace l))).

(* ===================================================================== *)
(** * The control panel ([components/ControlPanel.tsx]) *)
(* ===================================================================== *)

(** [processedUrl.replace(/\s/g, '')]: the class [\s] is the white space
    that [trim] removes. *)
Definition removeWhiteSpace (s : string) : string :=
  Js.str (List.filter (fun c => negb (Js.isWhiteSpace c)) (Js.chars s)).

(** What [handleSubmit] ends in: an error toast, or the call of
    [onCapture]. *)
Inductive Submitted : Type :=
| ToastError (message : string)
| OnCapture (url : string) (config : CaptureConfig.t).

(** [handleSubmit], with the component's [url] and [config] as arguments. *)
Definition handleSubmit (P : Platform) (url : string) (config : CaptureConfig.t)
  : Submitted :=
  let trimmedInput := Js.trim url in
  if String.eqb trimmedInput EmptyString then ToastError "Please enter a website URL"
  else
    let processedUrl := trimmedInput in
    let processedUrl := removeWhiteSpace processedUrl in
    let processedUrl := withScheme processedUrl in
    match URL_new P processedUrl None with
    | Some urlObj =>
        if String.eqb (URL.hostname urlObj) EmptyString ||
           negb (Js.includes (URL.hostname urlObj) ".") ||
           Nat.ltb (String.length (URL.hostname urlObj)) 4
        then ToastError "Please enter a valid domain name (e.g., example.com)"
        else OnCapture processedUrl config
    | None => ToastError "Invalid URL format. Please check for typos."
    end.

(* ===================================================================== *)
(** * The gallery and the downloads ([components/Gallery.tsx], [App.tsx]) *)
(* ===================================================================== *)

(** [s.replace(/r$/, '')]: the leftmost suffix of the subject that matches
    [r] as a whole is cut off; without such a suffix nothing changes. *)
Fixpoint cutMatchToEnd (r : Re.t) (l : list ascii) : list ascii :=
  if Re.matchesL r l then []
  else match l with
       | [] => []
       | c :: l' => c :: cutMatchToEnd r l'
       end.

(** The class [[^/.]]: neither a slash nor a dot. *)
Definition inExtension (c : ascii) : bool := negb (Ascii.eqb c "/" || Ascii.eqb c ".").

(** [/\.[^/.]+/] *)
Definition extensionRe : Re.t := Re.Cat (Re.Chr ".") (Re.Plus (Re.Class inExtension)).

(** [image.filename.replace(/\.[^/.]+$/, "")] *)
Definition nameWithoutExt (filename : string) : string :=
  Js.str (cutMatchToEnd extensionRe (Js.chars filename)).

Fixpoint takeUntil (stop : ascii) (l : list ascii) : list ascii :=
  match l with
  | [] => []
  | c :: l' => if Ascii.eqb c stop then [] else c :: takeUntil stop l'
  end.

(** The first group of the first match of [/data:([^;]+);/]: at the
    leftmost place where [data:] is followed by at least one character other
    than a semicolon and then by a semicolon, those characters. *)
Fixpoint dataMimeL (l : list ascii) : option (list ascii) :=
  match l with
  | [] => None
  | _ :: l' =>
      if Js.isPrefix (Js.chars "data:") l then
        let rest := skipn 5 l in
        let group := takeUntil ";" rest in
        match group, skipn (length group) rest with
        | _ :: _, _ :: _ => Some group
        | _, _ => dataMimeL l'
        end
      else dataMimeL l'
  end.

(** [image.dataUrl.match(/data:([^;]+);/)?.[1] || 'image/jpeg'] *)
Definition currentMime (dataUrl : string) : string :=
  match dataMimeL (Js.chars dataUrl) with
  | Some group => Js.str group
  | None => "image/jpeg"
  end.

Inductive Format : Type := jpeg | png | webp.

Definition formatName (format : Format) : string :=
  match format with
  | jpeg => "jpeg"
  | png => "png"
  | webp => "webp"
  end.

(** [format === 'jpeg' ? 'jpg' : format] *)
Definition formatExtension (format : Format) : string :=
  match format with
  | jpeg => "jpg"
  | _ => formatName format
  end.

(** [format.toUpperCase()] *)
Definition formatUpper (format : Format) : string :=
  match format with
  | jpeg => "JPEG"
  | png => "PNG"
  | webp => "WEBP"
  end.

(** The name under which [handleDownload] offers an image. *)
Definition newFilename (filename : string) (format : Format) : string :=
  nameWithoutExt filename ++ "." ++ formatExtension format.

(** What the gallery and the downloads need of the browser and of the
    archive library. *)
Record Studio : Type := {
  (** The image of a data URL loads ([img.onload] rather than [img.onerror]). *)
  imageLoads : string -> bool;
  (** [canvas.getContext('2d')] is not null. *)
  hasContext2d : bool;
  (** [canvas.toDataURL(mime, 0.92)] after the image of the data URL has
      been drawn on a canvas of the given width and height, on a white
      background or not. *)
  canvasDataURL : string -> nat -> nat -> string -> bool -> string;
  (** The object URL of the archive made of the [zip.file(name, data,
      { base64: true })] calls, in order; [None] when the archive cannot be
      made. *)
  zipObjectURL : list (string * option string) -> option string;
  (** [new Date().toISOString()] *)
  isoNow : string
}.

(** What the user sees of a download. *)
Inductive UiEvent : Type :=
| SetActiveMenuNull
| ToastLoading (message : string)
| ToastDismiss
| ToastSuccess (message : string)
| ToastFail (message : string)
| LinkClick (href download : string)
| ConsoleError.

(** [handleDownload] of the gallery. *)
Definition handleDownload (B : Studio) (image : GeneratedImage.t) (format : Format)
  : list UiEvent :=
  let failed := [ConsoleError; ToastFail "Export failed"] in
  let newFilename := newFilename (GeneratedImage.filename image) format in
  let targetMime := "image/" ++ formatName format in
  let currentMime := currentMime (GeneratedImage.dataUrl image) in
  SetActiveMenuNull ::
  ToastLoading ("Preparing " ++ formatUpper format ++ "...") ::
  (if String.eqb currentMime targetMime then
     [LinkClick (GeneratedImage.dataUrl image) newFilename; ToastDismiss]
   else if negb (imageLoads B (GeneratedImage.dataUrl image)) then failed
   else if negb (hasContext2d B) then failed
   else
     let white := match format with jpeg => true | _ => false end in
     let newDataUrl :=
       canvasDataURL B (GeneratedImage.dataUrl image) (GeneratedImage.width image)
         (GeneratedImage.height image) targetMime white in
     [LinkClick newDataUrl newFilename; ToastSuccess "Downloaded!"]).

(** [s.split(',')[1]]: what stands between the first comma and the next
    one (or the end); [None] without a comma. *)
Fixpoint splitSecond (l : list ascii) : option (list ascii) :=
  match l with
  | [] => None
  | c :: l' => if Ascii.eqb c "," then Some (takeUntil "," l') else splitSecond l'
  end.

Definition base64Data (dataUrl : string) : option string :=
  option_map Js.str (splitSecond (Js.chars dataUrl)).

(** [iso.slice(0, 19).replace(/[:T]/g, '-')] *)
Definition zipStamp (iso : string) : string :=
  Js.str (map (fun c => if Ascii.eqb c ":" || Ascii.eqb c "T" then "-"%char else c)
              (firstn 19 (Js.chars iso))).

Definition zipName (iso : string) : string := "Capture_Batch_" ++ zipStamp iso ++ ".zip".

(** [downloadImages] of the application. *)
Definition downloadImages (B : Studio) (images : list GeneratedImage.t) : list UiEvent :=
  if Nat.eqb (length images) 0 then []
  else if Nat.ltb 2 (length images) then
    ToastLoading "Compressing images into ZIP..." ::
    match zipObjectURL B
            (map (fun img => (GeneratedImage.filename img,
                              base64Data (GeneratedImage.dataUrl img))) images) with
    | Some zipUrl => [LinkClick zipUrl (zipName (isoNow B)); ToastSuccess "ZIP Downloaded!"]
    | None => [ConsoleError; ToastFail "Failed to create ZIP"]
    end
  else map (fun img => LinkClick (GeneratedImage.dataUrl img) (GeneratedImage.filename img))
           images.

(** The link clicks of a run, in order. *)
Fixpoint clicks (evs : list UiEvent) : list (string * string) :=
  match evs with
  | [] => []
  | LinkClick href download :: evs' => (href, download) :: clicks evs'
  | _ :: evs' => clicks evs'
  end.

(* ===================================================================== *)
(** * The analysis service ([services/geminiService.ts]) *)
(* ===================================================================== *)

Module GeminiRequest.
Record t : Type := { model : string; mimeType : string; data : option string; prompt : string }.
End GeminiRequest.

Record Gemini : Type := {
  (** [process.env.API_KEY] *)
  apiKey : option string;
  (** [ai.models.generateContent(...)]: [None] when the call (or the
      construction of the client) throws, otherwise [response.text]. *)
  generateContent : string -> GeminiRequest.t -> option (option string)
}.

Definition analysisPrompt (viewport : string) : string :=
  "
      You are a UI/UX Expert. Analyze this " ++ viewport ++ " screenshot of a website.
      1. Identify the main layout structure.
      2. Critique the spacing and visual hierarchy.
      3. Give 3 short, actionable improvements.
      Keep the response concise (under 100 words).
    ".

(** [analyzeScreenshot]: the text it resolves to and the requests it
    makes. *)
Definition analyzeScreenshot (G : Gemini) (base64Image viewport : string)
  : string * list GeminiRequest.t :=
  match apiKey G with
  | None => ("Gemini API Key is missing. Cannot perform analysis.", [])
  | Some key =>
      if String.eqb key EmptyString
      then ("Gemini API Key is missing. Cannot perform analysis.", [])
      else
        let base64Data := base64Data base64Image in
        let request :=
          {| GeminiRequest.model := "gemini-2.5-flash";
             GeminiRequest.mimeType := "image/jpeg";
             GeminiRequest.data := base64Data;
             GeminiRequest.prompt := analysisPrompt viewport |} in
        match generateContent G key request with
        | Some (Some text) =>
            (if String.eqb text EmptyString then "No analysis generated." else text, [request])
        | Some None => ("No analysis generated.", [request])
        | None => ("Error connecting to Gemini for analysis.", [request])
        end
  end.

(* ===================================================================== *)
(** * The words of the specification where the code tests something else *)
(* ===================================================================== *)



(** "The www-stripped hostname", the "hostname with leading [www.]
    stripped": a [www.] at the start is removed, and nothing else.  The code
    removes the first [www.] wherever it stands: see [cleanHostname]. *)
Definition stripLeadingWww (hostname : string) : string :=
  if Js.startsWith hostname "www." then Js.str (skipn 4 (Js.chars hostname)) else hostname.

(* ===================================================================== *)
(** * Two more browsers for concrete runs *)
(* ===================================================================== *)

Module Stub.

(** A browser that knows one page and nothing else, with a network that
    answers by the requested URL alone. *)
Definition platform (page : URL.t) (answer : string -> FetchOutcome) : Platform :=
  Build_Platform nat
    (* URL_new *)
    (fun input base => if String.eqb input (URL.href page) then Some page else None)
    Demo.encodeURIComponent Demo.urlSearchParams
    (* fetch *) (fun url w => (answer url, w))
    (* randomToken *) (fun w => ("t" ++ Js.ofNat w, S w))
    (* randomUUID *) (fun w => ("uuid-" ++ Js.ofNat w, S w))
    (* dateNow *) (fun w => (Demo.now, w))
    (* anchorHrefs *) (fun document => [])
    (* naturalSize *) (fun dataUrl => (0, 0))
    (* placeholderJpeg *) (fun w h url => "data:image/jpeg;base64,/9j/4AAQ").

Definition start (page : URL.t) (answer : string -> FetchOutcome)
  : St (platform page answer) := Build_St (platform page answer) 0 [].



(** A network that is down. *)
Definition down (url : string) : FetchOutcome := Rejected (TypeError "Failed to fetch").

(** A page of a host with [www.] after its first label. *)
Definition staticPage : URL.t :=
  {| URL.href := "https://static.www.example.com/";
     URL.hostname := "static.www.example.com";
     URL.pathname := "/" |}.

(** The mobile viewport alone, with default size, no crawl. *)
Definition mobileOnly : CaptureConfig.t :=
  {| CaptureConfig.desktop := false;
     CaptureConfig.mobile := true;
     CaptureConfig.desktopRes := None;
     CaptureConfig.mobileRes := None;
     CaptureConfig.fullPage := false;
     CaptureConfig.autoDownload := false;
     CaptureConfig.depth := 1;
     CaptureConfig.filenameTemplate := EmptyString |}.


(** The batch of [staticPage] at the mobile viewport while the network is
    down. *)
Definition outage : Outcome (list GeneratedImage.t) * St (platform staticPage down) :=
  generateScreenshots (platform staticPage down) "https://static.www.example.com/"
    mobileOnly (start staticPage down).

End Stub.

(* ===================================================================== *)
(** * Strings and regular expressions: basic facts *)
(* ===================================================================== *)

Lemma chars_str (l : list ascii) : Js.chars (Js.str l) = l.
Proof. apply list_ascii_of_string_of_list_ascii. Qed.

Lemma str_chars (s : string) : Js.str (Js.chars s) = s.
Proof. apply string_of_list_ascii_of_string. Qed.

Lemma chars_app (s1 s2 : string) : Js.chars (s1 ++ s2) = (Js.chars s1 ++ Js.chars s2)%list.
Proof. induction s1 as [|c s1 IH]; simpl; [reflexivity|]. unfold Js.chars in *. simpl. by rewrite IH. Qed.

Lemma chars_inj (s1 s2 : string) : Js.chars s1 = Js.chars s2 -> s1 = s2.
Proof. intros H. rewrite <- (str_chars s1), <- (str_chars s2). by rewrite H. Qed.

Lemma isPrefix_app (pat s : list ascii) :
  Js.isPrefix pat s = true <-> exists rest, s = (pat ++ rest)%list.
Proof.
  revert s. induction pat as [|p pat IH]; intros s; simpl.
  - split; [intros _; by exists s | done].
  - destruct s as [|c s].
    + split; [done | intros [rest H]; discriminate].
    + rewrite andb_true_iff, IH. split.
      * intros [Hpc [rest ->]]. apply Ascii.eqb_eq in Hpc as ->. by exists rest.
      * intros [rest H]. injection H as -> ->. split; [apply Ascii.eqb_refl | by exists rest].
Qed.

Lemma matches_Void (s : list ascii) : Re.matchesL Re.Void s = false.
Proof. induction s; simpl; auto. Qed.

Lemma matches_Alt (a b : Re.t) (s : list ascii) :
  Re.matchesL (Re.Alt a b) s = Re.matchesL a s || Re.matchesL b s.
Proof. revert a b. induction s as [|c s IH]; intros a b; simpl; [reflexivity | apply IH]. Qed.

Lemma matches_Cat_nil (a b : Re.t) (s : list ascii) :
  Re.nullable a = true -> Re.matchesL b s = true -> Re.matchesL (Re.Cat a b) s = true.
Proof.
  intros Ha Hb. destruct s as [|c s]; simpl in *.
  - by rewrite Ha, Hb.
  - rewrite Ha, matches_Alt, Hb. apply orb_true_r.
Qed.

Lemma matches_Cat (a b : Re.t) (s1 s2 : list ascii) :
  Re.matchesL a s1 = true -> Re.matchesL b s2 = true ->
  Re.matchesL (Re.Cat a b) (s1 ++ s2) = true.
Proof.
  revert a. induction s1 as [|c s1 IH]; intros a Ha Hb; simpl in *.
  - by apply matches_Cat_nil.
  - destruct (Re.nullable a).
    + rewrite matches_Alt, IH; auto.
    + by apply IH.
Qed.

Lemma matches_Class (p : ascii -> bool) (c : ascii) :
  p c = true -> Re.matchesL (Re.Class p) [c] = true.
Proof. intros H. simpl. by rewrite H. Qed.

Lemma matches_Star_Class (p : ascii -> bool) (s : list ascii) :
  forallb p s = true -> Re.matchesL (Re.Star (Re.Class p)) s = true.
Proof.
  induction s as [|c s IH]; simpl; [reflexivity|].
  intros [Hc Hs]%andb_true_iff. rewrite Hc.
  by apply (matches_Cat_nil Re.Eps), IH.
Qed.

Lemma sanitize_allowed (l : list ascii) : forallb allowedChar (map sanitizeChar l) = true.
Proof.
  induction l as [|c l IH]; simpl; [reflexivity|].
  rewrite IH, andb_true_r. unfold sanitizeChar.
  destruct (allowedChar c) eqn:E; [exact E | reflexivity].
Qed.

Lemma lowerChar_dot (c : ascii) : Js.lowerChar c = "."%char -> c = "."%char.
Proof.
  destruct c as [[] [] [] [] [] [] [] []]; vm_compute; intros H; try reflexivity; discriminate H.
Qed.

(** A name that ends, in lower case, with a dot and three letters splits
    into a stem, the dot and three characters that are those letters up to
    case. *)
Lemma endsWith_lower_split (s : string) (x y z : ascii) :
  Js.endsWith (Js.toLowerCase s) (String "." (String x (String y (String z EmptyString)))) = true ->
  exists stem a b c,
    Js.chars s = (stem ++ ["."%char; a; b; c])%list /\
    Js.lowerChar a = x /\ Js.lowerChar b = y /\ Js.lowerChar c = z.
Proof.
  unfold Js.endsWith, Js.toLowerCase. rewrite chars_str.
  intros [rest H]%isPrefix_app.
  apply (f_equal (@rev ascii)) in H. rewrite rev_involutive, rev_app_distr in H.
  simpl in H.
  apply List.map_eq_app in H as (stem & ext & Hs & _ & Hext).
  destruct ext as [|d [|a [|b [|c [|]]]]]; try discriminate Hext.
  injection Hext as Hd Ha Hb Hc. apply lowerChar_dot in Hd as ->.
  by exists stem, a, b, c.
Qed.

Lemma forallb_app_inv {A} (p : A -> bool) (l1 l2 : list A) :
  forallb p (l1 ++ l2) = true -> forallb p l1 = true.
Proof. rewrite forallb_app. by intros [? ?]%andb_true_iff. Qed.

(** A name made of allowed characters that has an image extension has the
    case-insensitive format. *)
Lemma format_of_extension (s : string) :
  forallb allowedChar (Js.chars s) = true ->
  hasImageExtension s = true ->
  Re.matches filenameFormatCI s = true.
Proof.
  intros Hall Hext. unfold hasImageExtension in Hext.
  apply orb_true_iff in Hext as [H | H];
    apply endsWith_lower_split in H as (stem & a & b & c & Hs & Ha & Hb & Hc);
    unfold Re.matches, filenameFormatCI; rewrite Hs; rewrite Hs in Hall;
    apply forallb_app_inv in Hall;
    (apply matches_Cat; [by apply matches_Star_Class |]);
    apply (matches_Cat _ _ ["."%char] [a; b; c]); [reflexivity | | reflexivity |];
    rewrite matches_Alt; apply orb_true_iff; [left | right];
    apply (matches_Cat _ _ [a] [b; c]);
      try (apply matches_Class; by apply Ascii.eqb_eq);
    apply (matches_Cat _ _ [b] [c]); apply matches_Class; by apply Ascii.eqb_eq.
Qed.

(* ===================================================================== *)
(** * The filename synthesiser *)
(* ===================================================================== *)

(** The example of the specification. *)
Lemma filename_example :
  synthesizeFilename "{domain}_{viewport}_{index}" Demo.fields = "example.com_mobile_3.jpg".
Proof. reflexivity. Qed.

(** A blank template stands for the default one. *)
Lemma blank_template_is_default (f : Fields.t) :
  synthesizeFilename EmptyString f = synthesizeFilename defaultTemplate f /\
  synthesizeFilename "   " f = synthesizeFilename defaultTemplate f.
Proof.
  assert (H0 : chooseTemplate EmptyString = defaultTemplate) by (vm_compute; reflexivity).
  assert (H1 : chooseTemplate "   " = defaultTemplate) by (vm_compute; reflexivity).
  assert (H2 : chooseTemplate defaultTemplate = defaultTemplate) by (vm_compute; reflexivity).
  unfold synthesizeFilename. by rewrite H0, H1, H2.
Qed.

(** C5, as stated, fails: a template that already ends in an upper-case
    extension keeps it, and a template that is only an extension yields a
    name with an empty stem.  Neither name matches
    [[A-Za-z0-9\-_. \[\]()]+\.(jpg|png)], as a whole or in part. *)
Lemma filename_format_counterexample :
  synthesizeFilename "shot.JPG" Demo.fields = "shot.JPG" /\
  Re.matches filenameFormat (synthesizeFilename "shot.JPG" Demo.fields) = false /\
  Re.found filenameFormat (synthesizeFilename "shot.JPG" Demo.fields) = false /\
  synthesizeFilename ".png" Demo.fields = ".png" /\
  Re.matches filenameFormat (synthesizeFilename ".png" Demo.fields) = false /\
  Re.found filenameFormat (synthesizeFilename ".png" Demo.fields) = false.
Proof. repeat apply conj; vm_compute; reflexivity. Qed.

(** C5, amended.  For every template and all field values the synthesiser
    is a function of its inputs, and its output matches
    [[A-Za-z0-9\-_. \[\]()]*\.(jpg|png)] with the extension read without
    regard to case: after substitution every character outside the set is
    replaced by an underscore, and [.jpg] is appended unless the name
    already ends in [.jpg] or [.png], in any case. *)
Theorem filename_format :
  forall (template : string) (f : Fields.t),
    let substituted := substitute (chooseTemplate template) f in
    let out := synthesizeFilename template f in
    (forall template' f', template' = template -> f' = f ->
                          synthesizeFilename template' f' = out) /\
    Re.matches filenameFormatCI out = true /\
    forallb allowedChar (Js.chars out) = true /\
    Js.chars (sanitize substituted) = map sanitizeChar (Js.chars substituted) /\
    out = (if hasImageExtension (sanitize substituted)
           then sanitize substituted
           else sanitize substituted ++ ".jpg").
Proof.
  intros template f substituted out.
  assert (Hsan : forallb allowedChar (Js.chars (sanitize substituted)) = true).
  { unfold sanitize. rewrite chars_str. apply sanitize_allowed. }
  assert (Hout : out = (if hasImageExtension (sanitize substituted)
                        then sanitize substituted
                        else sanitize substituted ++ ".jpg")).
  { subst out. unfold synthesizeFilename, ensureExtension, hasImageExtension.
    fold substituted.
    destruct (Js.endsWith (Js.toLowerCase (sanitize substituted)) ".jpg");
      destruct (Js.endsWith (Js.toLowerCase (sanitize substituted)) ".png"); reflexivity. }
  assert (Hall : forallb allowedChar (Js.chars out) = true).
  { rewrite Hout. destruct (hasImageExtension (sanitize substituted)); [exact Hsan|].
    rewrite chars_app, forallb_app, Hsan. reflexivity. }
  split; [by intros ? ? -> -> |].
  split; [| split; [exact Hall | split; [| exact Hout]]].
  - apply format_of_extension; [exact Hall |].
    rewrite Hout. destruct (hasImageExtension (sanitize substituted)) eqn:E; [exact E|].
    unfold hasImageExtension, Js.endsWith, Js.toLowerCase.
    rewrite chars_str, chars_app, map_app, rev_app_distr. reflexivity.
  - unfold sanitize. apply chars_str.
Qed.

(** C6.  The claim has [{domain}] replaced by the hostname without a
    leading [www.], the rest of the hostname unchanged, and every
    placeholder replaced literally.  The code does so for
    [www.example.com], but at a page whose hostname has [www.] after its
    first label the [{domain}] value is the hostname with that inner [www.]
    cut out.  The last part shows a second departure from literal
    substitution: a path that contains [$&] brings the placeholder itself
    back. *)
Theorem domain_placeholder_inner_www :
  cleanHostname "www.example.com" = "example.com" /\
  cleanHostname "static.www.example.com" = "static.example.com" /\
  synthesizeFilename "{domain}_{viewport}_{index}"
    {| Fields.domain := cleanHostname "static.www.example.com";
       Fields.path := cleanPath "/";
       Fields.date := "2025-03-09";
       Fields.time := "08-05";
       Fields.viewport := viewportTag mobile;
       Fields.width := "393";
       Fields.height := "852";
       Fields.index := "3" |} = "static.example.com_mobile_3.jpg" /\
  substitute "{domain}{path}"
    {| Fields.domain := cleanHostname "example.com";
       Fields.path := cleanPath "/a$&b";
       Fields.date := "2025-03-09";
       Fields.time := "08-05";
       Fields.viewport := viewportTag mobile;
       Fields.width := "393";
       Fields.height := "852";
       Fields.index := "3" |} = "example.com-a{path}b".
Proof. repeat apply conj; vm_compute; reflexivity. Qed.

(* ===================================================================== *)
(** * The URL normaliser *)
(* ===================================================================== *)

Lemma withScheme_hasHttpScheme (s : string) : hasHttpScheme (withScheme s) = true.
Proof.
  unfold withScheme. destruct (hasHttpScheme s) eqn:E; simpl; [exact E|].
  unfold hasHttpScheme. apply orb_true_iff. right. reflexivity.
Qed.

Lemma withScheme_id (s : string) : hasHttpScheme s = true -> withScheme s = s.
Proof. intros H. unfold withScheme. by rewrite H. Qed.

Lemma Demo_parse_known (input : string) (u : URL.t) :
  Demo.parse input = Some u -> In u (map snd Demo.known).
Proof.
  unfold Demo.parse. induction Demo.known as [|[k v] l IH]; simpl; [discriminate|].
  destruct (String.eqb input k); [intros [= ->]; by left | intros H; right; auto].
Qed.

Lemma Demo_URL_new_known (input : string) (base : option string) (u : URL.t) :
  Demo.URL_new input base = Some u -> In u (map snd Demo.known).
Proof.
  unfold Demo.URL_new. destruct base as [b|]; [| apply Demo_parse_known].
  destruct (Demo.parse b); [| discriminate].
  destruct (Demo.parse input) eqn:E; [intros [= <-]; by apply Demo_parse_known in E |].
  destruct (Js.startsWith input "/"); [apply Demo_parse_known | discriminate].
Qed.

Lemma Demo_HrefReparses : HrefReparses Demo.platform.
Proof.
  intros input base u H%Demo_URL_new_known. simpl in H.
  repeat (destruct H as [<- | H]; [reflexivity |]). destruct H.
Qed.

Lemma Demo_HrefKeepsScheme : HrefKeepsScheme Demo.platform.
Proof.
  intros input u H%Demo_URL_new_known _. simpl in H.
  repeat (destruct H as [<- | H]; [reflexivity |]). destruct H.
Qed.

Lemma Demo_HrefIsTrimmed : HrefIsTrimmed Demo.platform.
Proof.
  intros input base u H%Demo_URL_new_known. simpl in H.
  repeat (destruct H as [<- | H]; [reflexivity |]). destruct H.
Qed.

(** C4, as stated, fails: on a string that does not parse, the value
    returned is the argument as it was given, white space included, not
    its trimmed form. *)
Lemma normalizeUrl_counterexample :
  URL_new Demo.platform (withScheme (Js.trim " ")) None = None /\
  normalizeUrl Demo.platform " " = " " /\
  normalizeUrl Demo.platform " " <> Js.trim " ".
Proof. repeat apply conj; vm_compute; congruence. Qed.

(** C4, amended.  For every input that does not parse as an absolute URL
    even after trimming and prefixing [https://], the normaliser returns
    its argument unchanged, surrounding white space included; it does not
    throw. *)
Theorem normalizeUrl_unparsable :
  forall (P : Platform) (url : string),
    URL_new P (withScheme (Js.trim url)) None = None ->
    normalizeUrl P url = url.
Proof. intros P url H. unfold normalizeUrl. by rewrite H. Qed.

Lemma normalizeUrl_unparsable_witness :
  URL_new Demo.platform (withScheme (Js.trim "  not a url ")) None = None /\
  normalizeUrl Demo.platform "  not a url " = "  not a url ".
Proof.
  split; [reflexivity |].
  apply (normalizeUrl_unparsable Demo.platform "  not a url "). reflexivity.
Defined.

(** C10.  On an input whose trimmed, scheme-prefixed form parses, the
    normaliser's output carries an http(s) scheme and the normaliser maps
    it to itself; the URL parser is asked to reparse what it serialises, to
    keep the scheme, and to serialise without surrounding white space. *)
Theorem normalizeUrl_idempotent :
  forall (P : Platform),
    HrefReparses P -> HrefKeepsScheme P -> HrefIsTrimmed P ->
    forall (url : string) (u : URL.t),
      URL_new P (withScheme (Js.trim url)) None = Some u ->
      normalizeUrl P url = URL.href u /\
      hasHttpScheme (normalizeUrl P url) = true /\
      normalizeUrl P (normalizeUrl P url) = normalizeUrl P url.
Proof.
  intros P Hre Hsch Htrim url u Hu.
  assert (Hn : normalizeUrl P url = URL.href u) by (unfold normalizeUrl; by rewrite Hu).
  assert (Hs : hasHttpScheme (URL.href u) = true).
  { apply (Hsch _ _ Hu), withScheme_hasHttpScheme. }
  rewrite Hn. split; [reflexivity | split; [exact Hs |]].
  unfold normalizeUrl.
  rewrite (Htrim _ _ _ Hu), (withScheme_id _ Hs), (Hre _ _ _ Hu). reflexivity.
Qed.

Lemma normalizeUrl_idempotent_witness :
  URL_new Demo.platform (withScheme (Js.trim " example.com ")) None = Some (Demo.page "/") /\
  normalizeUrl Demo.platform " example.com " = "https://example.com/" /\
  hasHttpScheme (normalizeUrl Demo.platform " example.com ") = true /\
  normalizeUrl Demo.platform (normalizeUrl Demo.platform " example.com ") =
    normalizeUrl Demo.platform " example.com ".
Proof.
  split; [reflexivity |].
  apply (normalizeUrl_idempotent Demo.platform
           Demo_HrefReparses Demo_HrefKeepsScheme Demo_HrefIsTrimmed
           " example.com " (Demo.page "/")).
  reflexivity.
Defined.

(* ===================================================================== *)
(** * The provider fallback capturer *)
(* ===================================================================== *)

Lemma fetches_app (tr1 tr2 : list Event) :
  fetches (tr1 ++ tr2) = (fetches tr1 ++ fetches tr2)%list.
Proof.
  induction tr1 as [|ev tr1 IH]; simpl; [reflexivity|].
  destruct ev; simpl; by rewrite IH.
Qed.

Lemma providers_quiet (P : Platform) (url : string) (width height : nat)
      (type : ViewportType) (fullPage : bool) :
  Forall quiet (strategy P url width height type fullPage).
Proof.
  assert (Hm : quiet (microlink P url width height type fullPage))
    by (intros s; eexists _, s; split; reflexivity).
  assert (Ht : quiet (thum_io P url width height type fullPage))
    by (intros s; eexists _, s; split; reflexivity).
  assert (Hs : quiet (mshots P url width height type fullPage)).
  { intros s. unfold mshots, getUrl, bind, liftWorld, ret.
    destruct (randomToken P (world s)) as [tok w]. eexists _, _. split; reflexivity. }
  destruct type, fullPage; repeat constructor; assumption.
Qed.

(** What one call of [fetchImageAsBase64] does: one request, accepted
    exactly when [validImage] holds of what came back. *)
Lemma fetchImageAsBase64_spec (P : Platform) (url : string) (s : St P) :
  exists o s',
    fetchImageAsBase64 P url s =
      (if validImage o then Return (imageOf o) else Throw (errorOf o), s') /\
    trace s' = (trace s ++ [EvFetch url o])%list.
Proof.
  unfold fetchImageAsBase64, bind, doFetch, readBody, throw, ret.
  destruct (fetch P url (world s)) as [o w].
  exists o, (Build_St P w (trace s ++ [EvFetch url o])). split; [| reflexivity].
  destruct o as [e | r]; [reflexivity |].
  unfold validImage, errorOf, imageOf.
  destruct (Response.ok r) eqn:Hok; cbn [negb andb]; [| reflexivity].
  destruct r as [status body]. cbn [Response.body].
  destruct body as [b|]; [| reflexivity].
  rewrite Nat.leb_antisym.
  destruct (Nat.ltb (Body.size b) 100); cbn [negb andb orb]; [reflexivity |].
  destruct (Js.includes (Body.type b) "image"); reflexivity.
Qed.

Lemma attempt_spec (P : Platform) (p : Provider P) (s : St P) :
  quiet p ->
  exists u o s',
    requestOf p u /\
    attempt P p s = (if validImage o then Return (imageOf o) else Throw (errorOf o), s') /\
    fetches (trace s') = (fetches (trace s) ++ [(u, o)])%list.
Proof.
  intros Hq. destruct (Hq s) as (providerUrl & s1 & Hget & Htr).
  unfold attempt, bind. rewrite Hget.
  set (u := if useProxy p then _ else _).
  destruct (fetchImageAsBase64_spec P u s1) as (o & s' & Hf & Htr').
  exists u, o, s'. split; [by exists s, s1, providerUrl |]. split; [exact Hf |].
  rewrite Htr', fetches_app, Htr. reflexivity.
Qed.

(** The loop over any list of quiet providers. *)
Lemma tryProviders_spec (P : Platform) (strategy : list (Provider P)) :
  Forall quiet strategy ->
  forall (lastError : option Exn) (s : St P),
  exists (log : list (string * FetchOutcome)) (out : Outcome string) (s' : St P),
    tryProviders P strategy lastError s = (out, s') /\
    fetches (trace s') = (fetches (trace s) ++ log)%list /\
    Forall2 (fun p uo => requestOf p (fst uo)) (take (length log) strategy) log /\
    match out with
    | Return d =>
        exists failed u o,
          log = (failed ++ [(u, o)])%list /\
          Forall (fun uo => validImage (snd uo) = false) failed /\
          validImage o = true /\ d = imageOf o
    | Throw e =>
        length log = length strategy /\
        Forall (fun uo => validImage (snd uo) = false) log /\
        e = from_option (fun uo => errorOf (snd uo)) (lastOr lastError) (last log)
    | OutOfFuel => False
    end.
Proof.
  induction 1 as [|p strategy Hp Hq IH]; intros lastError s.
  - exists [], (Throw (lastOr lastError)), s. simpl.
    split; [reflexivity |]. split; [by rewrite app_nil_r |]. split; [constructor |].
    split; [reflexivity |]. split; [constructor | reflexivity].
  - destruct (attempt_spec P p s Hp) as (u & o & s1 & Hreq & Hatt & Htr1).
    simpl. unfold tryCatch. rewrite Hatt.
    destruct (validImage o) eqn:Hv.
    + exists [(u, o)], (Return (imageOf o)), s1.
      split; [reflexivity |]. split; [exact Htr1 |].
      split; [simpl; by repeat constructor |].
      exists [], u, o. split; [reflexivity |]. split; [constructor |]. by split.
    + unfold bind, consoleWarn, delay, emit.
      match goal with |- context [tryProviders P strategy ?le ?st] =>
        destruct (IH le st) as (log & out & s' & Hrun & Htr & Hreqs & Hout)
      end.
      exists ((u, o) :: log), out, s'.
      split; [exact Hrun |].
      split.
      { rewrite Htr. simpl. rewrite !fetches_app. simpl. rewrite !app_nil_r, Htr1.
        by rewrite <- app_assoc. }
      split; [simpl; by constructor |].
      destruct out as [d | e |]; [| | exact Hout].
      * destruct Hout as (failed & u' & o' & -> & Hfailed & Hvalid & ->).
        exists ((u, o) :: failed), u', o'. split; [reflexivity |].
        split; [by constructor |]. by split.
      * destruct Hout as (Hlen & Hall & ->).
        split; [simpl; by rewrite Hlen |]. split; [by constructor |].
        destruct log as [|x log]; [reflexivity |].
        rewrite last_cons_cons, (last_cons x log). by destruct (last log).
Qed.



(* ===================================================================== *)
(** * The crawler *)
(* ===================================================================== *)

Lemma treeSize_pos (k : nat) : 1 <= treeSize k.
Proof. destruct k; simpl; lia. Qed.

Lemma treeSize_level (depth level : nat) :
  level < depth ->
  treeSize (depth - level) = 1 + maxLinksPerLevel * treeSize (depth - (level + 1)).
Proof.
  intros H. replace (depth - level) with (S (depth - (level + 1))) by lia. reflexivity.
Qed.

Lemma queueWeight_app (depth : nat) (q1 q2 : list Node.t) :
  queueWeight depth (q1 ++ q2) = queueWeight depth q1 + queueWeight depth q2.
Proof. unfold queueWeight. by rewrite map_app, list_sum_app. Qed.

Lemma queueWeight_children (depth level : nat) (added : list Node.t) :
  Forall (fun n => Node.level n = level) added ->
  queueWeight depth added = length added * treeSize (depth - level).
Proof.
  unfold queueWeight. induction 1 as [|n added Hn _ IH]; simpl; [reflexivity|].
  rewrite IH, Hn. reflexivity.
Qed.

Section Crawler.

Variable P : Platform.
Variable baseDomain : string.

(** A property of URLs that every link the crawler follows has. *)
Variable good : string -> Prop.
Hypothesis good_link :
  forall href base u,
    URL_new P href base = Some u -> URL.hostname u = baseDomain -> good (URL.href u).

Lemma scanAnchors_spec (visited : gset string) (current : Node.t)
      (anchors : list (option string)) :
  forall (queue : list Node.t) (foundCount : nat),
  exists added,
    scanAnchors P baseDomain visited current anchors queue foundCount = (queue ++ added)%list /\
    Forall (child good current) added /\
    length added <= maxLinksPerLevel - foundCount.
Proof.
  induction anchors as [|a anchors IH]; intros queue foundCount.
  - exists []. simpl. rewrite app_nil_r. repeat split; [constructor | lia].
  - simpl. destruct a as [href|]; [| apply IH].
    destruct (String.eqb href EmptyString || isPseudoLink href); [apply IH |].
    destruct (URL_new P href (Some (Node.url current))) as [resolvedUrl|] eqn:Hres; [| apply IH].
    destruct (String.eqb (URL.hostname resolvedUrl) baseDomain) eqn:Hhost; [| apply IH].
    destruct (negb (bool_decide (Js.stripTrailingSlash (URL.href resolvedUrl) ∈ visited)) &&
              Nat.ltb foundCount maxLinksPerLevel) eqn:Hpush; [| apply IH].
    apply andb_true_iff in Hpush as [_ Hlt%Nat.ltb_lt].
    match goal with |- context [scanAnchors _ _ _ _ _ (queue ++ [?n])%list _] =>
      destruct (IH (queue ++ [n])%list (foundCount + 1)) as (added & Heq & Hall & Hlen);
      exists (n :: added)
    end.
    split; [by rewrite Heq, <- app_assoc |].
    split; [| simpl; lia].
    constructor; [| exact Hall]. split; [reflexivity |].
    apply String.eqb_eq in Hhost. by apply (good_link _ _ _ Hres).
Qed.

(** Link discovery with its [catch]: it returns, and the queue has grown
    by at most [maxLinksPerLevel] children of the current node. *)
Lemma discover_spec (visited : gset string) (current : Node.t) (queue : list Node.t)
      (msg : string) (s : St P) :
  exists added s',
    tryCatch P (discoverLinks P baseDomain visited current queue)
      (fun _ => bind P (consoleWarn P msg) (fun _ => ret P queue)) s =
      (Return (queue ++ added)%list, s') /\
    Forall (child good current) added /\
    length added <= maxLinksPerLevel.
Proof.
  assert (Hnone : forall s1 : St P, exists (added : list Node.t) (s' : St P),
             (@Return (list Node.t) queue, s1) = (Return (queue ++ added)%list, s') /\
             Forall (child good current) added /\ length added <= maxLinksPerLevel).
  { intros s1. exists [], s1. rewrite app_nil_r. repeat split; [constructor | simpl; lia]. }
  unfold tryCatch, discoverLinks, bind, doFetch, readBody, throw, ret, consoleWarn, emit.
  destruct (fetch P _ (world s)) as [o w].
  destruct o as [e | r]; [apply Hnone |].
  destruct (Response.ok r) eqn:Hok; cbn [negb]; [| apply Hnone].
  destruct (Response.body r) as [b|] eqn:Hbody; [| apply Hnone].
  destruct (scanAnchors_spec visited current (anchorHrefs P (Body.text b)) queue 0)
    as (added & Heq & Hall & Hlen).
  exists added. eexists. split; [by rewrite Heq |]. split; [exact Hall | lia].
Qed.

(** The loop, from any state in which the fuel covers the queue and
    [visited] holds the stripped forms of the results so far. *)
Lemma crawlLoop_spec (depth : nat) :
  forall (fuel : nat) (visited : gset string) (queue : list Node.t)
         (result : list string) (s : St P),
    queueWeight depth queue <= fuel ->
    (forall x, x ∈ visited <-> x ∈ map clean result) ->
    NoDup (map clean result) ->
    Forall (fun n => good (Node.url n)) queue ->
    exists more s',
      crawlLoop P fuel depth baseDomain visited queue result s =
        (Return (result ++ more)%list, s') /\
      NoDup (map clean (result ++ more)) /\
      Forall good more /\
      (forall current rest,
          queue = current :: rest -> clean (Node.url current) ∉ visited ->
          exists more', more = Node.url current :: more').
Proof.
  induction fuel as [|fuel IH]; intros visited queue result s Hfuel Hvis Hnd Hq.
  - destruct queue as [|current queue].
    + exists [], s. simpl. rewrite app_nil_r.
      repeat split; [exact Hnd | constructor | discriminate].
    + exfalso. unfold queueWeight in Hfuel. simpl in Hfuel.
      pose proof (treeSize_pos (depth - Node.level current)). lia.
  - destruct queue as [|current queue].
    + exists [], s. simpl. rewrite app_nil_r.
      repeat split; [exact Hnd | constructor | discriminate].
    + assert (Hw : treeSize (depth - Node.level current) + queueWeight depth queue <= S fuel)
        by exact Hfuel.
      pose proof (treeSize_pos (depth - Node.level current)) as Hpos.
      apply Forall_cons in Hq as [Hcur Hq].
      cbn [crawlLoop]. case_bool_decide as Hin.
      { destruct (IH visited queue result s) as (more & s' & Hrun & Hnd' & Hgood & _);
          [lia | assumption.. |].
        exists more, s'. repeat split; [exact Hrun | exact Hnd' | exact Hgood |].
        intros current' rest [= <- <-] Hnot. by destruct Hnot. }
      set (visited' := {[Js.stripTrailingSlash (Node.url current)]} ∪ visited).
      set (result' := (result ++ [Node.url current])%list).
      assert (Hvis' : forall x, x ∈ visited' <-> x ∈ map clean result').
      { intros x. subst visited' result'. rewrite map_app, elem_of_app, elem_of_union, Hvis.
        simpl. rewrite elem_of_singleton, list_elem_of_singleton. unfold clean. tauto. }
      assert (Hnd' : NoDup (map clean result')).
      { subst result'. rewrite map_app. apply NoDup_app. split; [exact Hnd |].
        split; [| apply NoDup_singleton].
        intros x Hx [-> | []%elem_of_nil]%elem_of_cons. apply Hin. by apply Hvis. }
      assert (Hfinish : forall queue' s1,
                 queueWeight depth queue' <= fuel ->
                 Forall (fun n => good (Node.url n)) queue' ->
                 exists more s',
                   crawlLoop P fuel depth baseDomain visited' queue' result' s1 =
                     (Return (result ++ more)%list, s') /\
                   NoDup (map clean (result ++ more)) /\ Forall good more /\
                   (forall current' rest,
                       current :: queue = current' :: rest ->
                       clean (Node.url current') ∉ visited ->
                       exists more', more = Node.url current' :: more')).
      { intros queue' s1 Hw' Hq'.
        destruct (IH visited' queue' result' s1 Hw' Hvis' Hnd' Hq')
          as (more & s' & Hrun & Hnd'' & Hgood & _).
        exists (Node.url current :: more), s'. subst result'.
        rewrite <- app_assoc in Hrun, Hnd''.
        repeat split; [exact Hrun | exact Hnd'' | by constructor |].
        intros current' rest [= <- <-] _. by exists more. }
      destruct (Nat.ltb (Node.level current) depth) eqn:Hlevel; [| apply Hfinish; [lia | exact Hq]].
      apply Nat.ltb_lt in Hlevel.
      unfold bind at 1. unfold onProgress at 1, emit at 1. unfold bind at 1.
      match goal with |- context [tryCatch P _ (fun _ => bind P (consoleWarn P ?msg) _) ?s1] =>
        destruct (discover_spec visited' current queue msg s1)
          as (added & s2 & Hdisc & Hchildren & Hlen)
      end.
      rewrite Hdisc. apply Hfinish.
      * rewrite queueWeight_app.
        rewrite (queueWeight_children depth (Node.level current + 1) added)
          by (eapply Forall_impl; [exact Hchildren | by intros n [? _]]).
        rewrite (treeSize_level _ _ Hlevel) in Hw.
        assert (length added * treeSize (depth - (Node.level current + 1)) <=
                maxLinksPerLevel * treeSize (depth - (Node.level current + 1)))
          by (apply Nat.mul_le_mono_r; exact Hlen).
        lia.
      * apply Forall_app. split; [exact Hq |].
        eapply Forall_impl; [exact Hchildren | by intros n [_ ?]].
Qed.

End Crawler.

(** The crawler on a root that parses: it returns, the root comes first,
    no two entries agree up to a trailing slash, and every entry has the
    property that the root and every followed link have. *)
Lemma crawlForLinks_spec (P : Platform) (good : string -> Prop)
      (baseUrl : string) (depth : nat) (s : St P) (root : URL.t) :
  URL_new P baseUrl None = Some root ->
  good baseUrl ->
  (forall href base u,
      URL_new P href base = Some u -> URL.hostname u = URL.hostname root ->
      good (URL.href u)) ->
  exists more s',
    crawlForLinks P baseUrl depth s = (Return (baseUrl :: more), s') /\
    NoDup (map Js.stripTrailingSlash (baseUrl :: more)) /\
    Forall good (baseUrl :: more).
Proof.
  intros Hroot Hgood Hlink.
  unfold crawlForLinks, bind, newURL. rewrite Hroot. unfold ret at 1.
  destruct (crawlLoop_spec P (URL.hostname root) good Hlink depth
              (treeSize (depth - 1)) ∅ [{| Node.url := baseUrl; Node.level := 1 |}] [] s)
    as (more & s' & Hrun & Hnd & Hall & Hhead).
  - unfold queueWeight. simpl. lia.
  - intros x. simpl. rewrite elem_of_nil. set_solver.
  - constructor.
  - by repeat constructor.
  - destruct (Hhead _ _ eq_refl) as [more' ->]; [set_solver |].
    exists more', s'. by repeat split.
Qed.

(** C8.  The crawler never runs short of iterations; it throws only when
    the root does not parse; and in the list it returns no two entries are
    equal once a trailing slash is stripped from each. *)
Theorem crawl_no_duplicates :
  forall (P : Platform) (baseUrl : string) (depth : nat) (s : St P),
    match crawlForLinks P baseUrl depth s with
    | (Return result, _) => NoDup (map Js.stripTrailingSlash result)
    | (Throw _, _) => URL_new P baseUrl None = None
    | (OutOfFuel, _) => False
    end.
Proof.
  intros P baseUrl depth s.
  destruct (URL_new P baseUrl None) as [root|] eqn:Hroot.
  - destruct (crawlForLinks_spec P (fun _ => True) baseUrl depth s root Hroot)
      as (more & s' & -> & Hnd & _); auto.
  - unfold crawlForLinks, bind, newURL. rewrite Hroot. reflexivity.
Qed.

(** C7.  For every root that is a URL and every depth (so for every depth
    of at least one), whatever the fetches of the crawl answer, the crawler
    returns a list that starts with the root, hence is not empty, and every
    entry of the list is a URL whose hostname is the root's hostname. *)
Theorem crawl_root_and_hosts :
  forall (P : Platform),
    HrefReparses P ->
    forall (baseUrl : string) (depth : nat) (s : St P) (root : URL.t),
      URL_new P baseUrl None = Some root ->
      exists result s',
        crawlForLinks P baseUrl depth s = (Return result, s') /\
        1 <= length result /\
        head result = Some baseUrl /\
        Forall (fun entry =>
                  exists u, URL_new P entry None = Some u /\
                            URL.hostname u = URL.hostname root) result.
Proof.
  intros P Hre baseUrl depth s root Hroot.
  destruct (crawlForLinks_spec P
              (fun entry => exists u, URL_new P entry None = Some u /\
                                      URL.hostname u = URL.hostname root)
              baseUrl depth s root Hroot)
    as (more & s' & Hrun & _ & Hall).
  - by exists root.
  - intros href base u Hu Hhost. exists u. split; [exact (Hre _ _ _ Hu) | exact Hhost].
  - exists (baseUrl :: more), s'. repeat split; [exact Hrun | simpl; lia | exact Hall].
Qed.

Lemma crawl_root_and_hosts_witness :
  URL_new Demo.platform "https://example.com/" None = Some (Demo.page "/") /\
  exists result s',
    crawlForLinks Demo.platform "https://example.com/" 2 Demo.start = (Return result, s') /\
    1 <= length result /\
    head result = Some "https://example.com/" /\
    Forall (fun entry =>
              exists u, URL_new Demo.platform entry None = Some u /\
                        URL.hostname u = URL.hostname (Demo.page "/")) result.
Proof.
  split; [reflexivity |].
  apply (crawl_root_and_hosts Demo.platform Demo_HrefReparses
           "https://example.com/" 2 Demo.start (Demo.page "/")).
  reflexivity.
Defined.

(* ===================================================================== *)
(** * The orchestrator *)
(* ===================================================================== *)

Lemma imageOf_nonempty (o : FetchOutcome) :
  validImage o = true -> String.eqb (imageOf o) EmptyString = false.
Proof.
  destruct o as [e | [status [b|]]]; simpl; try discriminate.
  - reflexivity.
  - by rewrite andb_false_r.
Qed.

(** One turn of the inner loop appends exactly one record for its pair: a
    capture when one of the requests of the turn was accepted, the
    placeholder when none was. *)
Lemma captureOne_spec (P : Platform) (config : CaptureConfig.t) (now : DateTime.t)
      (totalOperations : nat) (url cleanHostname cleanPath : string)
      (viewport : Viewport.t) (images : list GeneratedImage.t) (currentOp : nat)
      (s : St P) :
  exists img s' log,
    captureOne P config now totalOperations url cleanHostname cleanPath viewport
      images currentOp s = (Return (images ++ [img])%list, s') /\
    fetches (trace s') = (fetches (trace s) ++ log)%list /\
    pairOf img = (url, Viewport.type viewport) /\
    ((exists failed u o,
         log = (failed ++ [(u, o)])%list /\ validImage o = true /\
         GeneratedImage.dataUrl img = imageOf o) \/
     (Forall (fun uo => validImage (snd uo) = false) log /\
      isPlaceholder P url cleanHostname viewport img)).
Proof.
  cbv [captureOne bind onProgress emit tryCatch delay consoleError ret liftWorld].
  match goal with
  | |- context [captureRealScreenshotWithFallback P ?a ?b ?c ?d ?e ?st] =>
      destruct (tryProviders_spec P _ (providers_quiet P a b c d e) None st)
        as (log & out & s1 & Hrun & Htr & _ & Hout);
      fold (captureRealScreenshotWithFallback P a b c d e) in Hrun;
      rewrite Hrun
  end.
  cbn [trace] in Htr. rewrite fetches_app in Htr. cbn [fetches] in Htr.
  rewrite app_nil_r in Htr.
  destruct out as [d | e |]; [| | destruct Hout].
  - destruct Hout as (failed & u & o & -> & _ & Hvalid & ->).
    rewrite (imageOf_nonempty o Hvalid). cbn [negb].
    destruct (randomUUID P (world s1)) as [id w].
    eexists. eexists. exists (failed ++ [(u, o)])%list.
    split; [reflexivity |].
    split; [cbn [trace]; by rewrite fetches_app, app_nil_r |].
    split; [reflexivity |]. left. by exists failed, u, o.
  - destruct Hout as (_ & Hall & _).
    destruct (randomUUID P _) as [id w].
    eexists. eexists. exists log.
    split; [reflexivity |].
    split; [cbn [trace]; rewrite !fetches_app; cbn [fetches]; by rewrite !app_nil_r |].
    split; [reflexivity |]. right. split; [exact Hall |]. by repeat split.
Qed.

Lemma captureViewports_spec (P : Platform) (config : CaptureConfig.t) (now : DateTime.t)
      (totalOperations : nat) (url cleanHostname cleanPath : string)
      (viewports : list Viewport.t) :
  forall (images : list GeneratedImage.t) (currentOp : nat) (s : St P),
  exists new s',
    captureViewports P config now totalOperations url cleanHostname cleanPath
      viewports images currentOp s =
      (Return ((images ++ new)%list, currentOp + length viewports), s') /\
    map pairOf new = map (fun v => (url, Viewport.type v)) viewports.
Proof.
  induction viewports as [|viewport viewports IH]; intros images currentOp s.
  - exists [], s. simpl. rewrite app_nil_r, Nat.add_0_r. by split.
  - cbn [captureViewports]. unfold bind at 1.
    destruct (captureOne_spec P config now totalOperations url cleanHostname cleanPath
                viewport images (currentOp + 1) s) as (img & s1 & log & -> & _ & Hpair & _).
    destruct (IH (images ++ [img])%list (currentOp + 1) s1) as (new & s' & -> & Hnew).
    exists (img :: new), s'. split.
    + rewrite <- app_assoc. simpl. do 3 f_equal. lia.
    + simpl. by rewrite Hpair, Hnew.
Qed.

Lemma pairsOf_length (pages : list string) (viewports : list Viewport.t) :
  length (pairsOf pages viewports) = length pages * length viewports.
Proof.
  unfold pairsOf. induction pages as [|p pages IH]; simpl; [reflexivity|].
  by rewrite length_app, length_map, IH.
Qed.

Lemma capturePages_spec (P : Platform) (config : CaptureConfig.t) (now : DateTime.t)
      (totalOperations : nat) (viewports : list Viewport.t) (urlsToCapture : list string) :
  Forall (fun url => is_Some (URL_new P url None)) urlsToCapture ->
  forall (images : list GeneratedImage.t) (currentOp : nat) (s : St P),
  exists new s',
    capturePages P config now totalOperations viewports urlsToCapture images currentOp s =
      (Return (images ++ new)%list, s') /\
    map pairOf new = pairsOf urlsToCapture viewports.
Proof.
  induction 1 as [|url urlsToCapture [urlObj Hurl] _ IH]; intros images currentOp s.
  - exists [], s. simpl. rewrite app_nil_r. by split.
  - cbn [capturePages]. unfold bind at 1, newURL. rewrite Hurl. unfold ret at 1.
    unfold bind at 1.
    destruct (captureViewports_spec P config now totalOperations url
                (cleanHostname (URL.hostname urlObj)) (cleanPath (URL.pathname urlObj))
                viewports images currentOp s) as (new1 & s1 & -> & Hnew1).
    cbn [fst snd].
    destruct (IH (images ++ new1)%list (currentOp + length viewports) s1)
      as (new2 & s' & -> & Hnew2).
    exists (new1 ++ new2)%list, s'. split; [by rewrite app_assoc |].
    unfold pairsOf in *. simpl. by rewrite map_app, Hnew1, Hnew2.
Qed.

(** The page loop stops only at a page that is not a URL; otherwise it
    appends the records of all pairs. *)
Lemma capturePages_total (P : Platform) (config : CaptureConfig.t) (now : DateTime.t)
      (totalOperations : nat) (viewports : list Viewport.t) (urlsToCapture : list string) :
  forall (images : list GeneratedImage.t) (currentOp : nat) (s : St P),
    match capturePages P config now totalOperations viewports urlsToCapture
            images currentOp s with
    | (Return all, _) =>
        exists new, all = (images ++ new)%list /\
                    map pairOf new = pairsOf urlsToCapture viewports
    | (Throw _, _) => Exists (fun url => URL_new P url None = None) urlsToCapture
    | (OutOfFuel, _) => False
    end.
Proof.
  induction urlsToCapture as [|url urlsToCapture IH]; intros images currentOp s.
  - exists []. simpl. rewrite app_nil_r. by split.
  - cbn [capturePages]. unfold bind at 1, newURL.
    destruct (URL_new P url None) as [urlObj|] eqn:Hurl; [| by left].
    unfold ret at 1. unfold bind at 1.
    destruct (captureViewports_spec P config now totalOperations url
                (cleanHostname (URL.hostname urlObj)) (cleanPath (URL.pathname urlObj))
                viewports images currentOp s) as (new1 & s1 & -> & Hnew1).
    cbn [fst snd].
    specialize (IH (images ++ new1)%list (currentOp + length viewports) s1).
    destruct (capturePages P config now totalOperations viewports urlsToCapture
                (images ++ new1)%list (currentOp + length viewports) s1)
      as [[all | e |] s'].
    + destruct IH as (new2 & -> & Hnew2).
      exists (new1 ++ new2)%list. split; [by rewrite app_assoc |].
      unfold pairsOf in *. simpl. by rewrite map_app, Hnew1, Hnew2.
    + by right.
    + exact IH.
Qed.

(** The crawl phase always yields pages: the crawler's list, or the
    normalised root alone when the crawler throws. *)
Lemma crawlPhase_returns (P : Platform) (rootUrl : string) (config : CaptureConfig.t)
      (s : St P) :
  exists pages s1, crawlPhase P rootUrl config s = (Return pages, s1) /\ pages <> [].
Proof.
  unfold crawlPhase, bind at 1, onProgress, emit, tryCatch, bind at 1.
  destruct (URL_new P (normalizeUrl P rootUrl) None) as [root|] eqn:Hroot.
  - match goal with |- context [crawlForLinks P ?b ?d ?st] =>
      destruct (crawlForLinks_spec P (fun _ => True) b d st root Hroot)
        as (more & s1 & -> & _ & _); [done.. |]
    end.
    by exists (normalizeUrl P rootUrl :: more), s1.
  - unfold crawlForLinks, bind at 1, newURL. rewrite Hroot.
    eexists _, _. split; [reflexivity | discriminate].
Qed.

(** When the normalised root is a URL, the pages are the crawler's and
    have every property that the root and all followed links have. *)
Lemma crawlPhase_good (P : Platform) (good : string -> Prop) (rootUrl : string)
      (config : CaptureConfig.t) (s : St P) (root : URL.t) :
  URL_new P (normalizeUrl P rootUrl) None = Some root ->
  good (normalizeUrl P rootUrl) ->
  (forall href base u,
      URL_new P href base = Some u -> URL.hostname u = URL.hostname root ->
      good (URL.href u)) ->
  exists pages s1, crawlPhase P rootUrl config s = (Return pages, s1) /\ Forall good pages.
Proof.
  intros Hroot Hgood Hlink.
  unfold crawlPhase, bind at 1, onProgress, emit, tryCatch, bind at 1.
  match goal with |- context [crawlForLinks P ?b ?d ?st] =>
    destruct (crawlForLinks_spec P good b d st root Hroot Hgood Hlink)
      as (more & s1 & -> & _ & Hall)
  end.
  by exists (normalizeUrl P rootUrl :: more), s1.
Qed.

(** C1.  For every request and whatever the fetches of the run answer,
    the crawl phase yields the pages to capture, and when
    [generateScreenshots] returns, its list has exactly one record for each
    pair of a page and an enabled viewport, in page-major order, so its
    length is the number of pages times the number of enabled viewports;
    nothing is dropped.  The only other outcome is that it throws, at a
    page that is not a URL.  It does return when the normalised root is a
    URL (given a URL parser that reparses what it serialises). *)
Theorem one_record_per_pair :
  forall (P : Platform) (rootUrl : string) (config : CaptureConfig.t) (s : St P),
  exists pages s1,
    crawlPhase P rootUrl config s = (Return pages, s1) /\
    match generateScreenshots P rootUrl config s with
    | (Return images, _) =>
        map pairOf images = pairsOf pages (viewports config) /\
        length images = length pages * length (viewports config)
    | (Throw _, _) => Exists (fun url => URL_new P url None = None) pages
    | (OutOfFuel, _) => False
    end /\
    (HrefReparses P ->
     is_Some (URL_new P (normalizeUrl P rootUrl) None) ->
     exists images s2, generateScreenshots P rootUrl config s = (Return images, s2)).
Proof.
  intros P rootUrl config s.
  destruct (crawlPhase_returns P rootUrl config s) as (pages & s1 & Hcrawl & _).
  exists pages, s1. split; [exact Hcrawl |].
  destruct (dateNow P (world s1)) as [now w] eqn:Hnow.
  assert (Hgen : generateScreenshots P rootUrl config s =
                 capturePages P config now (length pages * length (viewports config))
                   (viewports config) pages [] 0 (Build_St P w (trace s1))).
  { unfold generateScreenshots, bind at 1. rewrite Hcrawl.
    unfold capturePhase, bind at 1, liftWorld. by rewrite Hnow. }
  rewrite Hgen. clear Hgen.
  pose proof (capturePages_total P config now (length pages * length (viewports config))
                (viewports config) pages [] 0 (Build_St P w (trace s1))) as Htotal.
  split.
  - destruct (capturePages _ _ _ _ _ _ _ _ _) as [[images | e |] s2];
      [| exact Htotal | exact Htotal].
    destruct Htotal as (new & -> & Hpairs). simpl. split; [exact Hpairs |].
    by rewrite <- (length_map pairOf), Hpairs, pairsOf_length.
  - intros Hre [root Hroot].
    destruct (crawlPhase_good P (fun url => is_Some (URL_new P url None))
                rootUrl config s root Hroot) as (pages' & s1' & Hcrawl' & Hpages).
    + by exists root.
    + intros href base u Hu _. exists u. exact (Hre _ _ _ Hu).
    + rewrite Hcrawl in Hcrawl'. injection Hcrawl' as <- <-.
      destruct (capturePages_spec P config now (length pages * length (viewports config))
                  (viewports config) pages Hpages [] 0 (Build_St P w (trace s1)))
        as (images & s2 & Hrun & _).
      exists images, s2. exact Hrun.
Qed.

Lemma one_record_per_pair_witness :
  is_Some (URL_new Demo.platform (normalizeUrl Demo.platform " example.com") None) /\
  exists images s2,
    generateScreenshots Demo.platform " example.com" Demo.config Demo.start =
      (Return images, s2) /\
    length images = 8.
Proof.
  assert (Hroot : is_Some (URL_new Demo.platform
                             (normalizeUrl Demo.platform " example.com") None))
    by (by exists (Demo.page "/")).
  split; [exact Hroot |].
  destruct (one_record_per_pair Demo.platform " example.com" Demo.config Demo.start)
    as (pages & s1 & Hcrawl & Hshape & Hreturns).
  destruct (Hreturns Demo_HrefReparses Hroot) as (images & s2 & Hrun).
  exists images, s2. split; [exact Hrun |].
  rewrite Hrun in Hshape. destruct Hshape as [_ ->].
  assert (Hpages : length pages = 4).
  { assert (E : crawlPhase Demo.platform " example.com" Demo.config Demo.start =
                (Return ["https://example.com/"; "https://example.com/about";
                         "https://example.com/blog"; "https://example.com/pricing"],
                 snd (crawlPhase Demo.platform " example.com" Demo.config Demo.start)))
      by (vm_compute; reflexivity).
    rewrite E in Hcrawl. by injection Hcrawl as <- _. }
  rewrite Hpages. reflexivity.
Defined.

(** C9.  The placeholder of a pair is named after the hostname from which
    the first [www.] has been removed, wherever it stands, not after the
    hostname with a leading [www.] stripped.  With the network down, the
    batch of the page [https://static.www.example.com/] at the mobile
    viewport asks both providers in vain and returns exactly one record for
    the pair, of the requested size 393 x 852; its filename is
    [error_static.example.com_mobile.jpg], the name of another host, where
    [error_], the www-stripped hostname, an underscore, the viewport tag and
    [.jpg] make [error_static.www.example.com_mobile.jpg]. *)
Theorem placeholder_inner_www :
  URL_new (Stub.platform Stub.staticPage Stub.down) "https://static.www.example.com/" None =
    Some Stub.staticPage /\
  map (fun uo => validImage (snd uo)) (fetches (trace (snd Stub.outage))) = [false; false] /\
  stripLeadingWww (URL.hostname Stub.staticPage) = "static.www.example.com" /\
  match fst Stub.outage with
  | Return [img] =>
      GeneratedImage.url img = "https://static.www.example.com/" /\
      GeneratedImage.viewport img = mobile /\
      GeneratedImage.width img = 393 /\
      GeneratedImage.height img = 852 /\
      GeneratedImage.filename img = "error_static.example.com_mobile.jpg" /\
      GeneratedImage.filename img <>
        "error_" ++ stripLeadingWww (URL.hostname Stub.staticPage) ++ "_" ++
        viewportTag mobile ++ ".jpg"
  | _ => False
  end.
Proof.
  split; [reflexivity |]. split; [vm_compute; reflexivity |].
  split; [reflexivity |]. vm_compute. repeat apply conj; (reflexivity || discriminate).
Qed.

(* ===================================================================== *)
(** * Concrete runs on the small browser *)
(* ===================================================================== *)

(** With depth 1 the crawler returns the root alone and fetches nothing. *)
Example crawl_depth_one :
  crawlForLinks Demo.platform (normalizeUrl Demo.platform "example.com") 1 Demo.start =
    (Return ["https://example.com/"], Demo.start).
Proof. reflexivity. Qed.

(** With depth 2 the links of the root follow it: fragment, [mailto:] and
    foreign links are left out, [/about/] is dropped as a duplicate of
    [/about], and [/docs] falls beyond the four links taken from one page. *)
Example crawl_depth_two :
  fst (crawlForLinks Demo.platform "https://example.com/" 2 Demo.start) =
    Return ["https://example.com/"; "https://example.com/about";
            "https://example.com/blog"; "https://example.com/pricing"].
Proof. vm_compute. reflexivity. Qed.

(** A mobile capture of the root: microlink answers 429, thum.io delivers. *)
Example capture_mobile_root :
  let run := captureRealScreenshotWithFallback Demo.platform "https://example.com/"
               393 852 mobile false Demo.start in
  fst run = Return "data:image/png;base64,iVBORw0KGgo=" /\
  map (fun uo => validImage (snd uo)) (fetches (trace (snd run))) = [false; true] /\
  map fst (fetches (trace (snd run))) =
    ["https://api.microlink.io/?url=https%3A%2F%2Fexample.com%2F&screenshot=true&meta=false&embed=screenshot.url&viewport.width=393&viewport.height=852&viewport.isMobile=true&viewport.deviceScaleFactor=2&waitFor=3s";
     "https://corsproxy.io/?https%3A%2F%2Fimage.thum.io%2Fget%2Fwidth%2F393%2Fcrop%2F852%2Fnoanimate%2Fhttps%3A%2F%2Fexample.com%2F"].
Proof. vm_compute. repeat apply conj; reflexivity. Qed.

(** A desktop capture of the pricing page: all three providers fail and
    the error of the last one is thrown. *)
Example capture_desktop_pricing :
  let run := captureRealScreenshotWithFallback Demo.platform "https://example.com/pricing"
               1920 1080 desktop false Demo.start in
  fst run = Throw (Error "Invalid image data received") /\
  map (fun uo => validImage (snd uo)) (fetches (trace (snd run))) = [false; false; false].
Proof. vm_compute. split; reflexivity. Qed.

(** The whole batch of the demo request: eight records, four of them
    placeholders. *)
Example batch_filenames :
  match fst (generateScreenshots Demo.platform " example.com" Demo.config Demo.start) with
  | Return images => map GeneratedImage.filename images
  | _ => []
  end =
    ["example.com_desktop_1.jpg"; "example.com_mobile_2.jpg";
     "example.com-about_desktop_3.jpg"; "example.com-about_mobile_4.jpg";
     "error_example.com_desktop.jpg"; "error_example.com_mobile.jpg";
     "error_example.com_desktop.jpg"; "error_example.com_mobile.jpg"].
Proof. vm_compute. reflexivity. Qed.

(* ===================================================================== *)
(** * More on the crawler *)
(* ===================================================================== *)

Lemma delays_app (ms : nat) (tr1 tr2 : list Event) :
  delays ms (tr1 ++ tr2) = delays ms tr1 + delays ms tr2.
Proof.
  induction tr1 as [|ev tr1 IH]; simpl; [reflexivity|].
  destruct ev; simpl; rewrite IH; lia.
Qed.

(** Link discovery with its [catch], with what it leaves in the trace: one
    request, for the current page through the proxy, and no delay; nothing
    is enqueued unless the request yields a document. *)
Lemma discover_effects (P : Platform) (baseDomain : string) (visited : gset string)
      (current : Node.t) (queue : list Node.t) (msg : string) (s : St P) :
  exists added s',
    tryCatch P (discoverLinks P baseDomain visited current queue)
      (fun _ => bind P (consoleWarn P msg) (fun _ => ret P queue)) s =
      (Return (queue ++ added)%list, s') /\
    Forall (fun n => Node.level n = Node.level current + 1) added /\
    length added <= maxLinksPerLevel /\
    fetches (trace s') =
      (fetches (trace s) ++
       [(viaProxy P (Node.url current),
         fst (fetch P (viaProxy P (Node.url current)) (world s)))])%list /\
    (pageOf (fst (fetch P (viaProxy P (Node.url current)) (world s))) = None ->
     added = []) /\
    (forall ms, delays ms (trace s') = delays ms (trace s)).
Proof.
  unfold tryCatch, discoverLinks, bind, doFetch, readBody, throw, ret, consoleWarn, emit.
  fold (viaProxy P (Node.url current)).
  destruct (fetch P _ (world s)) as [o w]. cbn [fst].
  assert (Hnone : forall tr : list Event,
             fetches tr = (fetches (trace s) ++
                           [(viaProxy P (Node.url current), o)])%list ->
             (forall ms, delays ms tr = delays ms (trace s)) ->
             exists (added : list Node.t) (s' : St P),
               (@Return (list Node.t) queue, Build_St P w tr) =
                 (Return (queue ++ added)%list, s') /\
               Forall (fun n => Node.level n = Node.level current + 1) added /\
               length added <= maxLinksPerLevel /\
               fetches (trace s') =
                 (fetches (trace s) ++
                  [(viaProxy P (Node.url current), o)])%list /\
               (pageOf o = None -> added = []) /\
               (forall ms, delays ms (trace s') = delays ms (trace s))).
  { intros tr Hf Hd. exists [], (Build_St P w tr). rewrite app_nil_r.
    repeat split; [constructor | simpl; lia | exact Hf | exact Hd]. }
  assert (Hf1 : forall tail, fetches tail = [] ->
             fetches ((trace s ++ [EvFetch (viaProxy P (Node.url current)) o])
                      ++ tail) =
             (fetches (trace s) ++
              [(viaProxy P (Node.url current), o)])%list).
  { intros tail Ht. rewrite !fetches_app, Ht. simpl. by rewrite app_nil_r. }
  assert (Hd1 : forall tail ms, delays ms tail = 0 ->
             delays ms ((trace s ++ [EvFetch (viaProxy P (Node.url current)) o])
                        ++ tail) = delays ms (trace s)).
  { intros tail ms Ht. rewrite !delays_app, Ht. simpl. lia. }
  destruct o as [e | r].
  { apply Hnone; [by apply Hf1 | intros ms; by apply Hd1]. }
  destruct (Response.ok r) eqn:Hok; cbn [negb];
    [| apply Hnone; [by apply Hf1 | intros ms; by apply Hd1]].
  destruct (Response.body r) as [b|] eqn:Hbody;
    [| apply Hnone; [by apply Hf1 | intros ms; by apply Hd1]].
  destruct (scanAnchors_spec P baseDomain (fun _ => True) (fun _ _ _ _ _ => I) visited current
              (anchorHrefs P (Body.text b)) queue 0) as (added & Heq & Hall & Hlen).
  exists added. eexists. split; [by rewrite Heq |].
  split; [eapply Forall_impl; [exact Hall | by intros n [? _]] |].
  split; [lia |]. cbn [trace].
  split; [rewrite <- (app_nil_r (trace s ++ _)); by apply Hf1 |].
  split; [unfold pageOf; rewrite Hok, Hbody; discriminate |].
  intros ms. rewrite <- (app_nil_r (trace s ++ _)). by apply Hd1.
Qed.

(** The loop, with its size and its requests: it returns at most as many
    new entries as the weight of the queue, it requests only pages it
    returns, each through the proxy and at most once, and it never waits. *)
Lemma crawlLoop_effects (P : Platform) (baseDomain : string) (depth : nat) :
  forall (fuel : nat) (visited : gset string) (queue : list Node.t)
         (result : list string) (s : St P),
    queueWeight depth queue <= fuel ->
    exists more s' log,
      crawlLoop P fuel depth baseDomain visited queue result s =
        (Return (result ++ more)%list, s') /\
      length more <= queueWeight depth queue /\
      fetches (trace s') = (fetches (trace s) ++ log)%list /\
      length log <= length more /\
      Forall (fun uo => exists e, e ∈ more /\ fst uo = viaProxy P e) log /\
      (forall ms, delays ms (trace s') = delays ms (trace s)).
Proof.
  induction fuel as [|fuel IH]; intros visited queue result s Hfuel.
  - destruct queue as [|current queue].
    + exists [], s, []. rewrite !app_nil_r.
      split; [reflexivity |]. split; [simpl; lia |]. split; [reflexivity |].
      split; [simpl; lia |]. split; [constructor | reflexivity].
    + exfalso. unfold queueWeight in Hfuel. simpl in Hfuel.
      pose proof (treeSize_pos (depth - Node.level current)). lia.
  - destruct queue as [|current queue].
    + exists [], s, []. rewrite !app_nil_r.
      split; [reflexivity |]. split; [simpl; lia |]. split; [reflexivity |].
      split; [simpl; lia |]. split; [constructor | reflexivity].
    + assert (Hw : queueWeight depth (current :: queue) =
                   treeSize (depth - Node.level current) + queueWeight depth queue)
        by reflexivity.
      pose proof (treeSize_pos (depth - Node.level current)) as Hpos.
      cbn [crawlLoop]. case_bool_decide as Hin.
      { destruct (IH visited queue result s) as (more & s' & log & Hrun & Hlen & Hrest);
          [lia |].
        exists more, s', log. split; [exact Hrun |]. split; [lia | exact Hrest]. }
      set (visited' := {[Js.stripTrailingSlash (Node.url current)]} ∪ visited).
      assert (Hfinish : forall queue' (s1 : St P) (pre : list (string * FetchOutcome)),
                 queueWeight depth queue' + 1 <=
                   treeSize (depth - Node.level current) + queueWeight depth queue ->
                 fetches (trace s1) = (fetches (trace s) ++ pre)%list ->
                 length pre <= 1 ->
                 Forall (fun uo => fst uo = viaProxy P (Node.url current)) pre ->
                 (forall ms, delays ms (trace s1) = delays ms (trace s)) ->
                 exists more s' log,
                   crawlLoop P fuel depth baseDomain visited' queue'
                     (result ++ [Node.url current])%list s1 =
                     (Return (result ++ more)%list, s') /\
                   length more <= queueWeight depth (current :: queue) /\
                   fetches (trace s') = (fetches (trace s) ++ log)%list /\
                   length log <= length more /\
                   Forall (fun uo => exists e, e ∈ more /\ fst uo = viaProxy P e) log /\
                   (forall ms, delays ms (trace s') = delays ms (trace s))).
      { intros queue' s1 pre Hw' Hpre Hlen1 Hfst Hd.
        destruct (IH visited' queue' (result ++ [Node.url current])%list s1)
          as (more & s' & log & Hrun & Hlen & Hlog & Hloglen & Hall & Hd'); [lia |].
        exists (Node.url current :: more), s', (pre ++ log)%list.
        rewrite <- app_assoc in Hrun.
        split; [exact Hrun |]. split; [simpl; lia |].
        split; [by rewrite Hlog, Hpre, app_assoc |].
        split; [rewrite length_app; simpl; lia |].
        split; [| intros ms; by rewrite Hd', Hd].
        apply Forall_app. split.
        - eapply Forall_impl; [exact Hfst |]. intros uo ->.
          exists (Node.url current). split; [by left | reflexivity].
        - eapply Forall_impl; [exact Hall |]. intros uo (e & He & ->).
          exists e. split; [by right | reflexivity]. }
      destruct (Nat.ltb (Node.level current) depth) eqn:Hlevel.
      2:{ apply (Hfinish queue s []); [lia | by rewrite app_nil_r | simpl; lia | constructor | done]. }
      apply Nat.ltb_lt in Hlevel.
      unfold bind at 1. unfold onProgress at 1, emit at 1. unfold bind at 1.
      match goal with |- context [tryCatch P _ (fun _ => bind P (consoleWarn P ?msg) _) ?s1] =>
        destruct (discover_effects P baseDomain visited' current queue msg s1)
          as (added & s2 & Hdisc & Hchildren & Hlen & Hf & _ & Hd)
      end.
      rewrite Hdisc.
      cbn [trace world] in Hf, Hd. rewrite fetches_app in Hf. cbn [fetches] in Hf.
      rewrite app_nil_r in Hf.
      eapply Hfinish; [| exact Hf | simpl; lia | by repeat constructor |].
      * rewrite queueWeight_app.
        rewrite (queueWeight_children depth (Node.level current + 1) added Hchildren).
        rewrite (treeSize_level _ _ Hlevel).
        assert (length added * treeSize (depth - (Node.level current + 1)) <=
                maxLinksPerLevel * treeSize (depth - (Node.level current + 1)))
          by (apply Nat.mul_le_mono_r; exact Hlen).
        lia.
      * intros ms. rewrite Hd, delays_app. simpl. lia.
Qed.

Lemma crawlForLinks_effects (P : Platform) (baseUrl : string) (depth : nat) (s : St P)
      (root : URL.t) :
  URL_new P baseUrl None = Some root ->
  exists result s' log,
    crawlForLinks P baseUrl depth s = (Return result, s') /\
    length result <= treeSize (depth - 1) /\
    fetches (trace s') = (fetches (trace s) ++ log)%list /\
    length log <= length result /\
    Forall (fun uo => exists e, e ∈ result /\ fst uo = viaProxy P e) log /\
    (forall ms, delays ms (trace s') = delays ms (trace s)).
Proof.
  intros Hroot. unfold crawlForLinks, bind, newURL. rewrite Hroot. unfold ret at 1.
  destruct (crawlLoop_effects P (URL.hostname root) depth (treeSize (depth - 1)) ∅
              [{| Node.url := baseUrl; Node.level := 1 |}] [] s)
    as (more & s' & log & Hrun & Hlen & Hrest).
  - unfold queueWeight. simpl. lia.
  - exists more, s', log. split; [exact Hrun |]. split; [| exact Hrest].
    unfold queueWeight in Hlen. simpl in Hlen. lia.
Qed.

Lemma crawlForLinks_shallow (P : Platform) (baseUrl : string) (depth : nat) (s : St P)
      (root : URL.t) :
  URL_new P baseUrl None = Some root ->
  depth <= 1 ->
  crawlForLinks P baseUrl depth s = (Return [baseUrl], s).
Proof.
  intros Hroot Hdepth.
  unfold crawlForLinks, bind, newURL. rewrite Hroot. unfold ret at 1.
  replace (depth - 1) with 0 by lia. cbn [treeSize crawlLoop Node.url Node.level].
  case_bool_decide as Hin; [set_solver |].
  replace (Nat.ltb 1 depth) with false by (symmetry; apply Nat.ltb_ge; lia).
  reflexivity.
Qed.

(** X1.  With a depth of one (or less) the crawler returns the root alone
    and does nothing else: no request, no progress report, the state is
    the one it started from. *)
Theorem crawl_root_only :
  forall (P : Platform) (baseUrl : string) (depth : nat) (s : St P) (root : URL.t),
    URL_new P baseUrl None = Some root ->
    depth <= 1 ->
    crawlForLinks P baseUrl depth s = (Return [baseUrl], s).
Proof. exact crawlForLinks_shallow. Qed.

Lemma crawl_root_only_witness :
  URL_new Demo.platform "https://example.com/" None = Some (Demo.page "/") /\
  1 <= 1 /\
  crawlForLinks Demo.platform "https://example.com/" 1 Demo.start =
    (Return ["https://example.com/"], Demo.start).
Proof.
  split; [reflexivity |]. split; [lia |].
  apply (crawl_root_only Demo.platform "https://example.com/" 1 Demo.start (Demo.page "/"));
    [reflexivity | lia].
Defined.

(** X2.  The crawler returns at most [treeSize (depth - 1)] pages, that is
    1, 5, 21, ... for depths 1, 2, 3, ...: at most four links are followed
    from a page and none from a page of the last level. *)
Theorem crawl_size_bound :
  forall (P : Platform) (baseUrl : string) (depth : nat) (s : St P),
    match crawlForLinks P baseUrl depth s with
    | (Return result, _) => length result <= treeSize (depth - 1)
    | (Throw _, _) => URL_new P baseUrl None = None
    | (OutOfFuel, _) => False
    end.
Proof.
  intros P baseUrl depth s.
  destruct (URL_new P baseUrl None) as [root|] eqn:Hroot.
  - destruct (crawlForLinks_effects P baseUrl depth s root Hroot)
      as (result & s' & log & -> & Hlen & _). exact Hlen.
  - unfold crawlForLinks, bind, newURL. rewrite Hroot. reflexivity.
Qed.

(** X3.  Every request of a crawl asks, through the proxy, for a page that
    is in the returned list; there are at most as many requests as pages,
    and the crawler never waits. *)
Theorem crawl_requests :
  forall (P : Platform) (baseUrl : string) (depth : nat) (s : St P),
    match crawlForLinks P baseUrl depth s with
    | (Return result, s') =>
        exists log,
          fetches (trace s') = (fetches (trace s) ++ log)%list /\
          length log <= length result /\
          Forall (fun uo => exists e, e ∈ result /\
                                      fst uo = PROXY_BASE ++ encodeURIComponent P e) log /\
          forall ms, delays ms (trace s') = delays ms (trace s)
    | (Throw _, s') => s' = s
    | (OutOfFuel, _) => False
    end.
Proof.
  intros P baseUrl depth s.
  destruct (URL_new P baseUrl None) as [root|] eqn:Hroot.
  - destruct (crawlForLinks_effects P baseUrl depth s root Hroot)
      as (result & s' & log & -> & _ & Hrest). by exists log.
  - unfold crawlForLinks, bind, newURL. rewrite Hroot. reflexivity.
Qed.

(** X4.  When the request for the root page does not yield a document (it
    is rejected, its status is not successful, or its body cannot be read),
    the crawler returns the root alone, whatever the depth. *)
Theorem crawl_unreachable_root :
  forall (P : Platform) (baseUrl : string) (depth : nat) (s : St P) (root : URL.t),
    URL_new P baseUrl None = Some root ->
    pageOf (fst (fetch P (PROXY_BASE ++ encodeURIComponent P baseUrl) (world s))) = None ->
    fst (crawlForLinks P baseUrl depth s) = Return [baseUrl].
Proof.
  intros P baseUrl depth s root Hroot Hpage.
  destruct (Nat.le_gt_cases depth 1) as [Hd | Hd].
  { by rewrite (crawlForLinks_shallow P baseUrl depth s root Hroot Hd). }
  unfold crawlForLinks, bind at 1, newURL. rewrite Hroot. unfold ret at 1.
  replace (depth - 1) with (S (depth - 2)) by lia.
  cbn [treeSize]. unfold maxLinksPerLevel.
  destruct (treeSize (depth - 2)) as [|k] eqn:Hk;
    [pose proof (treeSize_pos (depth - 2)); lia |].
  cbn [Nat.mul Nat.add crawlLoop Node.url Node.level].
  case_bool_decide as Hin; [set_solver |].
  replace (Nat.ltb 1 depth) with true by (symmetry; apply Nat.ltb_lt; lia).
  unfold bind at 1. unfold onProgress at 1, emit at 1. unfold bind at 1.
  match goal with |- context [tryCatch P (discoverLinks P ?bd ?vis ?cur ?q)
                                (fun _ => bind P (consoleWarn P ?msg) _) ?s1] =>
    destruct (discover_effects P bd vis cur q msg s1)
      as (added & s2 & Hdisc & _ & _ & _ & Hnone & _)
  end.
  rewrite Hdisc. rewrite (Hnone Hpage). reflexivity.
Qed.

Lemma crawl_unreachable_root_witness :
  URL_new Demo.platform "https://example.com/blog" None = Some (Demo.page "/blog") /\
  pageOf (fst (fetch Demo.platform
                 (PROXY_BASE ++ encodeURIComponent Demo.platform "https://example.com/blog")
                 (world Demo.start))) = None /\
  fst (crawlForLinks Demo.platform "https://example.com/blog" 3 Demo.start) =
    Return ["https://example.com/blog"].
Proof.
  split; [reflexivity |]. split; [reflexivity |].
  apply (crawl_unreachable_root Demo.platform "https://example.com/blog" 3 Demo.start
           (Demo.page "/blog")); reflexivity.
Defined.

(* ===================================================================== *)
(** * More on the capturer and the orchestrator *)
(* ===================================================================== *)

Lemma failures_app (l1 l2 : list (string * FetchOutcome)) :
  failures (l1 ++ l2) = failures l1 + failures l2.
Proof. induction l1 as [|uo l1 IH]; simpl; [reflexivity | rewrite IH; lia]. Qed.

Lemma failures_all (log : list (string * FetchOutcome)) :
  Forall (fun uo => validImage (snd uo) = false) log -> failures log = length log.
Proof. induction 1 as [|uo log Huo _ IH]; simpl; [reflexivity | by rewrite Huo, IH]. Qed.

Lemma startsWith_app (a b : string) : Js.startsWith (a ++ b) a = true.
Proof.
  unfold Js.startsWith. induction a as [|c a IH]; simpl; [by destruct b |].
  destruct (ascii_dec c c); [exact IH | congruence].
Qed.

(** The requests of the three providers go to the microlink API or to the
    proxy. *)
Lemma strategy_routed (P : Platform) (url : string) (width height : nat)
      (type : ViewportType) (fullPage : bool) :
  Forall (fun p => forall u, requestOf p u -> isRouted u = true)
         (strategy P url width height type fullPage).
Proof.
  assert (Hm : forall u, requestOf (microlink P url width height type fullPage) u ->
                         isRouted u = true).
  { intros u (s & s' & providerUrl & Hget & ->). cbn in Hget. injection Hget as <- _.
    cbn [useProxy microlink]. unfold isRouted. by rewrite startsWith_app. }
  assert (Hp : forall p : Provider P, useProxy p = true ->
                 forall u, requestOf p u -> isRouted u = true).
  { intros p Hproxy u (s & s' & providerUrl & _ & ->). rewrite Hproxy.
    unfold isRouted. rewrite startsWith_app. apply orb_true_r. }
  destruct type, fullPage; repeat apply Forall_cons_2; try apply Forall_nil_2;
    first [exact Hm | apply Hp; reflexivity].
Qed.

Lemma attempt_trace (P : Platform) (p : Provider P) (s : St P) :
  quiet p ->
  exists u o s',
    requestOf p u /\
    attempt P p s = (if validImage o then Return (imageOf o) else Throw (errorOf o), s') /\
    trace s' = (trace s ++ [EvFetch u o])%list.
Proof.
  intros Hq. destruct (Hq s) as (providerUrl & s1 & Hget & Htr).
  unfold attempt, bind. rewrite Hget.
  set (u := if useProxy p then _ else _).
  destruct (fetchImageAsBase64_spec P u s1) as (o & s' & Hf & Htr').
  exists u, o, s'. split; [by exists s, s1, providerUrl |]. split; [exact Hf |].
  by rewrite Htr', Htr.
Qed.

(** The loop over the providers, with its waits: half a second after each
    request that is not accepted, and no other delay. *)
Lemma tryProviders_effects (P : Platform) (strategy : list (Provider P)) :
  Forall quiet strategy ->
  forall (lastError : option Exn) (s : St P),
  exists (log : list (string * FetchOutcome)) (out : Outcome string) (s' : St P),
    tryProviders P strategy lastError s = (out, s') /\
    fetches (trace s') = (fetches (trace s) ++ log)%list /\
    Forall2 (fun p uo => requestOf p (fst uo)) (take (length log) strategy) log /\
    (forall ms, delays ms (trace s') =
                delays ms (trace s) + (if Nat.eqb 500 ms then failures log else 0)) /\
    match out with
    | Return d => failures log + 1 = length log /\ String.eqb d EmptyString = false
    | Throw e => failures log = length log /\ length log = length strategy
    | OutOfFuel => False
    end.
Proof.
  induction 1 as [|p strategy Hp Hq IH]; intros lastError s.
  - exists [], (Throw (lastOr lastError)), s. cbn [tryProviders length take failures].
    split; [reflexivity |]. split; [by rewrite app_nil_r |]. split; [constructor |].
    split; [intros ms; destruct (Nat.eqb 500 ms); lia | by split].
  - destruct (attempt_trace P p s Hp) as (u & o & s1 & Hreq & Hatt & Htr1).
    cbn [tryProviders]. unfold tryCatch. rewrite Hatt.
    destruct (validImage o) eqn:Hv.
    + exists [(u, o)], (Return (imageOf o)), s1.
      split; [reflexivity |].
      split; [rewrite Htr1, fetches_app; reflexivity |].
      split; [simpl; by repeat constructor |].
      assert (Hfail : failures [(u, o)] = 0) by (cbn; by rewrite Hv).
      split; [| split; [rewrite Hfail; reflexivity | by apply imageOf_nonempty]].
      intros ms. rewrite Htr1, delays_app, Hfail. cbn [delays].
      destruct (Nat.eqb 500 ms); lia.
    + unfold bind, consoleWarn, delay, emit.
      match goal with |- context [tryProviders P strategy ?le ?st] =>
        destruct (IH le st) as (log & out & s' & Hrun & Htr & Hreqs & Hd & Hout)
      end.
      cbn [trace] in Htr, Hd.
      assert (Hfail : failures ((u, o) :: log) = S (failures log))
        by (cbn; by rewrite Hv).
      exists ((u, o) :: log), out, s'.
      split; [exact Hrun |].
      split.
      { rewrite Htr, Htr1, !fetches_app. cbn [fetches]. rewrite !app_nil_r.
        by rewrite <- app_assoc. }
      split; [simpl; by constructor |].
      split.
      { intros ms. rewrite Hd, Htr1, !delays_app, Hfail. cbn [delays].
        rewrite (Nat.eqb_sym 500 ms). destruct (Nat.eqb ms 500); lia. }
      destruct out as [d | e |]; [| | exact Hout].
      * destruct Hout as [Hn Hd']. split; [rewrite Hfail; simpl; lia | exact Hd'].
      * destruct Hout as [Hn Hl]. split; [rewrite Hfail; simpl; lia | simpl; lia].
Qed.

(** C2.  The providers that one capture attempts, in order, depend only on
    the viewport type and the full-page flag.  Whatever the network
    answers, the requests of a call of [captureRealScreenshotWithFallback]
    are, one each and in this order, those of the first providers of the
    sequence for its request: microlink then thum.io for a mobile viewport
    (mshots is not among them) and for a full-page desktop capture, mshots
    then microlink then thum.io for an ordinary desktop capture.  The first
    provider of the sequence is always attempted, the next one exactly
    after each request that is not accepted, and a call that throws has
    attempted the whole sequence. *)
Theorem strategy_by_request_shape :
  forall (P : Platform) (url : string) (width height : nat)
         (type : ViewportType) (fullPage : bool) (s : St P),
    strategy P url width height type fullPage =
      match type, fullPage with
      | mobile, _ | desktop, true =>
          [microlink P url width height type fullPage;
           thum_io P url width height type fullPage]
      | desktop, false =>
          [mshots P url width height type fullPage;
           microlink P url width height type fullPage;
           thum_io P url width height type fullPage]
      end /\
    map name (strategy P url width height type fullPage) =
      match type, fullPage with
      | mobile, _ | desktop, true => ["microlink"; "thum.io"]
      | desktop, false => ["mshots"; "microlink"; "thum.io"]
      end /\
    head (map name (strategy P url width height mobile fullPage)) = Some "microlink" /\
    ~ In "mshots" (map name (strategy P url width height mobile fullPage)) /\
    exists (log : list (string * FetchOutcome)) (out : Outcome string) (s' : St P),
      captureRealScreenshotWithFallback P url width height type fullPage s = (out, s') /\
      fetches (trace s') = (fetches (trace s) ++ log)%list /\
      1 <= length log /\
      Forall2 (fun p uo => requestOf p (fst uo))
              (take (length log)
                    match type, fullPage with
                    | mobile, _ | desktop, true =>
                        [microlink P url width height type fullPage;
                         thum_io P url width height type fullPage]
                    | desktop, false =>
                        [mshots P url width height type fullPage;
                         microlink P url width height type fullPage;
                         thum_io P url width height type fullPage]
                    end) log /\
      match out with
      | Return _ => length log = failures log + 1
      | Throw _ =>
          length log = failures log /\
          length log = match type, fullPage with
                       | mobile, _ | desktop, true => 2
                       | desktop, false => 3
                       end
      | OutOfFuel => False
      end.
Proof.
  intros P url width height type fullPage s.
  assert (Hshape :
            strategy P url width height type fullPage =
              match type, fullPage with
              | mobile, _ | desktop, true =>
                  [microlink P url width height type fullPage;
                   thum_io P url width height type fullPage]
              | desktop, false =>
                  [mshots P url width height type fullPage;
                   microlink P url width height type fullPage;
                   thum_io P url width height type fullPage]
              end) by (by destruct type, fullPage).
  split; [exact Hshape |].
  split; [by destruct type, fullPage |].
  split; [reflexivity |].
  split; [simpl; intros [H | [H | []]]; discriminate H |].
  destruct (tryProviders_effects P _ (providers_quiet P url width height type fullPage)
              None s) as (log & out & s' & Hrun & Htr & Hreq & _ & Hout).
  exists log, out, s'. split; [exact Hrun |]. split; [exact Htr |].
  assert (Hlen : length (strategy P url width height type fullPage) =
                 match type, fullPage with
                 | mobile, _ | desktop, true => 2
                 | desktop, false => 3
                 end) by (by destruct type, fullPage).
  split.
  { destruct out as [d | e |]; [| | destruct Hout].
    - destruct Hout as [Hn _]. lia.
    - destruct Hout as [_ Hl]. rewrite Hl, Hlen. destruct type, fullPage; lia. }
  split; [by rewrite <- Hshape |].
  destruct out as [d | e |]; [| | exact Hout].
  - destruct Hout as [Hn _]. lia.
  - destruct Hout as [Hn Hl]. split; [lia |]. by rewrite Hl.
Qed.

Lemma append_assoc' (a b c : string) : a ++ (b ++ c) = (a ++ b) ++ c.
Proof. apply chars_inj. by rewrite !chars_app, app_assoc. Qed.

Lemma hasImageExtension_jpg (x : string) : hasImageExtension (x ++ ".jpg") = true.
Proof.
  unfold hasImageExtension, Js.endsWith, Js.toLowerCase.
  rewrite chars_str, chars_app, map_app, rev_app_distr. reflexivity.
Qed.

Lemma ensureExtension_hasImageExtension (x : string) :
  hasImageExtension (ensureExtension x) = true.
Proof.
  unfold ensureExtension.
  destruct (Js.endsWith (Js.toLowerCase x) ".jpg") eqn:Hj; cbn [negb andb].
  { unfold hasImageExtension. by rewrite Hj. }
  destruct (Js.endsWith (Js.toLowerCase x) ".png") eqn:Hp; cbn [negb].
  { unfold hasImageExtension. rewrite Hp. apply orb_true_r. }
  apply hasImageExtension_jpg.
Qed.

Lemma orElse_pos (a b : nat) : 0 < b -> 0 < orElse a b.
Proof. unfold orElse. destruct (Nat.eqb a 0) eqn:E; [done |]. apply Nat.eqb_neq in E. lia. Qed.

Lemma viewports_positive (config : CaptureConfig.t) :
  Forall (fun v => 0 < Viewport.width v /\ 0 < Viewport.height v) (viewports config).
Proof.
  unfold viewports.
  destruct (CaptureConfig.desktop config), (CaptureConfig.mobile config);
    repeat apply Forall_cons_2; try apply Forall_nil_2;
    cbn [Viewport.width Viewport.height]; split; apply orElse_pos; lia.
Qed.

Lemma Forall2_take_Forall {A B} (Q : A -> Prop) (R : A -> B -> Prop) (S : B -> Prop)
      (l : list A) (log : list B) (n : nat) :
  Forall Q l -> Forall2 R (take n l) log ->
  (forall a b, Q a -> R a b -> S b) -> Forall S log.
Proof.
  intros HQ HR HS. assert (HQ' : Forall Q (take n l)) by (by apply Forall_take).
  clear HQ. induction HR as [|a b l' log' Hab _ IH]; [constructor |].
  apply Forall_cons in HQ' as [Ha HQ']. constructor; [by apply (HS a) | by apply IH].
Qed.

Lemma waits_refl {P : Platform} (s : St P) : waits s s 0 0.
Proof. intros ms. destruct (Nat.eqb 500 ms), (Nat.eqb 1500 ms); lia. Qed.

Lemma waits_trans {P : Platform} (s1 s2 s3 : St P) (a b c d : nat) :
  waits s1 s2 a b -> waits s2 s3 c d -> waits s1 s3 (a + c) (b + d).
Proof.
  intros H1 H2 ms. rewrite (H2 ms), (H1 ms).
  destruct (Nat.eqb 500 ms), (Nat.eqb 1500 ms); lia.
Qed.

(** One turn of the inner loop, with its effects: at most three requests,
    all of them routed, a wait of half a second after each request that is
    not accepted and one of a second and a half at the end, and a
    well-formed record. *)
Lemma captureOne_effects (P : Platform) (config : CaptureConfig.t) (now : DateTime.t)
      (totalOperations : nat) (url cleanHostname cleanPath : string)
      (viewport : Viewport.t) (images : list GeneratedImage.t) (currentOp : nat)
      (s : St P) :
  0 < Viewport.width viewport /\ 0 < Viewport.height viewport ->
  exists img s' log,
    captureOne P config now totalOperations url cleanHostname cleanPath viewport
      images currentOp s = (Return (images ++ [img])%list, s') /\
    fetches (trace s') = (fetches (trace s) ++ log)%list /\
    length log <= 3 /\
    Forall (fun uo => isRouted (fst uo) = true) log /\
    waits s s' (failures log) 1 /\
    wellFormed img.
Proof.
  intros [Hw Hh].
  cbv [captureOne bind onProgress emit tryCatch delay consoleError ret liftWorld].
  match goal with
  | |- context [captureRealScreenshotWithFallback P ?a ?b ?c ?d ?e ?st] =>
      destruct (tryProviders_effects P _ (providers_quiet P a b c d e) None st)
        as (log & out & s1 & Hrun & Htr & Hreq & Hd & Hout);
      fold (captureRealScreenshotWithFallback P a b c d e) in Hrun;
      rewrite Hrun;
      pose proof (Forall2_take_Forall _ _ (fun uo => isRouted (fst uo) = true) _ _ _
                    (strategy_routed P a b c d e) Hreq (fun p uo Hp Hr => Hp _ Hr)) as Hrouted;
      assert (Hlen : length log <= 3)
        by (apply Forall2_length in Hreq; rewrite length_take in Hreq;
            assert (length (strategy P a b c d e) <= 3) by (by destruct d, e; simpl; lia);
            lia)
  end.
  cbn [trace] in Htr, Hd. rewrite fetches_app in Htr. cbn [fetches] in Htr.
  rewrite app_nil_r in Htr.
  assert (Hd0 : forall ms, delays ms (trace s1) =
                           delays ms (trace s) + (if Nat.eqb 500 ms then failures log else 0)).
  { intros ms. rewrite Hd, delays_app. cbn [delays]. lia. }
  destruct out as [d | e |]; [| | destruct Hout].
  - destruct Hout as [_ Hne]. rewrite Hne. cbn [negb].
    destruct (randomUUID P (world s1)) as [id w].
    eexists. eexists. exists log.
    split; [reflexivity |].
    split; [cbn [trace]; by rewrite fetches_app, app_nil_r |].
    split; [exact Hlen |]. split; [exact Hrouted |].
    split.
    { intros ms. cbn [trace]. rewrite delays_app, Hd0. cbn [delays].
      destruct (Nat.eqb 1500 ms); lia. }
    split; [by apply orElse_pos |]. split; [by apply orElse_pos |].
    apply ensureExtension_hasImageExtension.
  - destruct (randomUUID P _) as [id w].
    eexists. eexists. exists log.
    split; [reflexivity |].
    split; [cbn [trace]; rewrite !fetches_app; cbn [fetches]; by rewrite !app_nil_r |].
    split; [exact Hlen |]. split; [exact Hrouted |].
    split.
    { intros ms. cbn [trace]. rewrite !delays_app, Hd0. cbn [delays].
      destruct (Nat.eqb 1500 ms); lia. }
    split; [exact Hw |]. split; [exact Hh |].
    cbn [GeneratedImage.filename].
    rewrite !append_assoc'. apply hasImageExtension_jpg.
Qed.

Lemma captureViewports_effects (P : Platform) (config : CaptureConfig.t) (now : DateTime.t)
      (totalOperations : nat) (url cleanHostname cleanPath : string)
      (viewports : list Viewport.t) :
  Forall (fun v => 0 < Viewport.width v /\ 0 < Viewport.height v) viewports ->
  forall (images : list GeneratedImage.t) (currentOp : nat) (s : St P),
  exists new s' log,
    captureViewports P config now totalOperations url cleanHostname cleanPath
      viewports images currentOp s =
      (Return ((images ++ new)%list, currentOp + length viewports), s') /\
    fetches (trace s') = (fetches (trace s) ++ log)%list /\
    length log <= 3 * length new /\
    Forall (fun uo => isRouted (fst uo) = true) log /\
    waits s s' (failures log) (length new) /\
    Forall wellFormed new.
Proof.
  induction 1 as [|viewport viewports Hpos _ IH]; intros images currentOp s.
  - exists [], s, []. cbn [captureViewports length]. rewrite !app_nil_r, Nat.add_0_r.
    split; [reflexivity |]. split; [reflexivity |]. split; [simpl; lia |].
    split; [constructor |]. split; [apply waits_refl | constructor].
  - cbn [captureViewports]. unfold bind at 1.
    destruct (captureOne_effects P config now totalOperations url cleanHostname cleanPath
                viewport images (currentOp + 1) s Hpos)
      as (img & s1 & log1 & -> & Htr1 & Hlen1 & Hr1 & Hw1 & Hwf1).
    destruct (IH (images ++ [img])%list (currentOp + 1) s1)
      as (new & s' & log2 & -> & Htr2 & Hlen2 & Hr2 & Hw2 & Hwf2).
    exists (img :: new), s', (log1 ++ log2)%list.
    split; [rewrite <- app_assoc; cbn [length app]; do 3 f_equal; lia |].
    split; [by rewrite Htr2, Htr1, app_assoc |].
    split; [rewrite length_app; cbn [length]; lia |].
    split; [by apply Forall_app |].
    split; [| by constructor].
    rewrite failures_app. cbn [length].
    replace (S (length new)) with (1 + length new) by lia.
    by apply (waits_trans s s1 s').
Qed.

Lemma capturePages_effects (P : Platform) (config : CaptureConfig.t) (now : DateTime.t)
      (totalOperations : nat) (viewports : list Viewport.t) :
  Forall (fun v => 0 < Viewport.width v /\ 0 < Viewport.height v) viewports ->
  forall (urlsToCapture : list string) (images : list GeneratedImage.t)
         (currentOp : nat) (s : St P),
  exists out s' log,
    capturePages P config now totalOperations viewports urlsToCapture images currentOp s =
      (out, s') /\
    fetches (trace s') = (fetches (trace s) ++ log)%list /\
    Forall (fun uo => isRouted (fst uo) = true) log /\
    match out with
    | Return all =>
        exists new,
          all = (images ++ new)%list /\
          length log <= 3 * length new /\
          waits s s' (failures log) (length new) /\
          Forall wellFormed new
    | Throw _ => True
    | OutOfFuel => False
    end.
Proof.
  intros Hpos. induction urlsToCapture as [|url urlsToCapture IH]; intros images currentOp s.
  - exists (Return images), s, []. cbn [capturePages]. rewrite app_nil_r.
    split; [reflexivity |]. split; [reflexivity |]. split; [constructor |].
    exists []. rewrite app_nil_r. split; [reflexivity |]. split; [simpl; lia |].
    split; [apply waits_refl | constructor].
  - cbn [capturePages]. unfold bind at 1, newURL.
    destruct (URL_new P url None) as [urlObj|].
    2:{ exists (Throw (TypeError "Invalid URL")), s, []. rewrite app_nil_r.
        split; [reflexivity |]. split; [reflexivity |]. by split; [constructor |]. }
    unfold ret at 1. unfold bind at 1.
    destruct (captureViewports_effects P config now totalOperations url
                (cleanHostname (URL.hostname urlObj)) (cleanPath (URL.pathname urlObj))
                viewports Hpos images currentOp s)
      as (new1 & s1 & log1 & -> & Htr1 & Hlen1 & Hr1 & Hw1 & Hwf1).
    cbn [fst snd].
    destruct (IH (images ++ new1)%list (currentOp + length viewports) s1)
      as (out & s' & log2 & -> & Htr2 & Hr2 & Hout).
    exists out, s', (log1 ++ log2)%list.
    split; [reflexivity |]. split; [by rewrite Htr2, Htr1, app_assoc |].
    split; [by apply Forall_app |].
    destruct out as [all | e |]; [| exact I | exact Hout].
    destruct Hout as (new2 & -> & Hlen2 & Hw2 & Hwf2).
    exists (new1 ++ new2)%list. split; [by rewrite app_assoc |].
    split; [rewrite !length_app; lia |].
    split; [| by apply Forall_app].
    rewrite failures_app, length_app. by apply (waits_trans s s1 s').
Qed.

Lemma viaProxy_routed (P : Platform) (target : string) : isRouted (viaProxy P target) = true.
Proof. unfold isRouted, viaProxy. rewrite startsWith_app. apply orb_true_r. Qed.

(** The crawl phase with its effects: at most one request per page, each
    through the proxy, and no wait. *)
Lemma crawlPhase_effects (P : Platform) (rootUrl : string) (config : CaptureConfig.t)
      (s : St P) :
  exists pages s1 log,
    crawlPhase P rootUrl config s = (Return pages, s1) /\
    fetches (trace s1) = (fetches (trace s) ++ log)%list /\
    length log <= length pages /\
    Forall (fun uo => isRouted (fst uo) = true) log /\
    waits s s1 0 0.
Proof.
  unfold crawlPhase, bind at 1, onProgress, emit, tryCatch, bind at 1.
  destruct (URL_new P (normalizeUrl P rootUrl) None) as [root|] eqn:Hroot.
  - match goal with |- context [crawlForLinks P ?b ?d ?st] =>
      destruct (crawlForLinks_effects P b d st root Hroot)
        as (result & s1 & log & -> & _ & Htr & Hlen & Hall & Hd)
    end.
    cbn [trace] in Htr, Hd. rewrite fetches_app in Htr. cbn [fetches] in Htr.
    rewrite app_nil_r in Htr.
    assert (Hrouted : Forall (fun uo => isRouted (fst uo) = true) log).
    { eapply Forall_impl; [exact Hall |]. intros uo (e & _ & ->). apply viaProxy_routed. }
    assert (Hw : waits s s1 0 0).
    { intros ms. rewrite Hd, delays_app. cbn [delays].
      destruct (Nat.eqb 500 ms), (Nat.eqb 1500 ms); lia. }
    unfold ret. destruct (Nat.ltb 0 (length result)) eqn:Hne.
    + by exists result, s1, log.
    + apply Nat.ltb_ge in Hne. exists [normalizeUrl P rootUrl], s1, log.
      split; [reflexivity |]. split; [exact Htr |]. split; [simpl in *; lia |]. by split.
  - unfold crawlForLinks, bind at 1, newURL. rewrite Hroot.
    unfold throw, bind, consoleError, emit, ret.
    eexists _, _, []. split; [reflexivity |]. cbn [trace].
    split; [rewrite !fetches_app; cbn [fetches]; by rewrite !app_nil_r |].
    split; [simpl; lia |]. split; [constructor |].
    intros ms. cbn [trace]. rewrite !delays_app. cbn [delays].
    destruct (Nat.eqb 500 ms), (Nat.eqb 1500 ms); lia.
Qed.

(** The whole run with its effects. *)
Lemma generateScreenshots_effects (P : Platform) (rootUrl : string)
      (config : CaptureConfig.t) (s : St P) :
  exists pages s1 out s' crawlLog captureLog,
    crawlPhase P rootUrl config s = (Return pages, s1) /\
    fetches (trace s1) = (fetches (trace s) ++ crawlLog)%list /\
    waits s s1 0 0 /\
    generateScreenshots P rootUrl config s = (out, s') /\
    fetches (trace s') = (fetches (trace s) ++ crawlLog ++ captureLog)%list /\
    length crawlLog <= length pages /\
    Forall (fun uo => isRouted (fst uo) = true) (crawlLog ++ captureLog) /\
    match out with
    | Return images =>
        length captureLog <= 3 * length images /\
        waits s s' (failures captureLog) (length images) /\
        Forall wellFormed images
    | Throw _ => True
    | OutOfFuel => False
    end.
Proof.
  destruct (crawlPhase_effects P rootUrl config s)
    as (pages & s1 & crawlLog & Hcrawl & Htr1 & Hlen1 & Hr1 & Hw1).
  exists pages, s1.
  unfold generateScreenshots, bind at 1. rewrite Hcrawl.
  unfold capturePhase, bind at 1, liftWorld.
  destruct (dateNow P (world s1)) as [now w].
  destruct (capturePages_effects P config now (length pages * length (viewports config))
              (viewports config) (viewports_positive config) pages [] 0
              (Build_St P w (trace s1)))
    as (out & s' & captureLog & Hrun & Htr2 & Hr2 & Hout).
  exists out, s', crawlLog, captureLog.
  split; [reflexivity |]. split; [exact Htr1 |]. split; [exact Hw1 |].
  split; [exact Hrun |].
  cbn [trace] in Htr2.
  split; [by rewrite Htr2, Htr1, app_assoc |].
  split; [exact Hlen1 |]. split; [by apply Forall_app |].
  destruct out as [images | e |]; [| exact I | exact Hout].
  destruct Hout as (new & -> & Hlen2 & Hw2 & Hwf). cbn [app].
  split; [exact Hlen2 |]. split; [| exact Hwf].
  intros ms. specialize (Hw1 ms). specialize (Hw2 ms). cbn [trace] in Hw2.
  rewrite Hw2, Hw1. destruct (Nat.eqb 500 ms), (Nat.eqb 1500 ms); lia.
Qed.

(** X5.  One capture waits half a second after each of its requests that
    is not accepted, and makes no other wait; each of its requests goes to
    the microlink API or to the proxy; and what it returns is never the
    empty string. *)
Theorem capture_backoff :
  forall (P : Platform) (url : string) (width height : nat)
         (type : ViewportType) (fullPage : bool) (s : St P),
  exists log out s',
    captureRealScreenshotWithFallback P url width height type fullPage s = (out, s') /\
    fetches (trace s') = (fetches (trace s) ++ log)%list /\
    Forall (fun uo => isRouted (fst uo) = true) log /\
    delays 500 (trace s') = delays 500 (trace s) + failures log /\
    (forall ms, ms <> 500 -> delays ms (trace s') = delays ms (trace s)) /\
    match out with
    | Return d => failures log + 1 = length log /\ d <> EmptyString
    | Throw _ => failures log = length log
    | OutOfFuel => False
    end.
Proof.
  intros P url width height type fullPage s.
  destruct (tryProviders_effects P _ (providers_quiet P url width height type fullPage)
              None s) as (log & out & s' & Hrun & Htr & Hreq & Hd & Hout).
  exists log, out, s'. split; [exact Hrun |]. split; [exact Htr |].
  split.
  { apply (Forall2_take_Forall _ _ (fun uo => isRouted (fst uo) = true) _ _ _
             (strategy_routed P url width height type fullPage) Hreq).
    intros p uo Hp Hr. by apply Hp. }
  split; [by rewrite (Hd 500) |].
  split.
  { intros ms Hms. rewrite (Hd ms).
    destruct (Nat.eqb 500 ms) eqn:E; [apply Nat.eqb_eq in E; congruence | lia]. }
  destruct out as [d | e |]; [| by destruct Hout | exact Hout].
  destruct Hout as [Hn Hd']. split; [exact Hn |].
  intros ->. discriminate Hd'.
Qed.

(** X6.  Pacing of a batch.  The crawl phase makes no wait at all.  When
    [generateScreenshots] returns, it has waited a second and a half once
    for each record and half a second once for each request of the capture
    phase (the requests made after the crawl phase) that was not accepted,
    and not otherwise. *)
Theorem batch_pacing :
  forall (P : Platform) (rootUrl : string) (config : CaptureConfig.t) (s : St P),
  exists (pages : list string) (s1 : St P),
    crawlPhase P rootUrl config s = (Return pages, s1) /\
    (forall ms, delays ms (trace s1) = delays ms (trace s)) /\
    match generateScreenshots P rootUrl config s with
    | (Return images, s') =>
        exists captureLog,
          fetches (trace s') = (fetches (trace s1) ++ captureLog)%list /\
          delays 1500 (trace s') = delays 1500 (trace s) + length images /\
          delays 500 (trace s') = delays 500 (trace s) + failures captureLog /\
          forall ms, ms <> 500 -> ms <> 1500 -> delays ms (trace s') = delays ms (trace s)
    | (Throw _, _) => True
    | (OutOfFuel, _) => False
    end.
Proof.
  intros P rootUrl config s.
  destruct (generateScreenshots_effects P rootUrl config s)
    as (pages & s1 & out & s' & crawlLog & captureLog & Hcrawl & Htr1 & Hw1 & -> & Htr &
        _ & _ & Hout).
  exists pages, s1. split; [exact Hcrawl |].
  split.
  { intros ms. rewrite (Hw1 ms). destruct (Nat.eqb 500 ms), (Nat.eqb 1500 ms); lia. }
  destruct out as [images | e |]; [| exact I | exact Hout].
  destruct Hout as (_ & Hw & _). exists captureLog.
  split; [by rewrite Htr, Htr1, app_assoc |].
  split; [rewrite (Hw 1500); cbn; lia |].
  split; [rewrite (Hw 500); cbn; lia |].
  intros ms H5 H15. rewrite (Hw ms).
  destruct (Nat.eqb 500 ms) eqn:E5; [apply Nat.eqb_eq in E5; congruence |].
  destruct (Nat.eqb 1500 ms) eqn:E15; [apply Nat.eqb_eq in E15; congruence | lia].
Qed.

(** X7.  Requests of a batch: whatever the outcome, every request made by
    [generateScreenshots] goes to the microlink API or to the proxy, never
    to the captured site itself; and when it returns there were at most one
    request per page for the crawl and three per record for the captures. *)
Theorem batch_requests :
  forall (P : Platform) (rootUrl : string) (config : CaptureConfig.t) (s : St P),
  exists pages s1 out s' log,
    crawlPhase P rootUrl config s = (Return pages, s1) /\
    generateScreenshots P rootUrl config s = (out, s') /\
    fetches (trace s') = (fetches (trace s) ++ log)%list /\
    Forall (fun uo => isRouted (fst uo) = true) log /\
    match out with
    | Return images => length log <= length pages + 3 * length images
    | Throw _ => True
    | OutOfFuel => False
    end.
Proof.
  intros P rootUrl config s.
  destruct (generateScreenshots_effects P rootUrl config s)
    as (pages & s1 & out & s' & crawlLog & captureLog & Hcrawl & _ & _ & Hrun & Htr & Hlen &
        Hr & Hout).
  exists pages, s1, out, s', (crawlLog ++ captureLog)%list.
  split; [exact Hcrawl |]. split; [exact Hrun |]. split; [exact Htr |].
  split; [exact Hr |].
  destruct out as [images | e |]; [| exact I | exact Hout].
  destruct Hout as (Hlen2 & _). rewrite length_app. lia.
Qed.

(** X8.  Every record of a returned batch, capture or placeholder, has a
    non-zero width and height and a filename that ends in [.jpg] or [.png]
    (in any case). *)
Theorem batch_records_well_formed :
  forall (P : Platform) (rootUrl : string) (config : CaptureConfig.t) (s : St P),
    match generateScreenshots P rootUrl config s with
    | (Return images, _) =>
        Forall (fun img =>
                  0 < GeneratedImage.width img /\ 0 < GeneratedImage.height img /\
                  hasImageExtension (GeneratedImage.filename img) = true) images
    | (Throw _, _) => True
    | (OutOfFuel, _) => False
    end.
Proof.
  intros P rootUrl config s.
  destruct (generateScreenshots_effects P rootUrl config s)
    as (pages & s1 & out & s' & crawlLog & captureLog & _ & _ & _ & -> & _ & _ & _ & Hout).
  destruct out as [images | e |]; [| exact I | exact Hout].
  by destruct Hout as (_ & _ & Hwf).
Qed.

(* ===================================================================== *)
(** * More on strings, the normaliser and the filename synthesiser *)
(* ===================================================================== *)

Lemma dropWhile_firstSolid (l : list ascii) : firstSolid (Js.dropWhile Js.isWhiteSpace l).
Proof.
  induction l as [|c l IH]; simpl; [exact I |].
  destruct (Js.isWhiteSpace c) eqn:E; [exact IH | exact E].
Qed.

Lemma dropWhile_id (l : list ascii) : firstSolid l -> Js.dropWhile Js.isWhiteSpace l = l.
Proof. destruct l as [|c l]; simpl; [reflexivity |]. by intros ->. Qed.

Lemma dropWhile_suffix (l : list ascii) :
  exists pre, l = (pre ++ Js.dropWhile Js.isWhiteSpace l)%list.
Proof.
  induction l as [|c l [pre IH]]; simpl; [by exists [] |].
  destruct (Js.isWhiteSpace c); [exists (c :: pre); simpl; by rewrite <- IH | by exists []].
Qed.

Lemma dropWhile_all (l : list ascii) :
  forallb Js.isWhiteSpace l = true -> Js.dropWhile Js.isWhiteSpace l = [].
Proof.
  induction l as [|c l IH]; simpl; [reflexivity |].
  intros [Hc Hl]%andb_true_iff. rewrite Hc. by apply IH.
Qed.

Lemma dropWhile_keeps (l : list ascii) (c : ascii) :
  In c l -> Js.isWhiteSpace c = false -> In c (Js.dropWhile Js.isWhiteSpace l).
Proof.
  induction l as [|d l IH]; simpl; [done |].
  intros [-> | Hin] Hc; [rewrite Hc; by left |].
  destruct (Js.isWhiteSpace d); [by apply IH | by right].
Qed.

Lemma chars_trim (s : string) : Js.chars (Js.trim s) = trimL (Js.chars s).
Proof. unfold Js.trim, Js.trimEnd, Js.trimStart, trimL. by rewrite !chars_str. Qed.

Lemma firstSolid_rev_dropWhile_rev (m : list ascii) :
  firstSolid m -> firstSolid (rev (Js.dropWhile Js.isWhiteSpace (rev m))).
Proof.
  intros Hm. destruct (dropWhile_suffix (rev m)) as [pre Hpre].
  apply (f_equal (@rev ascii)) in Hpre. rewrite rev_involutive, rev_app_distr in Hpre.
  destruct (rev (Js.dropWhile Js.isWhiteSpace (rev m))) as [|c t]; [exact I |].
  rewrite Hpre in Hm. exact Hm.
Qed.

Lemma trimL_fixed (l : list ascii) : firstSolid l -> firstSolid (rev l) -> trimL l = l.
Proof.
  intros Hl Hr. unfold trimL. rewrite (dropWhile_id l Hl), (dropWhile_id (rev l) Hr).
  apply rev_involutive.
Qed.

Lemma trimL_solid (l : list ascii) : firstSolid (trimL l) /\ firstSolid (rev (trimL l)).
Proof.
  unfold trimL. split.
  - apply firstSolid_rev_dropWhile_rev, dropWhile_firstSolid.
  - rewrite rev_involutive. apply dropWhile_firstSolid.
Qed.

Lemma trimL_idem (l : list ascii) : trimL (trimL l) = trimL l.
Proof. destruct (trimL_solid l). by apply trimL_fixed. Qed.

Lemma trim_idem (s : string) : Js.trim (Js.trim s) = Js.trim s.
Proof. apply chars_inj. by rewrite !chars_trim, trimL_idem. Qed.

Lemma trimL_all (l : list ascii) : forallb Js.isWhiteSpace l = true -> trimL l = [].
Proof. intros H. unfold trimL. by rewrite (dropWhile_all l H). Qed.

Lemma trimL_keeps (l : list ascii) (c : ascii) :
  In c l -> Js.isWhiteSpace c = false -> In c (trimL l).
Proof.
  intros Hin Hc. unfold trimL. apply in_rev. rewrite rev_involutive.
  apply dropWhile_keeps; [| exact Hc]. apply in_rev. rewrite rev_involutive.
  by apply dropWhile_keeps.
Qed.

(** A trimmed string with [https://] in front is still trimmed. *)
Lemma trim_https (s : string) : Js.trim ("https://" ++ Js.trim s) = "https://" ++ Js.trim s.
Proof.
  apply chars_inj. rewrite chars_trim, chars_app, chars_trim.
  destruct (trimL_solid (Js.chars s)) as [_ Hlast].
  apply trimL_fixed; [reflexivity |].
  rewrite rev_app_distr.
  destruct (rev (trimL (Js.chars s))) as [|c t]; [reflexivity | exact Hlast].
Qed.

(** X9.  On an input that normalises, neither surrounding white space nor
    a missing scheme matters: the input, its trimmed form and, when the
    trimmed form has no http(s) scheme, the trimmed form with [https://]
    in front all normalise to the same URL. *)
Theorem normalizeUrl_forgiving :
  forall (P : Platform) (url : string) (u : URL.t),
    URL_new P (withScheme (Js.trim url)) None = Some u ->
    normalizeUrl P url = URL.href u /\
    normalizeUrl P (Js.trim url) = URL.href u /\
    (hasHttpScheme (Js.trim url) = false ->
     normalizeUrl P ("https://" ++ Js.trim url) = URL.href u).
Proof.
  intros P url u Hu.
  split; [unfold normalizeUrl; by rewrite Hu |].
  split; [unfold normalizeUrl; by rewrite trim_idem, Hu |].
  intros Hscheme. unfold normalizeUrl. rewrite trim_https.
  assert (Hw : withScheme (Js.trim url) = "https://" ++ Js.trim url)
    by (unfold withScheme; by rewrite Hscheme).
  rewrite (withScheme_id ("https://" ++ Js.trim url)); [by rewrite <- Hw, Hu |].
  rewrite <- Hw. apply withScheme_hasHttpScheme.
Qed.

Lemma normalizeUrl_forgiving_witness :
  URL_new Demo.platform (withScheme (Js.trim "  example.com/about ")) None =
    Some (Demo.page "/about") /\
  normalizeUrl Demo.platform "  example.com/about " = "https://example.com/about" /\
  normalizeUrl Demo.platform (Js.trim "  example.com/about ") = "https://example.com/about" /\
  (hasHttpScheme (Js.trim "  example.com/about ") = false ->
   normalizeUrl Demo.platform ("https://" ++ Js.trim "  example.com/about ") =
     "https://example.com/about").
Proof.
  split; [reflexivity |].
  apply (normalizeUrl_forgiving Demo.platform "  example.com/about " (Demo.page "/about")).
  reflexivity.
Defined.

(** A pattern whose first character does not occur in the subject is not
    found: the subject is returned as it is. *)
Lemma replaceGo_absent (once : bool) (c0 : ascii) (pat repl : list ascii) (rest : list ascii) :
  ~ In c0 rest ->
  forall seen, Js.replaceGo once (c0 :: pat) repl 0 seen rest = rest.
Proof.
  induction rest as [|c rest IH]; intros Hnot seen; [reflexivity |].
  cbn [Js.replaceGo Js.isPrefix].
  destruct (Ascii.eqb c0 c) eqn:E.
  - apply Ascii.eqb_eq in E as ->. destruct Hnot. by left.
  - cbn [andb]. rewrite IH; [reflexivity |]. intros Hin. apply Hnot. by right.
Qed.

Lemma replaceAll_absent (c0 : ascii) (pat repl s : string) :
  ~ In c0 (Js.chars s) -> Js.replaceAll (String c0 pat) repl s = s.
Proof.
  intros Hnot. unfold Js.replaceAll.
  change (Js.chars (String c0 pat)) with (c0 :: Js.chars pat).
  rewrite replaceGo_absent by exact Hnot. apply str_chars.
Qed.

(** A template without an opening brace has no placeholder: substitution
    leaves it as it is, whatever the field values. *)
Lemma substitute_no_brace (template : string) (f : Fields.t) :
  ~ In "{"%char (Js.chars template) -> substitute template f = template.
Proof.
  intros Hnot. unfold substitute.
  by repeat rewrite (replaceAll_absent _ _ _ template Hnot).
Qed.

Lemma allowed_no_brace (l : list ascii) :
  forallb allowedChar l = true -> ~ In "{"%char l.
Proof.
  intros Hall Hin. rewrite forallb_forall in Hall. specialize (Hall _ Hin).
  discriminate Hall.
Qed.

Lemma sanitize_allowed_id (s : string) :
  forallb allowedChar (Js.chars s) = true -> sanitize s = s.
Proof.
  intros Hall. unfold sanitize. rewrite <- (str_chars s) at 2. f_equal.
  induction (Js.chars s) as [|c l IH]; [reflexivity |].
  simpl in Hall. apply andb_true_iff in Hall as [Hc Hl].
  simpl. unfold sanitizeChar at 1. rewrite Hc. by rewrite IH.
Qed.

Lemma ensureExtension_id (s : string) : hasImageExtension s = true -> ensureExtension s = s.
Proof.
  unfold hasImageExtension, ensureExtension.
  by destruct (Js.endsWith (Js.toLowerCase s) ".jpg"),
              (Js.endsWith (Js.toLowerCase s) ".png").
Qed.

(** A name with an image extension is not blank. *)
Lemma extension_not_blank (s : string) :
  hasImageExtension s = true -> chooseTemplate s = s.
Proof.
  intros Hext.
  assert (Hdot : In "."%char (Js.chars s)).
  { unfold hasImageExtension in Hext. apply orb_true_iff in Hext as [H | H];
      apply endsWith_lower_split in H as (stem & a & b & c & -> & _);
      apply in_or_app; right; by left. }
  assert (Hs : s <> EmptyString) by (intros ->; destruct Hdot).
  assert (Ht : Js.trim s <> EmptyString).
  { intros Ht. apply (f_equal Js.chars) in Ht. rewrite chars_trim in Ht.
    pose proof (trimL_keeps _ _ Hdot eq_refl) as Hin. rewrite Ht in Hin. destruct Hin. }
  unfold chooseTemplate.
  apply String.eqb_neq in Hs. apply String.eqb_neq in Ht. by rewrite Hs, Ht.
Qed.

(** X10.  A filename the synthesiser has produced is a fixed point: given
    back as a template, with any field values, it is returned unchanged. *)
Theorem filename_fixed_point :
  forall (template : string) (f f' : Fields.t),
    synthesizeFilename (synthesizeFilename template f) f' = synthesizeFilename template f.
Proof.
  intros template f f'.
  set (out := synthesizeFilename template f).
  assert (Hext : hasImageExtension out = true) by apply ensureExtension_hasImageExtension.
  assert (Hall : forallb allowedChar (Js.chars out) = true).
  { subst out. unfold synthesizeFilename, ensureExtension.
    set (body := sanitize _).
    assert (Hbody : forallb allowedChar (Js.chars body) = true)
      by (subst body; unfold sanitize; rewrite chars_str; apply sanitize_allowed).
    destruct (negb _ && negb _); [| exact Hbody].
    by rewrite chars_app, forallb_app, Hbody. }
  unfold synthesizeFilename at 1.
  rewrite (extension_not_blank out Hext).
  rewrite (substitute_no_brace out f' (allowed_no_brace _ Hall)).
  rewrite (sanitize_allowed_id out Hall).
  by apply ensureExtension_id.
Qed.

(** X11.  An empty template and a template of white space only stand for
    the default template [{domain}_{date}_{viewport}]. *)
Theorem blank_template :
  forall (template : string) (f : Fields.t),
    forallb Js.isWhiteSpace (Js.chars template) = true ->
    synthesizeFilename template f = synthesizeFilename "{domain}_{date}_{viewport}" f.
Proof.
  intros template f Hblank.
  assert (H1 : chooseTemplate template = defaultTemplate).
  { unfold chooseTemplate.
    assert (Ht : Js.trim template = EmptyString).
    { apply chars_inj. rewrite chars_trim. by apply trimL_all. }
    rewrite Ht. cbn. by rewrite andb_false_r. }
  assert (H2 : chooseTemplate "{domain}_{date}_{viewport}" = defaultTemplate)
    by (vm_compute; reflexivity).
  unfold synthesizeFilename. by rewrite H1, H2.
Qed.

Lemma blank_template_witness :
  forallb Js.isWhiteSpace (Js.chars "   ") = true /\
  synthesizeFilename "   " Demo.fields = "example.com_2025-03-09_mobile.jpg".
Proof.
  split; [reflexivity |].
  rewrite (blank_template "   " Demo.fields); [vm_compute; reflexivity | reflexivity].
Defined.

Lemma replaceGo_slash (rest : list ascii) :
  forall seen,
    Js.replaceGo false ["/"%char] ["-"%char] 0 seen rest =
    map (fun c => if Ascii.eqb "/" c then "-"%char else c) rest.
Proof.
  induction rest as [|c rest IH]; intros seen; [reflexivity |].
  cbn [Js.replaceGo Js.isPrefix map length Nat.sub].
  destruct (Ascii.eqb "/" c); cbn [andb]; [| by rewrite IH].
  cbn [Js.getSubstitution]. cbn. by rewrite IH.
Qed.

(** X12.  The [{path}] value never contains a slash: it is empty for the
    root path and otherwise the path with every slash turned into a hyphen,
    character for character. *)
Theorem cleanPath_no_slash :
  forall (pathname : string),
    ~ In "/"%char (Js.chars (cleanPath pathname)) /\
    (pathname <> "/" ->
     Js.chars (cleanPath pathname) =
       map (fun c => if Ascii.eqb "/" c then "-"%char else c) (Js.chars pathname)) /\
    cleanPath "/" = EmptyString.
Proof.
  intros pathname.
  assert (Hmap : Js.chars (Js.replaceAll "/" "-" pathname) =
                 map (fun c => if Ascii.eqb "/" c then "-"%char else c) (Js.chars pathname)).
  { unfold Js.replaceAll. rewrite chars_str. apply replaceGo_slash. }
  split; [| split; [| reflexivity]].
  - unfold cleanPath. destruct (String.eqb pathname "/"); [simpl; tauto |].
    rewrite Hmap. intros Hin. apply in_map_iff in Hin as (c & Hc & _).
    destruct (Ascii.eqb "/" c) eqn:E; [discriminate Hc |].
    subst c. discriminate E.
  - intros Hne. unfold cleanPath. apply String.eqb_neq in Hne. by rewrite Hne.
Qed.

Lemma replaceGo_not_included (pat repl : list ascii) (rest : list ascii) :
  Js.includesL pat rest = false ->
  forall seen, Js.replaceGo true pat repl 0 seen rest = rest.
Proof.
  induction rest as [|c rest IH]; intros Hnot seen; [reflexivity |].
  cbn [Js.includesL] in Hnot. apply orb_false_iff in Hnot as [Hhere Hlater].
  cbn [Js.replaceGo]. rewrite Hhere. by rewrite IH.
Qed.

(** X13.  The [{domain}] value of a hostname that starts with [www.] is the
    hostname without this prefix, and a hostname in which [www.] does not
    occur is its own [{domain}] value. *)
Theorem cleanHostname_www :
  forall (hostname : string),
    cleanHostname ("www." ++ hostname) = hostname /\
    (Js.includes hostname "www." = false -> cleanHostname hostname = hostname).
Proof.
  intros hostname. split.
  - unfold cleanHostname, Js.replaceFirst. rewrite chars_app.
    cbn. apply str_chars.
  - intros Hnot. unfold cleanHostname, Js.replaceFirst.
    rewrite replaceGo_not_included by exact Hnot. apply str_chars.
Qed.

Lemma startsWith_www (hostname : string) :
  Js.startsWith hostname "www." = true -> exists rest, hostname = "www." ++ rest.
Proof.
  unfold Js.startsWith. intros Hstart.
  destruct hostname as [|a h]; [discriminate Hstart |]. cbn [String.prefix] in Hstart.
  destruct (ascii_dec "w" a) as [<- |]; [| discriminate Hstart].
  destruct h as [|b h]; [discriminate Hstart |]. cbn [String.prefix] in Hstart.
  destruct (ascii_dec "w" b) as [<- |]; [| discriminate Hstart].
  destruct h as [|c h]; [discriminate Hstart |]. cbn [String.prefix] in Hstart.
  destruct (ascii_dec "w" c) as [<- |]; [| discriminate Hstart].
  destruct h as [|d h]; [discriminate Hstart |]. cbn [String.prefix] in Hstart.
  destruct (ascii_dec "." d) as [<- |]; [| discriminate Hstart].
  by exists h.
Qed.

(** Where the code's [{domain}] value is the www-stripped hostname of the
    specification: on hostnames that start with [www.] and on hostnames in
    which [www.] does not occur. *)
Lemma cleanHostname_leading (hostname : string) :
  Js.startsWith hostname "www." = true \/ Js.includes hostname "www." = false ->
  cleanHostname hostname = stripLeadingWww hostname.
Proof.
  unfold stripLeadingWww. destruct (Js.startsWith hostname "www.") eqn:Hstart.
  - intros _. destruct (startsWith_www _ Hstart) as [rest ->].
    unfold cleanHostname, Js.replaceFirst. rewrite chars_app. reflexivity.
  - intros [H | Hnot]; [discriminate |].
    unfold cleanHostname, Js.replaceFirst.
    rewrite replaceGo_not_included by exact Hnot. apply str_chars.
Qed.

(** X25.  The turn of the page loop for one page and one viewport, when
    none of its requests is accepted: it still returns, with exactly one
    record appended, for this page and viewport and of the requested width
    and height; and when the hostname of the page starts with [www.] or
    does not contain [www.], the filename of the record is [error_], the
    www-stripped hostname, an underscore, the viewport tag and [.jpg]. *)
Theorem placeholder_on_failure :
  forall (P : Platform) (config : CaptureConfig.t) (now : DateTime.t)
         (totalOperations : nat) (url : string) (urlObj : URL.t)
         (viewport : Viewport.t) (images : list GeneratedImage.t) (currentOp : nat)
         (s s' : St P) (out : Outcome (list GeneratedImage.t)),
    URL_new P url None = Some urlObj ->
    capturePages P config now totalOperations [viewport] [url] images currentOp s =
      (out, s') ->
    Forall (fun uo => validImage (snd uo) = false)
           (drop (length (fetches (trace s))) (fetches (trace s'))) ->
    exists img,
      out = Return (images ++ [img])%list /\
      GeneratedImage.url img = url /\
      GeneratedImage.viewport img = Viewport.type viewport /\
      GeneratedImage.width img = Viewport.width viewport /\
      GeneratedImage.height img = Viewport.height viewport /\
      (Js.startsWith (URL.hostname urlObj) "www." = true \/
       Js.includes (URL.hostname urlObj) "www." = false ->
       GeneratedImage.filename img =
         "error_" ++ stripLeadingWww (URL.hostname urlObj) ++ "_" ++
         viewportTag (Viewport.type viewport) ++ ".jpg").
Proof.
  intros P config now totalOperations url urlObj viewport images currentOp s s' out
         Hurl Hrun Hfailed.
  cbn [capturePages captureViewports] in Hrun.
  unfold bind at 1, newURL in Hrun. rewrite Hurl in Hrun. unfold ret at 1 in Hrun.
  unfold bind at 1 2 in Hrun.
  destruct (captureOne_spec P config now totalOperations url
              (cleanHostname (URL.hostname urlObj)) (cleanPath (URL.pathname urlObj))
              viewport images (currentOp + 1) s)
    as (img & s1 & log & Hone & Htr & _ & Hcase).
  rewrite Hone in Hrun. cbv [ret fst snd] in Hrun. injection Hrun as <- <-.
  rewrite Htr, drop_app_length in Hfailed.
  exists img. split; [reflexivity |].
  destruct Hcase as [(failed & u & o & -> & Hvalid & _) | [_ Hph]].
  - apply Forall_app in Hfailed as [_ Hlast]. apply Forall_cons in Hlast as [Hlast _].
    cbn [snd] in Hlast. congruence.
  - destruct Hph as (Hu & Hv & Hf & Hw & Hh & _).
    split; [exact Hu |]. split; [exact Hv |]. split; [exact Hw |]. split; [exact Hh |].
    intros Hhost. by rewrite Hf, (cleanHostname_leading _ Hhost).
Qed.

Lemma placeholder_on_failure_witness :
  URL_new Demo.platform "https://example.com/blog" None = Some (Demo.page "/blog") /\
  Forall (fun uo => validImage (snd uo) = false)
         (drop (length (fetches (trace Demo.start)))
               (fetches (trace (snd (capturePages Demo.platform Demo.config Demo.now 8
                                       [Demo.desktopViewport] ["https://example.com/blog"]
                                       [] 4 Demo.start))))) /\
  exists img,
    fst (capturePages Demo.platform Demo.config Demo.now 8
           [Demo.desktopViewport] ["https://example.com/blog"] [] 4 Demo.start) =
      Return ([] ++ [img])%list /\
    GeneratedImage.url img = "https://example.com/blog" /\
    GeneratedImage.viewport img = Viewport.type Demo.desktopViewport /\
    GeneratedImage.width img = Viewport.width Demo.desktopViewport /\
    GeneratedImage.height img = Viewport.height Demo.desktopViewport /\
    (Js.startsWith (URL.hostname (Demo.page "/blog")) "www." = true \/
     Js.includes (URL.hostname (Demo.page "/blog")) "www." = false ->
     GeneratedImage.filename img =
       "error_" ++ stripLeadingWww (URL.hostname (Demo.page "/blog")) ++ "_" ++
       viewportTag (Viewport.type Demo.desktopViewport) ++ ".jpg").
Proof.
  assert (Hurl : URL_new Demo.platform "https://example.com/blog" None =
                 Some (Demo.page "/blog")) by reflexivity.
  assert (Hfailed :
            Forall (fun uo => validImage (snd uo) = false)
              (drop (length (fetches (trace Demo.start)))
                 (fetches (trace (snd (capturePages Demo.platform Demo.config Demo.now 8
                                         [Demo.desktopViewport] ["https://example.com/blog"]
                                         [] 4 Demo.start))))))
    by (vm_compute; repeat constructor).
  split; [exact Hurl |]. split; [exact Hfailed |].
  exact (placeholder_on_failure Demo.platform Demo.config Demo.now 8
           "https://example.com/blog" (Demo.page "/blog") Demo.desktopViewport [] 4
           Demo.start _ _ Hurl (surjective_pairing _) Hfailed).
Defined.

(* ===================================================================== *)
(** * The control panel *)
(* ===================================================================== *)

Lemma trimL_nil_blank (l : list ascii) : trimL l = [] -> forallb Js.isWhiteSpace l = true.
Proof.
  intros Hnil. apply forallb_forall. intros c Hin.
  destruct (Js.isWhiteSpace c) eqn:E; [reflexivity |].
  pose proof (trimL_keeps l c Hin E) as Hkept. rewrite Hnil in Hkept. destruct Hkept.
Qed.

Lemma solid_trimL (l : list ascii) :
  forallb (fun c => negb (Js.isWhiteSpace c)) l = true -> trimL l = l.
Proof.
  intros Hall.
  assert (Hfirst : forall m, forallb (fun c => negb (Js.isWhiteSpace c)) m = true ->
                             firstSolid m).
  { intros [|c m]; simpl; [done |]. intros [Hc _]%andb_true_iff. by apply negb_true_iff. }
  apply trimL_fixed; apply Hfirst; [exact Hall |].
  apply forallb_forall. intros c Hin%in_rev. rewrite forallb_forall in Hall. by apply Hall.
Qed.

Lemma removeWhiteSpace_solid (s : string) :
  forallb (fun c => negb (Js.isWhiteSpace c)) (Js.chars (removeWhiteSpace s)) = true.
Proof.
  unfold removeWhiteSpace. rewrite chars_str. apply forallb_forall.
  intros c Hin. by apply filter_In in Hin as [_ Hc].
Qed.

Lemma withScheme_solid (s : string) :
  forallb (fun c => negb (Js.isWhiteSpace c)) (Js.chars s) = true ->
  forallb (fun c => negb (Js.isWhiteSpace c)) (Js.chars (withScheme s)) = true.
Proof.
  intros Hs. unfold withScheme. destruct (negb (hasHttpScheme s)); [| exact Hs].
  rewrite chars_app, forallb_app, Hs. reflexivity.
Qed.

(** What [handleSubmit] hands over is a URL that the normaliser accepts. *)
Lemma handleSubmit_accepts (P : Platform) (url : string) (config : CaptureConfig.t)
      (u : string) (c : CaptureConfig.t) :
  handleSubmit P url config = OnCapture u c ->
  c = config /\
  forallb (fun ch => negb (Js.isWhiteSpace ch)) (Js.chars u) = true /\
  hasHttpScheme u = true /\
  exists urlObj,
    URL_new P u None = Some urlObj /\
    Js.includes (URL.hostname urlObj) "." = true /\
    4 <= String.length (URL.hostname urlObj) /\
    normalizeUrl P u = URL.href urlObj.
Proof.
  unfold handleSubmit.
  destruct (String.eqb (Js.trim url) EmptyString); [discriminate |].
  set (processedUrl := withScheme (removeWhiteSpace (Js.trim url))).
  assert (Hsolid : forallb (fun ch => negb (Js.isWhiteSpace ch)) (Js.chars processedUrl) = true)
    by apply withScheme_solid, removeWhiteSpace_solid.
  assert (Hscheme : hasHttpScheme processedUrl = true) by apply withScheme_hasHttpScheme.
  destruct (URL_new P processedUrl None) as [urlObj|] eqn:Hurl; [| discriminate].
  destruct (String.eqb (URL.hostname urlObj) EmptyString); [discriminate |].
  destruct (Js.includes (URL.hostname urlObj) ".") eqn:Hdot; [| discriminate].
  destruct (Nat.ltb (String.length (URL.hostname urlObj)) 4) eqn:Hlen; [discriminate |].
  cbn [negb orb]. intros [= <- <-].
  split; [reflexivity |]. split; [exact Hsolid |]. split; [exact Hscheme |].
  exists urlObj. split; [exact Hurl |]. split; [exact Hdot |].
  split; [by apply Nat.ltb_ge in Hlen |].
  assert (Htrim : Js.trim processedUrl = processedUrl)
    by (apply chars_inj; rewrite chars_trim; by apply solid_trimL).
  unfold normalizeUrl. by rewrite Htrim, (withScheme_id _ Hscheme), Hurl.
Qed.

(** X14.  When [handleSubmit] calls [onCapture], it passes the panel's
    configuration and a URL without white space that starts with an http(s)
    scheme and parses, with a hostname of at least four characters that
    contains a dot; [normalizeUrl] maps this URL to its canonical form and
    does not fall back to returning its argument. *)
Theorem submit_accepts_urls :
  forall (P : Platform) (url : string) (config : CaptureConfig.t)
         (u : string) (c : CaptureConfig.t),
    handleSubmit P url config = OnCapture u c ->
    c = config /\
    forallb (fun ch => negb (Js.isWhiteSpace ch)) (Js.chars u) = true /\
    hasHttpScheme u = true /\
    exists urlObj,
      URL_new P u None = Some urlObj /\
      Js.includes (URL.hostname urlObj) "." = true /\
      4 <= String.length (URL.hostname urlObj) /\
      normalizeUrl P u = URL.href urlObj.
Proof. exact handleSubmit_accepts. Qed.

Lemma submit_accepts_urls_witness :
  handleSubmit Demo.platform " exam ple.com/about " Demo.config =
    OnCapture "https://example.com/about" Demo.config /\
  normalizeUrl Demo.platform "https://example.com/about" = "https://example.com/about".
Proof.
  assert (H : handleSubmit Demo.platform " exam ple.com/about " Demo.config =
              OnCapture "https://example.com/about" Demo.config) by (vm_compute; reflexivity).
  split; [exact H |].
  destruct (submit_accepts_urls Demo.platform " exam ple.com/about " Demo.config
              "https://example.com/about" Demo.config H)
    as (_ & _ & _ & urlObj & Hurl & _ & _ & ->).
  assert (E : URL_new Demo.platform "https://example.com/about" None =
              Some (Demo.page "/about")) by reflexivity.
  rewrite E in Hurl. by injection Hurl as <-.
Defined.

(** [generateScreenshots] returns when the normalised root is a URL. *)
Lemma generateScreenshots_returns (P : Platform) (rootUrl : string)
      (config : CaptureConfig.t) (s : St P) (root : URL.t) :
  HrefReparses P ->
  URL_new P (normalizeUrl P rootUrl) None = Some root ->
  exists pages s1 images s2,
    crawlPhase P rootUrl config s = (Return pages, s1) /\
    head pages = Some (normalizeUrl P rootUrl) /\
    generateScreenshots P rootUrl config s = (Return images, s2) /\
    map pairOf images = pairsOf pages (viewports config).
Proof.
  intros Hre Hroot.
  destruct (crawlPhase_good P
              (fun url => is_Some (URL_new P url None)) rootUrl config s root Hroot)
    as (pages & s1 & Hcrawl & Hpages).
  - by exists root.
  - intros href base u Hu _. exists u. exact (Hre _ _ _ Hu).
  - assert (Hhead : head pages = Some (normalizeUrl P rootUrl)).
    { revert Hcrawl.
      unfold crawlPhase, bind at 1, onProgress, emit, tryCatch, bind at 1.
      match goal with |- context [crawlForLinks P ?b ?d ?st] =>
        destruct (crawlForLinks_spec P (fun _ => True) b d st root Hroot)
          as (more & s1' & -> & _ & _); [done.. |]
      end.
      cbn. by intros [= <- _]. }
    exists pages, s1.
    unfold generateScreenshots, bind at 1. rewrite Hcrawl.
    unfold capturePhase, bind at 1, liftWorld.
    destruct (dateNow P (world s1)) as [now w].
    destruct (capturePages_spec P config now (length pages * length (viewports config))
                (viewports config) pages Hpages [] 0 (Build_St P w (trace s1)))
      as (images & s2 & Hrun & Hpairs).
    exists images, s2. by repeat split.
Qed.

(** X15.  Every URL that [handleSubmit] passes to [onCapture] is captured:
    with it and the panel's configuration [generateScreenshots] returns,
    whatever the fetches answer, a list with one record for each pair of a
    crawled page and an enabled viewport, the first page being the
    canonical form of the submitted URL (the URL parser is asked to reparse
    what it serialises). *)
Theorem submit_then_capture :
  forall (P : Platform),
    HrefReparses P ->
    forall (url : string) (config : CaptureConfig.t) (u : string) (c : CaptureConfig.t)
           (s : St P),
      handleSubmit P url config = OnCapture u c ->
      exists pages s1 images s2,
        crawlPhase P u c s = (Return pages, s1) /\
        head pages = Some (normalizeUrl P u) /\
        generateScreenshots P u c s = (Return images, s2) /\
        map pairOf images = pairsOf pages (viewports c) /\
        length images = length pages * length (viewports c).
Proof.
  intros P Hre url config u c s Hsubmit.
  destruct (handleSubmit_accepts P url config u c Hsubmit)
    as (_ & _ & _ & urlObj & Hurl & _ & _ & Hnorm).
  destruct (generateScreenshots_returns P u c s urlObj Hre)
    as (pages & s1 & images & s2 & Hcrawl & Hhead & Hrun & Hpairs).
  - rewrite Hnorm. exact (Hre _ _ _ Hurl).
  - exists pages, s1, images, s2. repeat split; try assumption.
    by rewrite <- (length_map pairOf), Hpairs, pairsOf_length.
Qed.

Lemma submit_then_capture_witness :
  handleSubmit Demo.platform " exam ple.com " Demo.config =
    OnCapture "https://example.com" Demo.config /\
  exists pages s1 images s2,
    crawlPhase Demo.platform "https://example.com" Demo.config Demo.start =
      (Return pages, s1) /\
    head pages = Some (normalizeUrl Demo.platform "https://example.com") /\
    generateScreenshots Demo.platform "https://example.com" Demo.config Demo.start =
      (Return images, s2) /\
    map pairOf images = pairsOf pages (viewports Demo.config) /\
    length images = length pages * length (viewports Demo.config).
Proof.
  assert (H : handleSubmit Demo.platform " exam ple.com " Demo.config =
              OnCapture "https://example.com" Demo.config) by (vm_compute; reflexivity).
  split; [exact H |].
  exact (submit_then_capture Demo.platform Demo_HrefReparses " exam ple.com " Demo.config
           "https://example.com" Demo.config Demo.start H).
Defined.

(** X16.  [handleSubmit] answers "Please enter a website URL" exactly when
    its input is empty or consists of white space only; it then does not
    call [onCapture]. *)
Theorem submit_rejects_blank :
  forall (P : Platform) (url : string) (config : CaptureConfig.t),
    handleSubmit P url config = ToastError "Please enter a website URL" <->
    forallb Js.isWhiteSpace (Js.chars url) = true.
Proof.
  intros P url config. unfold handleSubmit.
  destruct (String.eqb (Js.trim url) EmptyString) eqn:Hblank.
  - apply String.eqb_eq in Hblank. split; [intros _ | reflexivity].
    apply trimL_nil_blank. rewrite <- chars_trim, Hblank. reflexivity.
  - apply String.eqb_neq in Hblank. split.
    + destruct (URL_new P _ None) as [urlObj|]; [| discriminate].
      destruct (_ || _ || _); discriminate.
    + intros Hall. destruct Hblank. apply chars_inj. rewrite chars_trim. by apply trimL_all.
Qed.

(* ===================================================================== *)
(** * The gallery, the downloads and the analysis service *)
(* ===================================================================== *)

Lemma matches_Cat_Void (r : Re.t) (l : list ascii) : Re.matchesL (Re.Cat Re.Void r) l = false.
Proof. induction l as [|c l IH]; simpl; [reflexivity | exact IH]. Qed.

Lemma matches_Cat_Eps (r : Re.t) (l : list ascii) :
  Re.matchesL (Re.Cat Re.Eps r) l = Re.matchesL r l.
Proof.
  destruct l as [|c l]; simpl; [reflexivity |].
  by rewrite matches_Alt, matches_Cat_Void.
Qed.

Lemma matches_Cat_Class (p : ascii -> bool) (r : Re.t) (l : list ascii) :
  Re.matchesL (Re.Cat (Re.Class p) r) l =
  match l with
  | [] => false
  | c :: l' => p c && Re.matchesL r l'
  end.
Proof.
  destruct l as [|c l]; simpl; [reflexivity |].
  destruct (p c); [apply matches_Cat_Eps | apply matches_Cat_Void].
Qed.

Lemma matches_Star_Class_eq (p : ascii -> bool) (l : list ascii) :
  Re.matchesL (Re.Star (Re.Class p)) l = forallb p l.
Proof.
  induction l as [|c l IH]; simpl; [reflexivity |].
  destruct (p c); [by rewrite matches_Cat_Eps | apply matches_Cat_Void].
Qed.

Lemma matches_extensionRe (l : list ascii) :
  Re.matchesL extensionRe l =
  match l with
  | c :: d :: t => Ascii.eqb "." c && (inExtension d && forallb inExtension t)
  | _ => false
  end.
Proof.
  unfold extensionRe, Re.Chr, Re.Plus. rewrite matches_Cat_Class.
  destruct l as [|c l]; [reflexivity |]. rewrite matches_Cat_Class.
  destruct l as [|d t]; [apply andb_false_r |].
  by rewrite matches_Star_Class_eq.
Qed.

Lemma matches_extensionRe_dot (c : ascii) (l : list ascii) :
  In "."%char l -> Re.matchesL extensionRe (c :: l) = false.
Proof.
  intros Hin. rewrite matches_extensionRe. destruct l as [|d t]; [destruct Hin |].
  change (inExtension d && forallb inExtension t) with (forallb inExtension (d :: t)).
  assert (Hno : forallb inExtension (d :: t) = false).
  { destruct (forallb inExtension (d :: t)) eqn:E; [| reflexivity].
    rewrite forallb_forall in E. specialize (E _ Hin). discriminate E. }
  rewrite Hno. apply andb_false_r.
Qed.

Lemma cutMatchToEnd_extension (stem ext : list ascii) :
  ext <> [] -> forallb inExtension ext = true ->
  cutMatchToEnd extensionRe (stem ++ "."%char :: ext) = stem.
Proof.
  intros Hne Hext. induction stem as [|c stem IH].
  - cbn [app cutMatchToEnd]. rewrite matches_extensionRe.
    destruct ext as [|d t]; [done |]. cbn [forallb] in Hext. by rewrite Hext.
  - cbn [app cutMatchToEnd].
    rewrite matches_extensionRe_dot by (apply in_or_app; right; by left).
    by rewrite IH.
Qed.

Lemma cutMatchToEnd_no_dot (l : list ascii) :
  ~ In "."%char l -> cutMatchToEnd extensionRe l = l.
Proof.
  induction l as [|c l IH]; intros Hnot; [reflexivity |].
  cbn [cutMatchToEnd]. rewrite matches_extensionRe.
  assert (Hc : Ascii.eqb "." c = false).
  { apply Ascii.eqb_neq. intros <-. apply Hnot. by left. }
  rewrite Hc. destruct l as [|d t]; cbn [andb].
  - reflexivity.
  - rewrite IH; [reflexivity |]. intros Hin. apply Hnot. by right.
Qed.

(** X17.  The name under which the gallery offers an image is its
    filename with the last extension replaced by that of the chosen format
    ([jpg] for JPEG): for a filename [stem.ext] with a non-empty [ext] free
    of dots and slashes it is [stem.] followed by the new extension, and a
    filename without any dot just gets the new extension appended. *)
Theorem export_name :
  forall (stem ext : string) (format : Format),
    ext <> EmptyString ->
    forallb inExtension (Js.chars ext) = true ->
    newFilename (stem ++ "." ++ ext) format = stem ++ "." ++ formatExtension format /\
    (~ In "."%char (Js.chars stem) ->
     newFilename stem format = stem ++ "." ++ formatExtension format).
Proof.
  intros stem ext format Hne Hext. unfold newFilename, nameWithoutExt. split.
  - rewrite chars_app. change (Js.chars ("." ++ ext)) with ("."%char :: Js.chars ext).
    rewrite cutMatchToEnd_extension; [by rewrite str_chars | | exact Hext].
    intros Hnil. apply Hne. apply chars_inj. exact Hnil.
  - intros Hnot. by rewrite cutMatchToEnd_no_dot, str_chars.
Qed.

Lemma export_name_witness :
  "jpg" <> EmptyString /\
  forallb inExtension (Js.chars "jpg") = true /\
  newFilename "example.com-about_desktop_3.jpg" webp = "example.com-about_desktop_3.webp".
Proof.
  assert (H1 : "jpg" <> EmptyString) by discriminate.
  assert (H2 : forallb inExtension (Js.chars "jpg") = true) by reflexivity.
  split; [exact H1 |]. split; [exact H2 |].
  exact (proj1 (export_name "example.com-about_desktop_3" "jpg" webp H1 H2)).
Defined.

Lemma takeUntil_app (stop : ascii) (l rest : list ascii) :
  ~ In stop l -> takeUntil stop (l ++ stop :: rest) = l.
Proof.
  induction l as [|c l IH]; intros Hnot; simpl.
  - by rewrite Ascii.eqb_refl.
  - destruct (Ascii.eqb c stop) eqn:E.
    + apply Ascii.eqb_eq in E as ->. destruct Hnot. by left.
    + rewrite IH; [reflexivity |]. intros Hin. apply Hnot. by right.
Qed.

Lemma dataMimeL_dataUrl (type rest : list ascii) :
  type <> [] -> ~ In ";"%char type ->
  dataMimeL (Js.chars "data:" ++ type ++ ";"%char :: rest) = Some type.
Proof.
  intros Hne Hnot.
  change (Js.chars "data:" ++ type ++ ";"%char :: rest)%list
    with ("d"%char :: Js.chars "ata:" ++ type ++ ";"%char :: rest)%list.
  cbn [dataMimeL].
  change (Js.isPrefix (Js.chars "data:")
            ("d"%char :: Js.chars "ata:" ++ type ++ ";"%char :: rest)) with true.
  change (skipn 5 ("d"%char :: Js.chars "ata:" ++ type ++ ";"%char :: rest))
    with (type ++ ";"%char :: rest)%list.
  cbv zeta. rewrite (takeUntil_app ";" type rest Hnot).
  destruct type as [|c type]; [done |].
  rewrite skipn_app, Nat.sub_diag, skipn_all. reflexivity.
Qed.

Lemma currentMime_dataUrl (type rest : string) :
  type <> EmptyString -> ~ In ";"%char (Js.chars type) ->
  currentMime ("data:" ++ type ++ ";" ++ rest) = type.
Proof.
  intros Hne Hnot. unfold currentMime.
  rewrite chars_app, chars_app.
  change (Js.chars (";" ++ rest)) with (";"%char :: Js.chars rest).
  rewrite dataMimeL_dataUrl; [apply str_chars | | exact Hnot].
  intros Hnil. apply Hne. by apply chars_inj.
Qed.

(** X18.  The MIME type that the gallery reads off a data URL made by
    [fetchImageAsBase64] is the type of the response it was made from
    (provided that type is not empty and has no semicolon). *)
Theorem mime_round_trip :
  forall (blob : Body.t),
    Body.type blob <> EmptyString ->
    ~ In ";"%char (Js.chars (Body.type blob)) ->
    currentMime ("data:" ++ Body.type blob ++ ";base64," ++ Body.base64 blob) = Body.type blob.
Proof.
  intros blob Hne Hnot.
  exact (currentMime_dataUrl (Body.type blob) ("base64," ++ Body.base64 blob) Hne Hnot).
Qed.

Lemma mime_round_trip_witness :
  Body.type Demo.png <> EmptyString /\
  ~ In ";"%char (Js.chars (Body.type Demo.png)) /\
  currentMime "data:image/png;base64,iVBORw0KGgo=" = "image/png".
Proof.
  assert (H1 : Body.type Demo.png <> EmptyString) by discriminate.
  assert (H2 : ~ In ";"%char (Js.chars (Body.type Demo.png)))
    by (apply (bool_decide_unpack _); vm_compute; reflexivity).
  split; [exact H1 |]. split; [exact H2 |].
  exact (mime_round_trip Demo.png H1 H2).
Defined.

(** X19.  Exporting a capture in the format it already has hands out the
    very data URL that the provider delivered, under the new name and
    without any conversion: the canvas is not used and the toast is
    dismissed. *)
Theorem export_same_format :
  forall (B : Studio) (image : GeneratedImage.t) (format : Format) (blob : Body.t),
    GeneratedImage.dataUrl image =
      "data:" ++ Body.type blob ++ ";base64," ++ Body.base64 blob ->
    Body.type blob = "image/" ++ formatName format ->
    handleDownload B image format =
      [SetActiveMenuNull;
       ToastLoading ("Preparing " ++ formatUpper format ++ "...");
       LinkClick (GeneratedImage.dataUrl image)
                 (newFilename (GeneratedImage.filename image) format);
       ToastDismiss].
Proof.
  intros B image format blob Hurl Htype. unfold handleDownload.
  assert (Hmime : currentMime (GeneratedImage.dataUrl image) = "image/" ++ formatName format).
  { rewrite Hurl, <- Htype.
    apply (currentMime_dataUrl (Body.type blob) ("base64," ++ Body.base64 blob));
      rewrite Htype.
    - by destruct format.
    - destruct format; cbv; intuition discriminate. }
  rewrite Hmime, String.eqb_refl. reflexivity.
Qed.

Lemma export_same_format_witness :
  handleDownload
    {| imageLoads := fun _ => false; hasContext2d := false;
       canvasDataURL := fun _ _ _ _ _ => EmptyString;
       zipObjectURL := fun _ => None; isoNow := "2025-03-09T08:05:00.000Z" |}
    {| GeneratedImage.id := "uuid-1"; GeneratedImage.url := "https://example.com/";
       GeneratedImage.dataUrl := "data:image/png;base64,iVBORw0KGgo=";
       GeneratedImage.viewport := desktop; GeneratedImage.width := 1440;
       GeneratedImage.height := 3200; GeneratedImage.filename := "example.com_desktop_1.jpg" |}
    png =
  [SetActiveMenuNull; ToastLoading "Preparing PNG...";
   LinkClick "data:image/png;base64,iVBORw0KGgo=" "example.com_desktop_1.png";
   ToastDismiss].
Proof.
  rewrite (export_same_format _ _ png Demo.png); reflexivity.
Defined.

Lemma endsWith_app (a b : string) : Js.endsWith (a ++ b) b = true.
Proof.
  unfold Js.endsWith. rewrite chars_app, rev_app_distr. apply isPrefix_app. by eexists.
Qed.

(** X20.  Whatever the image and the state of the browser, an export
    offers at most one file, and the name of the file ends with a dot and
    the extension of the chosen format. *)
Theorem export_extension :
  forall (B : Studio) (image : GeneratedImage.t) (format : Format),
    length (clicks (handleDownload B image format)) <= 1 /\
    Forall (fun click => Js.endsWith (snd click) ("." ++ formatExtension format) = true)
           (clicks (handleDownload B image format)).
Proof.
  intros B image format.
  assert (Hname : Js.endsWith (newFilename (GeneratedImage.filename image) format)
                              ("." ++ formatExtension format) = true)
    by apply endsWith_app.
  unfold handleDownload. cbn [clicks].
  destruct (String.eqb _ _); [cbn [clicks length snd]; split; [lia | by repeat constructor] |].
  destruct (negb (imageLoads B _)); [cbn; split; [lia | constructor] |].
  destruct (negb (hasContext2d B)); [cbn; split; [lia | constructor] |].
  cbn [clicks length snd]. split; [lia | by repeat constructor].
Qed.

Lemma splitSecond_app (before after : list ascii) :
  ~ In ","%char before -> ~ In ","%char after ->
  splitSecond (before ++ ","%char :: after) = Some after.
Proof.
  intros Hb Ha. induction before as [|c before IH]; simpl.
  - f_equal. clear Hb. induction after as [|d after IH]; simpl; [reflexivity |].
    destruct (Ascii.eqb d ",") eqn:E.
    + apply Ascii.eqb_eq in E as ->. destruct Ha. by left.
    + rewrite IH; [reflexivity |]. intros Hin. apply Ha. by right.
  - destruct (Ascii.eqb c ",") eqn:E.
    + apply Ascii.eqb_eq in E as ->. destruct Hb. by left.
    + apply IH. intros Hin. apply Hb. by right.
Qed.

Lemma splitSecond_none (l : list ascii) : ~ In ","%char l -> splitSecond l = None.
Proof.
  induction l as [|c l IH]; intros Hnot; simpl; [reflexivity |].
  destruct (Ascii.eqb c ",") eqn:E.
  - apply Ascii.eqb_eq in E as ->. destruct Hnot. by left.
  - apply IH. intros Hin. apply Hnot. by right.
Qed.

(** X21.  What the archive and the analysis service receive for a capture
    is the base64 text that [fetchImageAsBase64] put into its data URL
    (when neither the type nor the text has a comma); a string without a
    comma yields nothing. *)
Theorem payload_round_trip :
  forall (blob : Body.t),
    ~ In ","%char (Js.chars (Body.type blob)) ->
    ~ In ","%char (Js.chars (Body.base64 blob)) ->
    base64Data ("data:" ++ Body.type blob ++ ";base64," ++ Body.base64 blob) =
      Some (Body.base64 blob) /\
    base64Data (Body.base64 blob) = None.
Proof.
  intros blob Ht Hb. unfold base64Data. split.
  - replace (Js.chars ("data:" ++ Body.type blob ++ ";base64," ++ Body.base64 blob))
      with ((Js.chars "data:" ++ Js.chars (Body.type blob) ++ Js.chars ";base64") ++
            ","%char :: Js.chars (Body.base64 blob))%list.
    + rewrite splitSecond_app; [cbn; by rewrite str_chars | | exact Hb].
      rewrite !in_app_iff. intros [H | [H | H]]; [| by apply Ht |];
        revert H; apply (bool_decide_unpack _); vm_compute; reflexivity.
    + rewrite !chars_app, <- !app_assoc. reflexivity.
  - by rewrite splitSecond_none.
Qed.

Lemma payload_round_trip_witness :
  ~ In ","%char (Js.chars (Body.type Demo.png)) /\
  ~ In ","%char (Js.chars (Body.base64 Demo.png)) /\
  base64Data "data:image/png;base64,iVBORw0KGgo=" = Some "iVBORw0KGgo=".
Proof.
  assert (H1 : ~ In ","%char (Js.chars (Body.type Demo.png)))
    by (apply (bool_decide_unpack _); vm_compute; reflexivity).
  assert (H2 : ~ In ","%char (Js.chars (Body.base64 Demo.png)))
    by (apply (bool_decide_unpack _); vm_compute; reflexivity).
  split; [exact H1 |]. split; [exact H2 |].
  exact (proj1 (payload_round_trip Demo.png H1 H2)).
Defined.

Lemma length_str (l : list ascii) : String.length (Js.str l) = length l.
Proof. induction l as [|c l IH]; simpl; [reflexivity | by rewrite <- IH]. Qed.

Lemma length_chars (s : string) : length (Js.chars s) = String.length s.
Proof. by rewrite <- (str_chars s) at 2; rewrite length_str. Qed.

(** X22.  The name of the archive of a batch holds no colon, whatever the
    clock returns; it ends with [.zip], and the stamp between
    [Capture_Batch_] and the extension has at most 19 characters, none of
    them a [T]. *)
Theorem zip_name_safe :
  forall (iso : string),
    ~ In ":"%char (Js.chars (zipName iso)) /\
    Js.endsWith (zipName iso) ".zip" = true /\
    ~ In "T"%char (Js.chars (zipStamp iso)) /\
    String.length (zipStamp iso) = Nat.min 19 (String.length iso).
Proof.
  intros iso.
  assert (Hstamp : forall c, In c (Js.chars (zipStamp iso)) -> c <> ":"%char /\ c <> "T"%char).
  { intros c. unfold zipStamp. rewrite chars_str, in_map_iff. intros (d & <- & _).
    destruct (Ascii.eqb d ":") eqn:E1; [split; discriminate |].
    destruct (Ascii.eqb d "T") eqn:E2; [split; discriminate |].
    cbn [orb]. split; by apply Ascii.eqb_neq. }
  split; [| split; [| split]].
  - unfold zipName. rewrite !chars_app, !in_app_iff. intros [H | [H | H]].
    + revert H. cbv. intuition discriminate.
    + by destruct (Hstamp _ H).
    + revert H. cbv. intuition discriminate.
  - unfold zipName. rewrite append_assoc'. apply endsWith_app.
  - intros H. by destruct (Hstamp _ H).
  - unfold zipStamp. by rewrite length_str, length_map, length_take, length_chars.
Qed.

Example zip_name_of_timestamp :
  zipName "2025-03-09T08:05:00.000Z" = "Capture_Batch_2025-03-09-08-05-00.zip".
Proof. reflexivity. Qed.

Lemma clicks_links (images : list GeneratedImage.t) :
  clicks (map (fun img => LinkClick (GeneratedImage.dataUrl img) (GeneratedImage.filename img))
              images) =
  map (fun img => (GeneratedImage.dataUrl img, GeneratedImage.filename img)) images.
Proof. induction images as [|img images IH]; simpl; [reflexivity | by rewrite IH]. Qed.

(** X23.  Downloading a batch of one or two images offers each image as a
    file of its own, under its filename and in the order of the batch; a
    larger batch gives one archive named after the clock, or nothing when
    the archive cannot be made; an empty batch gives nothing at all. *)
Theorem download_clicks :
  forall (B : Studio) (images : list GeneratedImage.t),
    (length images <= 2 ->
     clicks (downloadImages B images) =
       map (fun img => (GeneratedImage.dataUrl img, GeneratedImage.filename img)) images) /\
    (2 < length images ->
     match zipObjectURL B (map (fun img => (GeneratedImage.filename img,
                                            base64Data (GeneratedImage.dataUrl img))) images) with
     | Some zipUrl => clicks (downloadImages B images) = [(zipUrl, zipName (isoNow B))]
     | None => clicks (downloadImages B images) = []
     end) /\
    (images = [] -> downloadImages B images = []).
Proof.
  intros B images. unfold downloadImages. split; [| split].
  - intros Hle. destruct (Nat.eqb (length images) 0) eqn:E0.
    + apply Nat.eqb_eq in E0. by destruct images.
    + assert (E2 : Nat.ltb 2 (length images) = false) by (apply Nat.ltb_ge; lia).
      rewrite E2. apply clicks_links.
  - intros Hlt. assert (E0 : Nat.eqb (length images) 0 = false) by (apply Nat.eqb_neq; lia).
    assert (E2 : Nat.ltb 2 (length images) = true) by (apply Nat.ltb_lt; lia).
    rewrite E0, E2. by destruct (zipObjectURL B _).
  - by intros ->.
Qed.

(** X24.  [analyzeScreenshot] always answers with a text that is not
    empty.  Without an API key it hands nothing to the service; with one it
    hands over exactly one request, for [gemini-2.5-flash], that declares
    the image a JPEG whatever the data URL says and carries what stands
    after the first comma of the data URL. *)
Theorem analysis_answer :
  forall (G : Gemini) (base64Image viewport : string),
    fst (analyzeScreenshot G base64Image viewport) <> EmptyString /\
    ((apiKey G = None \/ apiKey G = Some EmptyString) ->
     snd (analyzeScreenshot G base64Image viewport) = []) /\
    (forall key, apiKey G = Some key -> key <> EmptyString ->
     snd (analyzeScreenshot G base64Image viewport) =
       [{| GeminiRequest.model := "gemini-2.5-flash";
           GeminiRequest.mimeType := "image/jpeg";
           GeminiRequest.data := base64Data base64Image;
           GeminiRequest.prompt := analysisPrompt viewport |}]).
Proof.
  intros G base64Image viewport. unfold analyzeScreenshot. split; [| split].
  - destruct (apiKey G) as [key|]; [| discriminate].
    destruct (String.eqb key EmptyString); [discriminate |].
    destruct (generateContent G key _) as [[text|]|]; cbn [fst]; try discriminate.
    destruct (String.eqb text EmptyString) eqn:E; [discriminate |].
    by apply String.eqb_neq.
  - intros [-> | ->]; reflexivity.
  - intros key -> Hkey. apply String.eqb_neq in Hkey. rewrite Hkey.
    by destruct (generateContent G key _) as [[text|]|].
Qed.
